(** * TreeLine: field formats, title templates and title extraction

    A shallow embedding of the field formats of [fieldformat.py] and of
    the title lines of [nodeformat.py].  Python [str] values are modelled
    as [string] (a sequence of 8-bit characters), the [data] dictionary of
    a tree node ([treenode.py]) as a [gmap string string], a Python [set]
    of strings as a [gset string].  Raised exceptions are made explicit by
    the [result] type. *)

From Stdlib Require Import Ascii String.
From stdpp Require Import gmap strings list fin_maps.

(** ** Python [str] methods used by the sources *)

Module Str.

(** [s.startswith(p)] *)
Fixpoint startswith (p s : string) : bool :=
  match p, s with
  | EmptyString, _ => true
  | String a p', String b s' => if Ascii.eqb a b then startswith p' s' else false
  | String _ _, EmptyString => false
  end.

(** [s.replace(old, new)] for a non-empty [old]: occurrences are replaced
    from the left and do not overlap.  [skip] counts the characters of the
    occurrence just replaced that are still to be passed over. *)
Fixpoint replace_go (old new : string) (skip : nat) (s : string) : string :=
  match s with
  | EmptyString => EmptyString
  | String c s' =>
      match skip with
      | S k => replace_go old new k s'
      | O =>
          if startswith old s
          then new +:+ replace_go old new (String.length old - 1) s'
          else String c (replace_go old new 0 s')
      end
  end.

Definition replace (old new s : string) : string := replace_go old new 0 s.

(** [s.split(sep)] for a non-empty [sep], as the first piece and the list
    of the pieces after it. *)
Fixpoint split_go (sep : string) (skip : nat) (s : string) : string * list string :=
  match s with
  | EmptyString => (EmptyString, [])
  | String c s' =>
      match skip with
      | S k => split_go sep k s'
      | O =>
          if startswith sep s
          then (EmptyString,
                let '(p, ps) := split_go sep (String.length sep - 1) s' in p :: ps)
          else let '(p, ps) := split_go sep 0 s' in (String c p, ps)
      end
  end.

Definition split (sep s : string) : list string :=
  let '(p, ps) := split_go sep 0 s in p :: ps.

(** [s.split(sep, maxsplit)]: at most [maxsplit] cuts, the rest of the
    string is the last piece. *)
Fixpoint split_max_go (sep : string) (maxsplit skip : nat) (s : string)
  : string * list string :=
  match s with
  | EmptyString => (EmptyString, [])
  | String c s' =>
      match skip with
      | S k => split_max_go sep maxsplit k s'
      | O =>
          match maxsplit with
          | O => (s, [])
          | S m =>
              if startswith sep s
              then (EmptyString,
                    let '(p, ps) := split_max_go sep m (String.length sep - 1) s' in
                    p :: ps)
              else let '(p, ps) := split_max_go sep maxsplit 0 s' in (String c p, ps)
          end
      end
  end.

Definition split_max (sep : string) (maxsplit : nat) (s : string) : list string :=
  let '(p, ps) := split_max_go sep maxsplit 0 s in p :: ps.

(** The characters below 128 for which [str.isspace] holds. *)
Definition isspace (c : ascii) : bool :=
  let n := nat_of_ascii c in
  ((9 <=? n) && (n <=? 13)) || ((28 <=? n) && (n <=? 32)).

Fixpoint lstrip (s : string) : string :=
  match s with
  | String c s' => if isspace c then lstrip s' else s
  | EmptyString => EmptyString
  end.

Fixpoint rstrip (s : string) : string :=
  match s with
  | EmptyString => EmptyString
  | String c s' =>
      match rstrip s' with
      | EmptyString => if isspace c then EmptyString else String c EmptyString
      | r => String c r
      end
  end.

(** [s.strip()] *)
Definition strip (s : string) : string := rstrip (lstrip s).

(** [s.split()]: the maximal runs of characters that are not white
    space.  [words_go s] is the run that starts [s] and the runs after
    it. *)
Fixpoint words_go (s : string) : string * list string :=
  match s with
  | EmptyString => (EmptyString, [])
  | String c s' =>
      let '(w, ws) := words_go s' in
      if isspace c
      then (EmptyString, match w with EmptyString => ws | _ => w :: ws end)
      else (String c w, ws)
  end.

Definition words (s : string) : list string :=
  let '(w, ws) := words_go s in
  match w with EmptyString => ws | _ => w :: ws end.

(** [sep.join(l)] *)
Fixpoint join (sep : string) (l : list string) : string :=
  match l with
  | [] => EmptyString
  | [x] => x
  | x :: l' => x +:+ sep +:+ join sep l'
  end.

(** [''.join(l)] *)
Fixpoint concat (l : list string) : string :=
  match l with
  | [] => EmptyString
  | x :: l' => x +:+ concat l'
  end.

Definition lower_char (c : ascii) : ascii :=
  let n := nat_of_ascii c in
  if (65 <=? n) && (n <=? 90) then ascii_of_nat (n + 32) else c.

(** [s.lower()] on the characters below 128. *)
Fixpoint lower (s : string) : string :=
  match s with
  | EmptyString => EmptyString
  | String c s' => String (lower_char c) (lower s')
  end.

(** Truth value of a string: [bool(s)], false exactly for [''] *)
Definition truthy (s : string) : bool :=
  match s with EmptyString => false | String _ _ => true end.

(** [sep * 2] *)
Definition twice (s : string) : string := s +:+ s.

End Str.

(** ** [xml.sax.saxutils] *)

Module Sax.

(** [escape(data)]: the ampersand is replaced first. *)
Definition escape (data : string) : string :=
  let data := Str.replace "&" "&amp;" data in
  let data := Str.replace ">" "&gt;" data in
  let data := Str.replace "<" "&lt;" data in
  data.

(** [unescape(data)]: the ampersand is replaced last. *)
Definition unescape (data : string) : string :=
  let data := Str.replace "&lt;" "<" data in
  let data := Str.replace "&gt;" ">" data in
  Str.replace "&amp;" "&" data.

End Sax.

(** ** Exceptions *)

Inductive exn : Type :=
| ValueError      (* raised by the field formats on invalid text *)
| IndexError      (* [l[0]] on an empty list, [match.group(n)] without such a group *)
| ReError.        (* [re.error]: the pattern does not compile *)

Inductive result (A : Type) : Type :=
| Ok (a : A)
| Raise (e : exn).

Arguments Ok {A} a.
Arguments Raise {A} e.

Definition bind {A B : Type} (r : result A) (k : A → result B) : result B :=
  match r with
  | Ok a => k a
  | Raise e => Raise e
  end.

Notation "x ←! r ; k" := (bind r (λ x, k))
  (at level 20, r at level 100, k at level 200, right associativity,
   format "x  ←!  r ;  '/' k").

(** [try: r except ValueError: h] *)
Definition except_ValueError {A : Type} (r : result A) (h : result A) : result A :=
  match r with
  | Raise ValueError => h
  | _ => r
  end.

(** An [option] answer of a literal service, [None] standing for the
    [ValueError] it raises. *)
Definition orValueError {A : Type} (o : option A) : result A :=
  match o with
  | Some a => Ok a
  | None => Raise ValueError
  end.

(** ** The collaborators outside the sources

    [re] is Python's regular expression library.  An engine says which
    patterns compile and, for a pattern that compiles, what
    [re.match(pattern, text)] answers: [None] when the pattern does not
    match at position 0 of [text], and otherwise the list of
    [match.group(0)], [match.group(1)], ... *)

Class ReEngine : Type := {
  re_compiles : string → bool;
  re_match : string → string → option (list string)
}.

(** [gennumber] and [genboolean] are the literal services of the program,
    modules of their own outside [fieldformat.py]; the field formats only
    construct their objects and call the methods listed here, each of which
    either answers or raises [ValueError] ([None]).  They are parameters of
    the development. *)

Class Literals : Type := {
  number : Type;
  number_zero : number;
  (** [GenNumber(text).num] *)
  GenNumber_num : string → option number;
  (** [GenNumber(text).numStr(format)] *)
  GenNumber_numStr : string → string → option string;
  (** [repr(GenNumber().setFromStr(text, format))] *)
  GenNumber_setFromStr : string → string → option string;
  (** [GenBoolean(text).value] *)
  GenBoolean_value : string → option bool;
  (** [GenBoolean(text).boolStr(format)] *)
  GenBoolean_boolStr : string → string → option string;
  (** [repr(GenBoolean().setFromStr(text, format))] *)
  GenBoolean_setFromStr : string → string → option string;
  (** [repr(GenBoolean(text))] *)
  GenBoolean_repr : string → option string
}.

(** ** fieldformat.py *)

Definition _errorStr : string := "#####".

(** [_stripTagRe = re.compile('<.*?>')]: from a ['<'], the shortest run of
    characters other than a line feed that ends in ['>'].  [tag_end s] is the
    position of that ['>'] in the text [s] that follows the ['<']. *)
Fixpoint tag_end (s : string) : option nat :=
  match s with
  | EmptyString => None
  | String c s' =>
      if Ascii.eqb c ">" then Some 0
      else if Ascii.eqb c "010" then None
      else S <$> tag_end s'
  end.

(** [_stripTagRe.sub('', text)] *)
Fixpoint stripTag_go (skip : nat) (text : string) : string :=
  match text with
  | EmptyString => EmptyString
  | String c text' =>
      match skip with
      | S k => stripTag_go k text'
      | O =>
          if Ascii.eqb c "<" then
            match tag_end text' with
            | Some n => stripTag_go (S n) text'
            | None => String c (stripTag_go 0 text')
            end
          else String c (stripTag_go 0 text')
      end
  end.

Definition removeMarkup (text : string) : string :=
  let text := stripTag_go 0 text in
  Sax.unescape text.

Inductive FieldType : Type :=
| Text | HtmlText | OneLineText | SpacedText | Number | Boolean | Choice
| Combination | RegularExpression.

Global Instance FieldType_eq_dec : EqDecision FieldType.
Proof. solve_decision. Defined.

Definition fieldTypes : list FieldType :=
  [Text; HtmlText; OneLineText; SpacedText; Number; Boolean; Choice;
   Combination; RegularExpression].

(** A field format object: the attributes set by [__init__] and
    [setFormat], and its class. *)
Record Field : Type := mkField {
  typeName : FieldType;
  name : string;
  format : string;
  prefix : string;
  suffix : string;
  initDefault : string;
  numLines : nat;
  sortKeyNum : nat;
  sortKeyForward : bool;
  evalHtml : bool;
  useFileInfo : bool;
  showInDialog : bool;
  choiceList : list string;
  choices : gset string;
  outputSep : string
}.

(** Class attributes *)
Definition defaultFormat (t : FieldType) : string :=
  match t with
  | Number => "#.##"
  | Choice | Combination => "1/2/3/4"
  | Boolean => "yes/no"
  | RegularExpression => ".*"
  | _ => ""
  end.

Definition evalHtmlDefault (t : FieldType) : bool :=
  match t with
  | HtmlText => true
  | _ => false
  end.

Definition fixEvalHtmlSetting (t : FieldType) : bool :=
  match t with
  | Choice | Combination | RegularExpression => false
  | _ => true
  end.

Definition editSep : string := "/".

(** The placeholder character ['\0'] of [splitText]. *)
Definition nul : string := String "000"%char EmptyString.

(** [l[0]] for a list that [str.split] returned (never empty). *)
Definition first_piece (l : list string) : string := default EmptyString (head l).

(** Attribute assignments *)
Definition set_format (self : Field) (v : string) : Field :=
  mkField (typeName self) (name self) v (prefix self) (suffix self)
    (initDefault self) (numLines self) (sortKeyNum self) (sortKeyForward self)
    (evalHtml self) (useFileInfo self) (showInDialog self) (choiceList self)
    (choices self) (outputSep self).

Definition set_choices (self : Field) (l : list string) (c : gset string) : Field :=
  mkField (typeName self) (name self) (format self) (prefix self) (suffix self)
    (initDefault self) (numLines self) (sortKeyNum self) (sortKeyForward self)
    (evalHtml self) (useFileInfo self) (showInDialog self) l c (outputSep self).

Definition set_outputSep (self : Field) (v : string) : Field :=
  mkField (typeName self) (name self) (format self) (prefix self) (suffix self)
    (initDefault self) (numLines self) (sortKeyNum self) (sortKeyForward self)
    (evalHtml self) (useFileInfo self) (showInDialog self) (choiceList self)
    (choices self) v.

Definition set_evalHtml (self : Field) (v : bool) : Field :=
  mkField (typeName self) (name self) (format self) (prefix self) (suffix self)
    (initDefault self) (numLines self) (sortKeyNum self) (sortKeyForward self)
    v (useFileInfo self) (showInDialog self) (choiceList self)
    (choices self) (outputSep self).

Definition set_class (self : Field) (t : FieldType) : Field :=
  mkField t (name self) (format self) (prefix self) (suffix self)
    (initDefault self) (numLines self) (sortKeyNum self) (sortKeyForward self)
    (evalHtml self) (useFileInfo self) (showInDialog self) (choiceList self)
    (choices self) (outputSep self).

Definition set_prefix_suffix (self : Field) (p s : string) : Field :=
  mkField (typeName self) (name self) (format self) p s
    (initDefault self) (numLines self) (sortKeyNum self) (sortKeyForward self)
    (evalHtml self) (useFileInfo self) (showInDialog self) (choiceList self)
    (choices self) (outputSep self).

(** [TextField(name)], without format data.  The attributes [choiceList],
    [choices] and [outputSep], which a text field does not have, are
    empty. *)
Definition TextField_init (name : string) : Field :=
  mkField Text name (defaultFormat Text) EmptyString EmptyString EmptyString
    1 0 true (evalHtmlDefault Text) false true [] ∅ EmptyString.

(** *** ChoiceField.splitText, CombinationField.joinText *)

Definition splitText_step (result : list string) (text : string) : list string :=
  let text := Str.replace nul editSep (Str.strip text) in
  if Str.truthy text && negb (bool_decide (text ∈ result))
  then result ++ [text]
  else result.

Definition ChoiceField_splitText (textStr : string) : list string :=
  let textStr := Str.replace (Str.twice editSep) nul textStr in
  foldl splitText_step [] (Str.split editSep textStr).

Definition CombinationField_joinText (textList : list string) : string :=
  Str.join editSep
    ((λ text, Str.replace editSep (Str.twice editSep) text) <$> textList).

Definition CombinationField_sortedSelections (self : Field) (inText : string)
  : list string * bool :=
  let selections : gset string := list_to_set (ChoiceField_splitText inText) in
  let result := filter (λ text, text ∈ selections) (choiceList self) in
  (result, bool_decide (size selections = length result)).

Section WithServices.

Context {RE : ReEngine} {LIT : Literals}.

(** [re.match(pattern, text)] *)
Definition py_re_match (pattern text : string) : result (option (list string)) :=
  if re_compiles pattern then Ok (re_match pattern text) else Raise ReError.

(** *** setFormat *)

Definition TextField_setFormat (self : Field) (format' : string) : Field :=
  set_format self format'.

Definition ChoiceField_setFormat (self : Field) (format' : string) : Field :=
  let self := TextField_setFormat self format' in
  let choiceList := ChoiceField_splitText (format self) in
  if evalHtml self
  then set_choices self choiceList (list_to_set choiceList)
  else set_choices self choiceList (list_to_set (Sax.escape <$> choiceList)).

Definition CombinationField_setFormat (self : Field) (format' : string) : Field :=
  let self := TextField_setFormat self format' in
  let format' := if evalHtml self then format' else Sax.escape format' in
  let choiceList := ChoiceField_splitText format' in
  let self := set_choices self choiceList (list_to_set choiceList) in
  set_outputSep self EmptyString.

Definition RegularExpressionField_setFormat (self : Field) (format' : string)
  : result Field :=
  if re_compiles format'
  then Ok (TextField_setFormat self format')
  else Raise ValueError.

Definition setFormat (self : Field) (format' : string) : result Field :=
  match typeName self with
  | Choice | Boolean => Ok (ChoiceField_setFormat self format')
  | Combination => Ok (CombinationField_setFormat self format')
  | RegularExpression => RegularExpressionField_setFormat self format'
  | _ => Ok (TextField_setFormat self format')
  end.

(** *** formatOutput *)

Definition TextField_formatOutput (self : Field) (storedText : string)
    (titleMode formatHtml : bool) : string :=
  let prefix := prefix self in
  let suffix := suffix self in
  let '(storedText, prefix, suffix) :=
    if titleMode then
      let storedText := removeMarkup storedText in
      if formatHtml
      then (storedText, removeMarkup prefix, removeMarkup suffix)
      else (storedText, prefix, suffix)
    else if negb formatHtml
      then (storedText, Sax.escape prefix, Sax.escape suffix)
      else (storedText, prefix, suffix) in
  prefix +:+ storedText +:+ suffix.

Definition OneLineTextField_formatOutput (self : Field) (storedText : string)
    (titleMode formatHtml : bool) : string :=
  let text := first_piece (Str.split_max "<br />" 1 storedText) in
  TextField_formatOutput self text titleMode formatHtml.

Definition SpacedTextField_formatOutput (self : Field) (storedText : string)
    (titleMode formatHtml : bool) : string :=
  let storedText :=
    if Str.truthy storedText then "<pre>" +:+ storedText +:+ "</pre>"
    else storedText in
  TextField_formatOutput self storedText titleMode formatHtml.

Definition NumberField_formatOutput (self : Field) (storedText : string)
    (titleMode formatHtml : bool) : string :=
  let text :=
    match GenNumber_numStr storedText (format self) with
    | Some text => text
    | None => _errorStr
    end in
  TextField_formatOutput self text titleMode formatHtml.

Definition ChoiceField_formatOutput (self : Field) (storedText : string)
    (titleMode formatHtml : bool) : string :=
  let storedText :=
    if negb (bool_decide (storedText ∈ choices self)) then _errorStr
    else storedText in
  TextField_formatOutput self storedText titleMode formatHtml.

Definition CombinationField_formatOutput (self : Field) (storedText : string)
    (titleMode formatHtml : bool) : string :=
  let '(selections, valid) := CombinationField_sortedSelections self storedText in
  let result :=
    if valid then Str.join (outputSep self) selections else _errorStr in
  TextField_formatOutput self result titleMode formatHtml.

Definition BooleanField_formatOutput (self : Field) (storedText : string)
    (titleMode formatHtml : bool) : string :=
  let text :=
    match GenBoolean_boolStr storedText (format self) with
    | Some text => text
    | None => _errorStr
    end in
  ChoiceField_formatOutput self text titleMode formatHtml.

Definition RegularExpressionField_formatOutput (self : Field)
    (storedText : string) (titleMode formatHtml : bool) : result string :=
  match_ ←! py_re_match (format self) (Sax.unescape storedText);
  let text :=
    if negb (Str.truthy storedText) || bool_decide (is_Some match_)
    then storedText else _errorStr in
  Ok (TextField_formatOutput self text titleMode formatHtml).

Definition formatOutput (self : Field) (storedText : string)
    (titleMode formatHtml : bool) : result string :=
  match typeName self with
  | Text | HtmlText => Ok (TextField_formatOutput self storedText titleMode formatHtml)
  | OneLineText =>
      Ok (OneLineTextField_formatOutput self storedText titleMode formatHtml)
  | SpacedText =>
      Ok (SpacedTextField_formatOutput self storedText titleMode formatHtml)
  | Number => Ok (NumberField_formatOutput self storedText titleMode formatHtml)
  | Choice => Ok (ChoiceField_formatOutput self storedText titleMode formatHtml)
  | Combination =>
      Ok (CombinationField_formatOutput self storedText titleMode formatHtml)
  | Boolean => Ok (BooleanField_formatOutput self storedText titleMode formatHtml)
  | RegularExpression =>
      RegularExpressionField_formatOutput self storedText titleMode formatHtml
  end.

(** *** formatEditorText *)

Definition TextField_formatEditorText (self : Field) (storedText : string)
  : result string :=
  Ok storedText.

Definition OneLineTextField_formatEditorText (self : Field) (storedText : string)
  : result string :=
  Ok (first_piece (Str.split_max "<br />" 1 storedText)).

Definition SpacedTextField_formatEditorText (self : Field) (storedText : string)
  : result string :=
  Ok (Sax.unescape storedText).

Definition NumberField_formatEditorText (self : Field) (storedText : string)
  : result string :=
  if negb (Str.truthy storedText) then Ok EmptyString
  else orValueError (GenNumber_numStr storedText (format self)).

Definition ChoiceField_formatEditorText (self : Field) (storedText : string)
  : result string :=
  if Str.truthy storedText && negb (bool_decide (storedText ∈ choices self))
  then Raise ValueError
  else if evalHtml self then Ok storedText
  else Ok (Sax.unescape storedText).

Definition CombinationField_formatEditorText (self : Field) (storedText : string)
  : result string :=
  let selections : gset string := list_to_set (ChoiceField_splitText storedText) in
  if bool_decide (selections ⊆ choices self) then
    if evalHtml self then Ok storedText
    else Ok (Sax.unescape storedText)
  else Raise ValueError.

Definition BooleanField_formatEditorText (self : Field) (storedText : string)
  : result string :=
  if negb (Str.truthy storedText) then Ok EmptyString
  else orValueError (GenBoolean_boolStr storedText (format self)).

Definition RegularExpressionField_formatEditorText (self : Field)
    (storedText : string) : result string :=
  let storedText :=
    if negb (evalHtml self) then Sax.unescape storedText else storedText in
  match_ ←! py_re_match (format self) storedText;
  if negb (Str.truthy storedText) || bool_decide (is_Some match_)
  then Ok storedText
  else Raise ValueError.

Definition formatEditorText (self : Field) (storedText : string) : result string :=
  match typeName self with
  | Text | HtmlText => TextField_formatEditorText self storedText
  | OneLineText => OneLineTextField_formatEditorText self storedText
  | SpacedText => SpacedTextField_formatEditorText self storedText
  | Number => NumberField_formatEditorText self storedText
  | Choice => ChoiceField_formatEditorText self storedText
  | Combination => CombinationField_formatEditorText self storedText
  | Boolean => BooleanField_formatEditorText self storedText
  | RegularExpression => RegularExpressionField_formatEditorText self storedText
  end.

(** *** storedText *)

Definition TextField_storedText (self : Field) (editorText : string)
  : result string :=
  Ok editorText.

Definition SpacedTextField_storedText (self : Field) (editorText : string)
  : result string :=
  Ok (Sax.escape editorText).

Definition NumberField_storedText (self : Field) (editorText : string)
  : result string :=
  if negb (Str.truthy editorText) then Ok EmptyString
  else orValueError (GenNumber_setFromStr editorText (format self)).

Definition ChoiceField_storedText (self : Field) (editorText : string)
  : result string :=
  let editorText :=
    if negb (evalHtml self) then Sax.escape editorText else editorText in
  if negb (Str.truthy editorText) || bool_decide (editorText ∈ choices self)
  then Ok editorText
  else Raise ValueError.

Definition CombinationField_storedText (self : Field) (editorText : string)
  : result string :=
  let editorText :=
    if negb (evalHtml self) then Sax.escape editorText else editorText in
  let '(selections, valid) := CombinationField_sortedSelections self editorText in
  if negb valid then Raise ValueError
  else Ok (CombinationField_joinText selections).

Definition BooleanField_storedText (self : Field) (editorText : string)
  : result string :=
  if negb (Str.truthy editorText) then Ok EmptyString
  else
    except_ValueError
      (orValueError (GenBoolean_setFromStr editorText (format self)))
      (orValueError (GenBoolean_repr editorText)).

Definition RegularExpressionField_storedText (self : Field)
    (editorText : string) : result string :=
  match_ ←! py_re_match (format self) editorText;
  if negb (Str.truthy editorText) || bool_decide (is_Some match_) then
    if evalHtml self then Ok editorText
    else Ok (Sax.escape editorText)
  else Raise ValueError.

Definition storedText (self : Field) (editorText : string) : result string :=
  match typeName self with
  | Text | HtmlText | OneLineText => TextField_storedText self editorText
  | SpacedText => SpacedTextField_storedText self editorText
  | Number => NumberField_storedText self editorText
  | Choice => ChoiceField_storedText self editorText
  | Combination => CombinationField_storedText self editorText
  | Boolean => BooleanField_storedText self editorText
  | RegularExpression => RegularExpressionField_storedText self editorText
  end.

(** *** storedTextFromTitle

    [self.storedText] is the method of the object's own class. *)

Definition TextField_storedTextFromTitle (self : Field) (titleText : string)
  : result string :=
  storedText self (Sax.escape titleText).

Definition HtmlTextField_storedTextFromTitle (self : Field) (titleText : string)
  : result string :=
  storedText self titleText.

Definition SpacedTextField_storedTextFromTitle (self : Field)
    (titleText : string) : result string :=
  storedText self titleText.

Definition storedTextFromTitle (self : Field) (titleText : string)
  : result string :=
  match typeName self with
  | Text | OneLineText => TextField_storedTextFromTitle self titleText
  | SpacedText => SpacedTextField_storedTextFromTitle self titleText
  | HtmlText | Number | Choice | Combination | Boolean | RegularExpression =>
      HtmlTextField_storedTextFromTitle self titleText
  end.

(** *** compareValue and sortKey

    [nodeData] is [node.data]; [nodeData.get(name, '')] is
    [default "" (nodeData !! name)]. *)

Inductive value : Type :=
| VText (s : string)
| VNum (n : number)
| VBool (b : bool).

Definition data_get (nodeData : gmap string string) (key : string) : string :=
  default EmptyString (nodeData !! key).

Definition TextField_compareValue (self : Field) (nodeData : gmap string string)
  : value :=
  let storedText := data_get nodeData (name self) in
  let storedText := removeMarkup storedText in
  VText (Str.lower storedText).

Definition NumberField_compareValue (self : Field) (nodeData : gmap string string)
  : value :=
  let storedText := data_get nodeData (name self) in
  match GenNumber_num storedText with
  | Some n => VNum n
  | None => VNum number_zero
  end.

Definition BooleanField_compareValue (self : Field) (nodeData : gmap string string)
  : value :=
  let storedText := data_get nodeData (name self) in
  match GenBoolean_value storedText with
  | Some b => VBool b
  | None => VBool false
  end.

Definition compareValue (self : Field) (nodeData : gmap string string) : value :=
  match typeName self with
  | Number => NumberField_compareValue self nodeData
  | Boolean => BooleanField_compareValue self nodeData
  | _ => TextField_compareValue self nodeData
  end.

Definition TextField_sortKey (self : Field) (nodeData : gmap string string)
  : string * value :=
  ("80_text", compareValue self nodeData).

Definition NumberField_sortKey (self : Field) (nodeData : gmap string string)
  : string * value :=
  ("20_num", compareValue self nodeData).

Definition BooleanField_sortKey (self : Field) (nodeData : gmap string string)
  : string * value :=
  ("30_bool", compareValue self nodeData).

Definition sortKey (self : Field) (nodeData : gmap string string)
  : string * value :=
  match typeName self with
  | Number => NumberField_sortKey self nodeData
  | Boolean => BooleanField_sortKey self nodeData
  | _ => TextField_sortKey self nodeData
  end.

(** Python's [<] on two sort keys (tuples): the first components decide
    unless they are equal; [value_lt] is [<] on the second components. *)
Definition sortKey_lt (value_lt : value → value → bool)
    (k1 k2 : string * value) : bool :=
  if bool_decide (k1.1 = k2.1) then value_lt k1.2 k2.2
  else String.ltb k1.1 k2.1.

(** *** changeType *)

Definition changeType (self : Field) (newType : FieldType) : result Field :=
  let self := set_class self newType in
  self ←! setFormat self (defaultFormat (typeName self));
  if fixEvalHtmlSetting (typeName self)
  then Ok (set_evalHtml self (evalHtmlDefault (typeName self)))
  else Ok self.

End WithServices.

(** ** nodeformat.py *)

(** [re.escape(text)]: a backslash before each of the characters
    [()[]{}?*+-|^$\.&~#], the space and the other white space
    characters, as Python 3.7 and later write it.  Earlier versions put a
    backslash before every character that is not a letter, a digit or [_],
    which stands for the same characters in a pattern. *)
Definition re_special (c : ascii) : bool :=
  let n := nat_of_ascii c in
  bool_decide (n ∈ [40; 41; 91; 93; 123; 125; 63; 42; 43; 45; 124; 94; 36;
                    92; 46; 38; 126; 35; 32; 9; 10; 13; 11; 12]).

Fixpoint re_escape (text : string) : string :=
  match text with
  | EmptyString => EmptyString
  | String c text' =>
      if re_special c then String "\"%char (String c (re_escape text'))
      else String c (re_escape text')
  end.

(** A part of a parsed title or output line: a field object or plain
    text ([hasattr(seg, 'name')] tells them apart). *)
Inductive Segment : Type :=
| SegField (field : Field)
| SegText (text : string).

Record NodeFormat : Type := mkNodeFormat {
  formatName : string;
  fieldDict : list (string * Field);
  titleLine : list Segment;
  outputLines : list (list Segment);
  spaceBetween : bool;
  formatHtml : bool;
  childType : string;
  iconName : string
}.

(** [_fieldSplitRe] and [_fieldPartRe]: a placeholder is [{*], a modifier
    (any number of [*], or one of [?], [!], [&], [#]), a name of one or more
    word characters, [-] or [.], and [*}].  [placeholder_at s] answers the
    modifier, the name and the length of the placeholder that starts [s].
    Neither a name character nor a modifier can stand for another part, so
    the expression has one way to match. *)
Definition is_name_char (c : ascii) : bool :=
  let n := nat_of_ascii c in
  ((48 <=? n) && (n <=? 57)) || ((65 <=? n) && (n <=? 90))
  || ((97 <=? n) && (n <=? 122)) || bool_decide (n ∈ [95; 45; 46]).

Fixpoint take_stars (s : string) : string * string :=
  match s with
  | String c s' =>
      if Ascii.eqb c "*" then let '(m, r) := take_stars s' in (String c m, r)
      else (EmptyString, s)
  | EmptyString => (EmptyString, s)
  end.

Fixpoint take_name (s : string) : string * string :=
  match s with
  | String c s' =>
      if is_name_char c then let '(m, r) := take_name s' in (String c m, r)
      else (EmptyString, s)
  | EmptyString => (EmptyString, s)
  end.

Definition placeholder_at (s : string) : option (string * string * nat) :=
  match s with
  | String "{" (String "*" s1) =>
      let '(modifier, s2) :=
        match take_stars s1 with
        | (EmptyString, _) =>
            match s1 with
            | String c s2 =>
                if bool_decide (nat_of_ascii c ∈ [63; 33; 38; 35])
                then (String c EmptyString, s2)
                else (EmptyString, s1)
            | EmptyString => (EmptyString, s1)
            end
        | stars => stars
        end in
      match take_name s2 with
      | (EmptyString, _) => None
      | (fieldName, String "*" (String "}" _)) =>
          Some (modifier, fieldName,
                4 + String.length modifier + String.length fieldName)
      | _ => None
      end
  | _ => None
  end.

(** [s[:n]] *)
Fixpoint str_take (n : nat) (s : string) : string :=
  match n, s with
  | S n', String c s' => String c (str_take n' s')
  | _, _ => EmptyString
  end.

(** [_fieldSplitRe.split(text)]: the text before the first placeholder,
    then alternately a placeholder and the text after it. *)
Fixpoint fieldSplit_go (skip : nat) (text : string) : string * list string :=
  match text with
  | EmptyString => (EmptyString, [])
  | String c text' =>
      match skip with
      | S k => fieldSplit_go k text'
      | O =>
          match placeholder_at text with
          | Some (_, _, n) =>
              (EmptyString,
               str_take n text ::
               (let '(p, ps) := fieldSplit_go (n - 1) text' in p :: ps))
          | None => let '(p, ps) := fieldSplit_go 0 text' in (String c p, ps)
          end
      end
  end.

Definition fieldSplit (text : string) : list string :=
  let '(p, ps) := fieldSplit_go 0 text in p :: ps.

(** [fieldDict[fieldName]], [None] standing for [KeyError] *)
Fixpoint fieldDict_get (fieldDict : list (string * Field)) (fieldName : string)
  : option Field :=
  match fieldDict with
  | [] => None
  | (k, field) :: fieldDict' =>
      if bool_decide (k = fieldName) then Some field
      else fieldDict_get fieldDict' fieldName
  end.

Definition parseField (fieldDict : list (string * Field)) (text : string)
  : Segment :=
  match placeholder_at text with
  | Some (modifier, fieldName, _) =>
      if negb (Str.truthy modifier) then
        match fieldDict_get fieldDict fieldName with
        | Some field => SegField field
        | None => SegText text
        end
      else SegText text
  | None => SegText text
  end.

Definition parseLine (fieldDict : list (string * Field)) (text : string)
  : list Segment :=
  let text := Str.join " " (Str.words text) in
  let segments := filter (λ part, Str.truthy part = true) (fieldSplit text) in
  parseField fieldDict <$> segments.

(** [changeTitleLine(text)] *)
Definition changeTitleLine (self : NodeFormat) (text : string) : NodeFormat :=
  let titleLine := parseLine (fieldDict self) text in
  let titleLine := match titleLine with [] => [SegText EmptyString] | _ => titleLine end in
  mkNodeFormat (formatName self) (fieldDict self) titleLine (outputLines self)
    (spaceBetween self) (formatHtml self) (childType self) (iconName self).

(** The first loop of [extractTitleData]: one step per segment, on the
    triple [(fields, pattern, extraText)]. *)
Definition titleScan_step (acc : list Field * string * string) (seg : Segment)
  : list Field * string * string :=
  let '(fields, pattern, extraText) := acc in
  match seg with
  | SegField field => (fields ++ [field], pattern +:+ "(.*)", extraText)
  | SegText text => (fields, pattern +:+ re_escape text, extraText +:+ text)
  end.

Definition titleScan (segs : list Segment) : list Field * string * string :=
  foldl titleScan_step ([], EmptyString, EmptyString) segs.

Section ExtractTitleData.

Context {RE : ReEngine} {LIT : Literals}.

(** [for num, field in enumerate(fields):
       data[field.name] = field.storedTextFromTitle(match.group(num + 1))]
    from index [num] on; the dictionary is returned as the loop left it,
    also when an exception ends the loop. *)
Fixpoint assignGroups (groups : list string) (num : nat) (fields : list Field)
    (data : gmap string string) : result unit * gmap string string :=
  match fields with
  | [] => (Ok tt, data)
  | field :: fields' =>
      match groups !! (num + 1) with
      | None => (Raise IndexError, data)
      | Some text =>
          match storedTextFromTitle field text with
          | Ok stored =>
              assignGroups groups (S num) fields' (<[name field := stored]> data)
          | Raise e => (Raise e, data)
          end
      end
  end.

(** [for field in fields[1:]: data[field.name] = ''] *)
Definition clearFields (fields : list Field) (data : gmap string string)
  : gmap string string :=
  foldl (λ data field, <[name field := EmptyString]> data) data fields.

(** The body of the [try] statement: [Ok true] when it runs to its end
    (the function then returns [True]), [Ok false] for its own
    [return False]. *)
Definition extractTitleData_try (fields : list Field) (extraText : string)
    (match_ : option (list string)) (titleString : string)
    (data : gmap string string) : result bool * gmap string string :=
  match match_ with
  | Some groups =>
      let '(r, data) := assignGroups groups 0 fields data in
      ((_ ←! r; Ok true), data)
  | None =>
      if negb (Str.truthy (Str.strip extraText)) then
        match fields with
        | [] => (Raise IndexError, data)
        | field0 :: fields' =>
            match storedTextFromTitle field0 titleString with
            | Ok text =>
                (Ok true, clearFields fields' (<[name field0 := text]> data))
            | Raise e => (Raise e, data)
            end
        end
      else (Ok false, data)
  end.

(** [extractTitleData(self, titleString, data)]: the value returned (or
    the exception that leaves the function) and the dictionary [data] as
    the call leaves it. *)
Definition extractTitleData (self : NodeFormat) (titleString : string)
    (data : gmap string string) : result bool * gmap string string :=
  let '(fields, pattern, extraText) := titleScan (titleLine self) in
  match py_re_match pattern titleString with
  | Raise e => (Raise e, data)
  | Ok match_ =>
      let '(r, data) :=
        extractTitleData_try fields extraText match_ titleString data in
      (except_ValueError r (Ok false), data)
  end.

End ExtractTitleData.

(** ** A regular expression engine for closed examples

    The fragment of Python's pattern language made of ordinary characters,
    escaped characters, [.], a starred character or [.], and capturing
    groups of these that are not nested: the patterns [extractTitleData]
    builds, and formats such as [ab.*].  Matching backtracks as [re] does,
    a star trying its longest repetition first.  A pattern outside the
    fragment is answered as one that does not compile. *)

Module Fragment.

Inductive atom : Type :=
| AChar (c : ascii)
| AAny.                     (* [.]: any character but the line feed *)

Inductive piece : Type :=
| POne (a : atom)
| PStar (a : atom).

Inductive item : Type :=
| IPiece (p : piece)
| IGroup (ps : list piece).

Inductive token : Type :=
| TAtom (a : atom)
| TStar
| TOpen
| TClose.

Definition is_alnum (c : ascii) : bool :=
  let n := nat_of_ascii c in
  ((48 <=? n) && (n <=? 57)) || ((65 <=? n) && (n <=? 90))
  || ((97 <=? n) && (n <=? 122)).

(** Characters with a meaning that the fragment leaves out. *)
Definition unsupported (c : ascii) : bool :=
  let n := nat_of_ascii c in
  bool_decide (n ∈ [43; 63; 91; 93; 123; 125; 124; 94; 36]).

Fixpoint lex (escaped : bool) (s : string) : option (list token) :=
  match s with
  | EmptyString => if escaped then None else Some []
  | String c s' =>
      if escaped then
        if is_alnum c then None
        else cons (TAtom (AChar c)) <$> lex false s'
      else if Ascii.eqb c "\" then lex true s'
      else if Ascii.eqb c "." then cons (TAtom AAny) <$> lex false s'
      else if Ascii.eqb c "*" then cons TStar <$> lex false s'
      else if Ascii.eqb c "(" then cons TOpen <$> lex false s'
      else if Ascii.eqb c ")" then cons TClose <$> lex false s'
      else if unsupported c then None
      else cons (TAtom (AChar c)) <$> lex false s'
  end.

(** [group] holds the pieces of the group being read, if any. *)
Fixpoint parse (group : option (list piece)) (ts : list token)
  : option (list item) :=
  let emit (p : piece) (rest : option (list piece) → option (list item)) :=
    match group with
    | None => cons (IPiece p) <$> rest None
    | Some ps => rest (Some (ps ++ [p]))
    end in
  match ts with
  | [] => match group with None => Some [] | Some _ => None end
  | TOpen :: ts' =>
      match group with None => parse (Some []) ts' | Some _ => None end
  | TClose :: ts' =>
      match group with
      | Some ps => cons (IGroup ps) <$> parse None ts'
      | None => None
      end
  | TStar :: _ => None
  | TAtom a :: ts' =>
      match ts' with
      | TStar :: ts'' => emit (PStar a) (λ g, parse g ts'')
      | _ => emit (POne a) (λ g, parse g ts')
      end
  end.

Definition compile (pattern : string) : option (list item) :=
  ts ← lex false pattern; parse None ts.

Definition atom_matches (a : atom) (c : ascii) : bool :=
  match a with
  | AChar x => Ascii.eqb x c
  | AAny => negb (Ascii.eqb c "010")
  end.

(** The continuation [k] receives the text matched and the text left;
    it answers [None] to ask for the next alternative. *)
Fixpoint match_star {R : Type} (a : atom) (s : string)
    (k : string → string → option R) : option R :=
  match s with
  | String c s' =>
      if atom_matches a c then
        match match_star a s' (λ m rest, k (String c m) rest) with
        | Some r => Some r
        | None => k EmptyString s
        end
      else k EmptyString s
  | EmptyString => k EmptyString s
  end.

Definition match_piece {R : Type} (p : piece) (s : string)
    (k : string → string → option R) : option R :=
  match p with
  | POne a =>
      match s with
      | String c s' => if atom_matches a c then k (String c EmptyString) s' else None
      | EmptyString => None
      end
  | PStar a => match_star a s k
  end.

Fixpoint match_pieces {R : Type} (ps : list piece) (s : string)
    (k : string → string → option R) : option R :=
  match ps with
  | [] => k EmptyString s
  | p :: ps' =>
      match_piece p s (λ m1 rest1,
        match_pieces ps' rest1 (λ m2 rest2, k (m1 +:+ m2) rest2))
  end.

(** [k] receives the text matched, the groups and the text left. *)
Fixpoint match_items {R : Type} (its : list item) (s : string)
    (k : string → list string → string → option R) : option R :=
  match its with
  | [] => k EmptyString [] s
  | IPiece p :: its' =>
      match_piece p s (λ m1 rest1,
        match_items its' rest1 (λ m2 gs rest2, k (m1 +:+ m2) gs rest2))
  | IGroup ps :: its' =>
      match_pieces ps s (λ m1 rest1,
        match_items its' rest1 (λ m2 gs rest2, k (m1 +:+ m2) (m1 :: gs) rest2))
  end.

Definition match_at_0 (pattern text : string) : option (list string) :=
  its ← compile pattern;
  match_items its text (λ m gs _, Some (m :: gs)).

Definition engine : ReEngine :=
  {| re_compiles := λ pattern, bool_decide (is_Some (compile pattern));
     re_match := match_at_0 |}.

End Fragment.

(** A literal service that accepts no text at all; it closes examples
    about fields that never consult the literal services. *)
Definition no_literals : Literals :=
  {| number := unit;
     number_zero := tt;
     GenNumber_num := λ _, None;
     GenNumber_numStr := λ _ _, None;
     GenNumber_setFromStr := λ _ _, None;
     GenBoolean_value := λ _, None;
     GenBoolean_boolStr := λ _ _, None;
     GenBoolean_setFromStr := λ _ _, None;
     GenBoolean_repr := λ _, None |}.

(** ** Notions used in the statements *)

(** The entity (or the character itself) that [escape] writes for [c]. *)
Definition escape_char (c : ascii) : string :=
  if Ascii.eqb "&" c then "&amp;"
  else if Ascii.eqb ">" c then "&gt;"
  else if Ascii.eqb "<" c then "&lt;"
  else String c "".

(** What [splitText] keeps of one piece of the split text: the piece
    stripped, its placeholders turned back into the separator. *)
Definition splitText_item (text : string) : string :=
  Str.replace nul editSep (Str.strip text).

(** The pieces [splitText] loops over. *)
Definition splitText_pieces (textStr : string) : list string :=
  Str.split editSep (Str.replace (Str.twice editSep) nul textStr).

(** The invariant of the class [RegularExpressionField]: its format was
    accepted by [setFormat], so it compiles. *)
Definition field_ok {RE : ReEngine} (self : Field) : Prop :=
  typeName self = RegularExpression → re_compiles (format self) = true.

(** The variants whose [storedText] and [formatEditorText] validate. *)
Definition validating (t : FieldType) : Prop :=
  t ∈ [Number; Boolean; Choice; Combination; RegularExpression].

(** The variants that sort as text. *)
Definition textLike (t : FieldType) : Prop :=
  t ∉ [Number; Boolean].

Definition typeRank (t : FieldType) : string :=
  match t with
  | Number => "20_num"
  | Boolean => "30_bool"
  | _ => "80_text"
  end.

(** The prefix and the suffix as [TextField.formatOutput] writes them. *)
Definition outputAffix (affix : string) (titleMode formatHtml : bool) : string :=
  if titleMode then (if formatHtml then removeMarkup affix else affix)
  else if formatHtml then affix else Sax.escape affix.

(** Stored text that does not conform to its field. *)
Definition nonconforming {RE : ReEngine} {LIT : Literals}
    (self : Field) (storedText : string) : Prop :=
  match typeName self with
  | Number => GenNumber_numStr storedText (format self) = None
  | Boolean => GenBoolean_boolStr storedText (format self) = None
  | Choice => storedText ∉ choices self
  | Combination => (CombinationField_sortedSelections self storedText).2 = false
  | RegularExpression =>
      storedText ≠ "" ∧ re_match (format self) (Sax.unescape storedText) = None
  | _ => False
  end.

(** The parts of a title line as [extractTitleData] reads them. *)
Definition segFields (segs : list Segment) : list Field :=
  omap (λ seg, match seg with SegField field => Some field | SegText _ => None end)
    segs.

Definition segPattern (seg : Segment) : string :=
  match seg with
  | SegField _ => "(.*)"
  | SegText text => re_escape text
  end.

Definition segText (seg : Segment) : string :=
  match seg with
  | SegField _ => ""
  | SegText text => text
  end.

(** The pattern [extractTitleData] builds for a node format. *)
Definition titlePattern (self : NodeFormat) : string :=
  (titleScan (titleLine self)).1.2.

(** The literal text [extractTitleData] collects for a node format. *)
Definition titleExtraText (self : NodeFormat) : string :=
  (titleScan (titleLine self)).2.

(** Text that is white space only: [not text.strip()]. *)
Definition whitespace_only (text : string) : Prop := Str.strip text = "".

Fixpoint all_space (s : string) : bool :=
  match s with
  | EmptyString => true
  | String c s' => Str.isspace c && all_space s'
  end.

(** The dictionary after the writes [data[field.name] = stored], one for
    each field with the conversion [(text, stored)] of its group. *)
Definition writeAll (fields : list Field) (conversions : list (string * string))
    (data : gmap string string) : gmap string string :=
  foldl (λ data fc, <[name fc.1 := fc.2.2]> data) data (zip fields conversions).

(** The text up to the first line break marker: what a OneLineText field
    shows of a stored text. *)
Definition firstLine (text : string) : string :=
  first_piece (Str.split_max "<br />" 1 text).

(** The variants whose [formatEditorText] undoes their [storedText]
    exactly. *)
Definition exactRoundTrip (t : FieldType) : Prop :=
  t ∈ [Text; HtmlText; SpacedText; Choice; RegularExpression].

(** The tokens of the pattern of a title line. *)
Fixpoint literalTokens (text : string) : list Fragment.token :=
  match text with
  | EmptyString => []
  | String c text' => Fragment.TAtom (Fragment.AChar c) :: literalTokens text'
  end.

Definition segTokens (seg : Segment) : list Fragment.token :=
  match seg with
  | SegField _ =>
      [Fragment.TOpen; Fragment.TAtom Fragment.AAny; Fragment.TStar; Fragment.TClose]
  | SegText text => literalTokens text
  end.

Definition segItems (seg : Segment) : list Fragment.item :=
  match seg with
  | SegField _ => [Fragment.IGroup [Fragment.PStar Fragment.AAny]]
  | SegText text =>
      (λ c, Fragment.IPiece (Fragment.POne (Fragment.AChar c)))
        <$> list_ascii_of_string text
  end.

(** What it means for a title line to match a text, said without the
    engine: each field takes a run of characters without a line feed, each
    literal its own text.  [TitleMatch segs m groups]: the title line [segs]
    matches the text [m], the fields taking [groups]. *)
Fixpoint no_newline (s : string) : bool :=
  match s with
  | EmptyString => true
  | String c s' => negb (Ascii.eqb c "010") && no_newline s'
  end.

Inductive TitleMatch : list Segment → string → list string → Prop :=
| TitleMatch_nil : TitleMatch [] "" []
| TitleMatch_field field segs g m groups :
    no_newline g = true → TitleMatch segs m groups →
    TitleMatch (SegField field :: segs) (g +:+ m) (g :: groups)
| TitleMatch_text text segs m groups :
    TitleMatch segs m groups →
    TitleMatch (SegText text :: segs) (text +:+ m) groups.

(** Example fields and node formats. *)
Module Examples.

Definition nameField : Field := TextField_init "Name".
Definition tagField : Field := TextField_init "Tag".
Definition lineField : Field := set_class (TextField_init "Line") OneLineText.
Definition sizeField : Field :=
  set_format (set_class (TextField_init "Size") Number) "#.##".
Definition kindField : Field :=
  ChoiceField_setFormat (set_class (TextField_init "Kind") Choice) "1/2/3/4".
Definition doneField : Field :=
  ChoiceField_setFormat (set_class (TextField_init "Done") Boolean) "yes/no".
Definition gradeField : Field :=
  set_prefix_suffix
    (ChoiceField_setFormat (set_class (TextField_init "Grade") Choice) "A/B/C")
    "<" ">".
Definition codeField (format' : string) : Field :=
  set_format (set_class (TextField_init "Code") RegularExpression) format'.
Definition tagsField : Field :=
  CombinationField_setFormat (set_class (TextField_init "Tags") Combination)
    "red/green/blue".
Definition pathsField : Field :=
  CombinationField_setFormat (set_class (TextField_init "Paths") Combination)
    "a/ //b".

Definition fieldDict : list (string * Field) :=
  [("Name", nameField); ("Tag", tagField); ("Kind", kindField);
   ("Code", codeField "ab.*")].

Definition blank : NodeFormat :=
  mkNodeFormat "DEFAULT" fieldDict [SegText ""] [] true false "" "".

(** The node formats with these title lines. *)
Definition nameKind : NodeFormat := changeTitleLine blank "{*Name*}: {*Kind*}".
Definition nameDraft : NodeFormat := changeTitleLine blank "{*Name*} (draft)".
Definition nameTag : NodeFormat := changeTitleLine blank "{*Name*} {*Tag*}".
Definition kindTag : NodeFormat := changeTitleLine blank "{*Kind*} {*Tag*}".
Definition nameCode : NodeFormat := changeTitleLine blank "{*Name*}: {*Code*}".

End Examples.


(** * The other methods

    ** Outcomes

    The methods below can also fail by an attribute or a name that does
    not exist, or by a missing key. *)

Inductive error : Type :=
| Exn (e : exn)
| AttributeError
| NameError
| KeyError.

Inductive outcome (A : Type) : Type :=
| Returns (a : A)
| Raises (e : error).

Arguments Returns {A} a.
Arguments Raises {A} e.

Definition obind {A B : Type} (o : outcome A) (k : A → outcome B) : outcome B :=
  match o with
  | Returns a => k a
  | Raises e => Raises e
  end.

Notation "x ←? o ; k" := (obind o (λ x, k))
  (at level 20, o at level 100, k at level 200, right associativity,
   format "x  ←?  o ;  '/' k").

(** A result of the methods above, as an outcome. *)
Definition lift {A : Type} (r : result A) : outcome A :=
  match r with
  | Ok a => Returns a
  | Raise e => Raises (Exn e)
  end.

(** [obj.attr] for an attribute that the object may not have *)
Definition getattr {A : Type} (attr : option A) : outcome A :=
  match attr with
  | Some a => Returns a
  | None => Raises AttributeError
  end.

(** [[f(x) for x in l]], the calls made from left to right *)
Fixpoint mapM {A B : Type} (f : A → outcome B) (l : list A) : outcome (list B) :=
  match l with
  | [] => Returns []
  | x :: l' => y ←? f x; ys ←? mapM f l'; Returns (y :: ys)
  end.

(** ** fieldformat.py: output, editor and default values

    The [node] argument of the field methods, as far as they use it:
    [node.data], [node.modelRef.fileInfoNode.data] and
    [node.nodeFormat().outputSeparator], the last two being [None] for a
    node that has no such attribute. *)
Record NodeView : Type := mkNodeView {
  view_data : gmap string string;
  view_fileInfoData : option (gmap string string);
  view_outputSeparator : option string
}.

Definition set_initDefault (self : Field) (v : string) : Field :=
  mkField (typeName self) (name self) (format self) (prefix self) (suffix self)
    v (numLines self) (sortKeyNum self) (sortKeyForward self)
    (evalHtml self) (useFileInfo self) (showInDialog self) (choiceList self)
    (choices self) (outputSep self).

(** [sepName] *)
Definition sepName (self : Field) : string :=
  if useFileInfo self then "{*!" +:+ name self +:+ "*}"
  else "{*" +:+ name self +:+ "*}".

(** [initDefaultChoices]: [ChoiceField] answers its choice list,
    [CombinationField] and the text classes answer the empty list. *)
Definition initDefaultChoices (self : Field) : list string :=
  match typeName self with
  | Choice | Boolean => choiceList self
  | _ => []
  end.

(** [ChoiceField.comboChoices], also the method of [BooleanField] *)
Definition ChoiceField_comboChoices (self : Field) : list string :=
  choiceList self.

Definition CombinationField_comboChoices (self : Field) : list string :=
  if evalHtml self then choiceList self
  else Sax.unescape <$> choiceList self.

Definition CombinationField_comboActiveChoices (self : Field) (editorText : string)
  : list string :=
  let '(selections, valid) :=
    CombinationField_sortedSelections self (Sax.escape editorText) in
  if evalHtml self then selections
  else Sax.unescape <$> selections.

(** [GenBoolean().setFromStr(text, format).value], the one call to the
    boolean literals that the methods above do not make. *)
Class BooleanParse : Type := {
  GenBoolean_setFromStr_value : string → string → option bool
}.

Section OtherFieldMethods.

Context {RE : ReEngine} {LIT : Literals} {BP : BooleanParse}.

(** *** outputText *)

Definition TextField_outputText (self : Field) (node : NodeView)
    (titleMode formatHtml : bool) : outcome string :=
  nodeData ←? (if useFileInfo self then getattr (view_fileInfoData node)
               else Returns (view_data node));
  let storedText := data_get nodeData (name self) in
  if Str.truthy storedText
  then lift (formatOutput self storedText titleMode formatHtml)
  else Returns EmptyString.

(** [self.outputSep] is set on the field before the method of the base
    classes runs; the field keeps it afterwards. *)
Definition CombinationField_outputText (self : Field) (node : NodeView)
    (titleMode formatHtml : bool) : outcome string :=
  outputSeparator ←? getattr (view_outputSeparator node);
  let self := set_outputSep self outputSeparator in
  TextField_outputText self node titleMode formatHtml.

Definition outputText (self : Field) (node : NodeView)
    (titleMode formatHtml : bool) : outcome string :=
  match typeName self with
  | Combination => CombinationField_outputText self node titleMode formatHtml
  | _ => TextField_outputText self node titleMode formatHtml
  end.

(** *** editorText and the initial default *)

Definition editorText (self : Field) (node : NodeView) : result string :=
  let storedText := data_get (view_data node) (name self) in
  formatEditorText self storedText.

Definition getInitDefault (self : Field) : string := initDefault self.

Definition setInitDefault (self : Field) (editorText : string) : result Field :=
  stored ←! storedText self editorText;
  Ok (set_initDefault self stored).

Definition getEditorInitDefault (self : Field) : result string :=
  formatEditorText self (initDefault self).

(** *** mathValue

    [None] is Python's [None]. *)

Definition TextField_mathValue (self : Field) (node : NodeView) (zeroBlanks : bool)
  : result (option value) :=
  let storedText := data_get (view_data node) (name self) in
  let storedText := removeMarkup storedText in
  if Str.truthy storedText || zeroBlanks then Ok (Some (VText storedText))
  else Ok None.

Definition NumberField_mathValue (self : Field) (node : NodeView) (zeroBlanks : bool)
  : result (option value) :=
  let storedText := data_get (view_data node) (name self) in
  if Str.truthy storedText then
    n ←! orValueError (GenNumber_num storedText); Ok (Some (VNum n))
  else if zeroBlanks then Ok (Some (VNum number_zero)) else Ok None.

Definition BooleanField_mathValue (self : Field) (node : NodeView) (zeroBlanks : bool)
  : result (option value) :=
  let storedText := data_get (view_data node) (name self) in
  if Str.truthy storedText then
    b ←! orValueError (GenBoolean_value storedText); Ok (Some (VBool b))
  else if zeroBlanks then Ok (Some (VBool false)) else Ok None.

Definition mathValue (self : Field) (node : NodeView) (zeroBlanks : bool)
  : result (option value) :=
  match typeName self with
  | Number => NumberField_mathValue self node zeroBlanks
  | Boolean => BooleanField_mathValue self node zeroBlanks
  | _ => TextField_mathValue self node zeroBlanks
  end.

(** *** adjustedCompareValue *)

Definition TextField_adjustedCompareValue (self : Field) (value' : string) : value :=
  let value' := removeMarkup value' in
  VText (Str.lower value').

Definition NumberField_adjustedCompareValue (self : Field) (value' : string) : value :=
  match GenNumber_num value' with
  | Some n => VNum n
  | None => VNum number_zero
  end.

Definition BooleanField_adjustedCompareValue (self : Field) (value' : string) : value :=
  match GenBoolean_setFromStr_value value' (format self) with
  | Some b => VBool b
  | None =>
      match GenBoolean_value value' with
      | Some b => VBool b
      | None => VBool false
      end
  end.

Definition adjustedCompareValue (self : Field) (value' : string) : value :=
  match typeName self with
  | Number => NumberField_adjustedCompareValue self value'
  | Boolean => BooleanField_adjustedCompareValue self value'
  | _ => TextField_adjustedCompareValue self value'
  end.

End OtherFieldMethods.

(** ** fieldformat.py: construction from and conversion to format data

    The dictionary of a field's format settings; [None] is a key that is
    not there. *)
Record FieldData : Type := mkFieldData {
  key_fieldname : option string;
  key_fieldtype : option string;
  key_format : option string;
  key_prefix : option string;
  key_suffix : option string;
  key_init : option string;
  key_lines : option nat;
  key_sortkeynum : option nat;
  key_sortkeyfwd : option bool;
  key_evalhtml : option bool
}.

(** [{}] *)
Definition noFieldData : FieldData :=
  mkFieldData None None None None None None None None None None.

(** The class attribute [typeName] *)
Definition typeNameStr (t : FieldType) : string :=
  match t with
  | Text => "Text"
  | HtmlText => "HtmlText"
  | OneLineText => "OneLineText"
  | SpacedText => "SpacedText"
  | Number => "Number"
  | Boolean => "Boolean"
  | Choice => "Choice"
  | Combination => "Combination"
  | RegularExpression => "RegularExpression"
  end.

Definition defaultNumLines : nat := 1.

(** [if cond: formatData[key] = value] *)
Definition entry {A : Type} (cond : bool) (v : A) : option A :=
  if cond then Some v else None.

Definition formatData (self : Field) : FieldData :=
  let t := typeName self in
  mkFieldData (Some (name self)) (Some (typeNameStr t))
    (entry (Str.truthy (format self)) (format self))
    (entry (Str.truthy (prefix self)) (prefix self))
    (entry (Str.truthy (suffix self)) (suffix self))
    (entry (Str.truthy (initDefault self)) (initDefault self))
    (entry (negb (numLines self =? defaultNumLines)) (numLines self))
    (entry (0 <? sortKeyNum self) (sortKeyNum self))
    (entry (negb (sortKeyForward self)) false)
    (entry (negb (fixEvalHtmlSetting t)
            && negb (eqb (evalHtml self) (evalHtmlDefault t)))
       (evalHtml self)).

Section Construction.

Context {RE : ReEngine} {LIT : Literals}.

(** [__init__(self, name, formatData)] of the class [cls], which every
    class leaves to [TextField].  [setFormat] is called when [name] is the
    only attribute assigned: the method of [ChoiceField] and of
    [CombinationField] (and so of [BooleanField]) reads [self.evalHtml],
    which is assigned further down. *)
Definition Field_init (cls : FieldType) (name : string) (formatData : FieldData)
  : outcome Field :=
  let self :=
    mkField cls name EmptyString EmptyString EmptyString EmptyString 0 0
      true false false true [] ∅ EmptyString in
  let format' := default (defaultFormat cls) (key_format formatData) in
  self ←? match cls with
          | Choice | Combination | Boolean => Raises AttributeError
          | _ => lift (setFormat self format')
          end;
  let evalHtml :=
    if negb (fixEvalHtmlSetting cls)
    then default (evalHtmlDefault cls) (key_evalhtml formatData)
    else evalHtmlDefault cls in
  Returns
    (mkField cls name (format self)
       (default EmptyString (key_prefix formatData))
       (default EmptyString (key_suffix formatData))
       (default EmptyString (key_init formatData))
       (default defaultNumLines (key_lines formatData))
       (default 0 (key_sortkeynum formatData))
       (default true (key_sortkeyfwd formatData))
       evalHtml false true [] ∅ EmptyString).

End Construction.

(** ** nodeformat.py: the other methods *)

Definition set_fieldDict (self : NodeFormat) (v : list (string * Field)) : NodeFormat :=
  mkNodeFormat (formatName self) v (titleLine self) (outputLines self)
    (spaceBetween self) (formatHtml self) (childType self) (iconName self).

Definition set_titleLine (self : NodeFormat) (v : list Segment) : NodeFormat :=
  mkNodeFormat (formatName self) (fieldDict self) v (outputLines self)
    (spaceBetween self) (formatHtml self) (childType self) (iconName self).

Definition set_outputLines (self : NodeFormat) (v : list (list Segment)) : NodeFormat :=
  mkNodeFormat (formatName self) (fieldDict self) (titleLine self) v
    (spaceBetween self) (formatHtml self) (childType self) (iconName self).

(** [fieldDict[name] = field]: a key that is there keeps its place. *)
Fixpoint fieldDict_set (fieldDict : list (string * Field)) (name : string)
    (field : Field) : list (string * Field) :=
  match fieldDict with
  | [] => [(name, field)]
  | (k, old) :: fieldDict' =>
      if bool_decide (k = name) then (k, field) :: fieldDict'
      else (k, old) :: fieldDict_set fieldDict' name field
  end.

Definition fields (self : NodeFormat) : list Field := (fieldDict self).*2.

Definition fieldNames (self : NodeFormat) : list string := (fieldDict self).*1.

(** [part.sepName() if hasattr(part, 'sepName') else part] *)
Definition segName (part : Segment) : string :=
  match part with
  | SegField field => sepName field
  | SegText text => text
  end.

Definition lineText (line : list Segment) : string :=
  Str.concat (segName <$> line).

Definition getTitleLine (self : NodeFormat) : string :=
  lineText (titleLine self).

Definition getOutputLines (self : NodeFormat) : list string :=
  let lines := lineText <$> outputLines self in
  match lines with
  | [] => [EmptyString]
  | _ => lines
  end.

Definition updateLineParsing (self : NodeFormat) : NodeFormat :=
  let self := set_titleLine self (parseLine (fieldDict self) (getTitleLine self)) in
  set_outputLines self (parseLine (fieldDict self) <$> getOutputLines self).

Definition changeOutputLines (self : NodeFormat) (lines : list string)
    (keepBlanks : bool) : NodeFormat :=
  set_outputLines self
    (foldl (λ outputLines line,
              let newLine := parseLine (fieldDict self) line in
              if keepBlanks || bool_decide (newLine ≠ [])
              then outputLines ++ [newLine] else outputLines)
       [] lines).

Definition addOutputLine (self : NodeFormat) (line : string) : NodeFormat :=
  let newLine := parseLine (fieldDict self) line in
  if bool_decide (newLine ≠ [])
  then set_outputLines self (outputLines self ++ [newLine])
  else self.

(** [reorderFields]: a name that is no key raises [KeyError] and leaves
    the format as it was. *)
Fixpoint reorderFields_go (fieldDict newFieldDict : list (string * Field))
    (fieldNameList : list string) : outcome (list (string * Field)) :=
  match fieldNameList with
  | [] => Returns newFieldDict
  | fieldName :: fieldNameList' =>
      match fieldDict_get fieldDict fieldName with
      | Some field =>
          reorderFields_go fieldDict (fieldDict_set newFieldDict fieldName field)
            fieldNameList'
      | None => Raises KeyError
      end
  end.

Definition reorderFields (self : NodeFormat) (fieldNameList : list string)
  : outcome NodeFormat :=
  newFieldDict ←? reorderFields_go (fieldDict self) [] fieldNameList;
  Returns (set_fieldDict self newFieldDict).

(** [getattr(fieldformat, typeName, fieldformat.TextField)] *)
Definition fieldClass (typeName : string) : FieldType :=
  default Text
    (head (filter (λ t, typeNameStr t +:+ "Field" = typeName) fieldTypes)).

(** [_endTagRe] *)
Definition _endTagRe : string :=
  ".*(<br[ /]*?>|<BR[ /]*?>|<hr[ /]*?>|<HR[ /]*?>)$".

(** [for x in l: acc = f(acc, x)], the first exception ending the loop *)
Fixpoint foldM {A B : Type} (f : B → A → outcome B) (l : list A) (acc : B)
  : outcome B :=
  match l with
  | [] => Returns acc
  | x :: l' => acc ←? f acc x; foldM f l' acc
  end.

(** [result[-1] += text] *)
Fixpoint add_to_last (result : list string) (text : string) : list string :=
  match result with
  | [] => []
  | [line] => [line +:+ text]
  | line :: result' => line :: add_to_last result' text
  end.

Section OtherFormatMethods.

Context {RE : ReEngine} {LIT : Literals}.

Definition addField (self : NodeFormat) (name : string) (fieldData : FieldData)
  : outcome NodeFormat :=
  let typeName := default "Text" (key_fieldtype fieldData) +:+ "Field" in
  field ←? Field_init (fieldClass typeName) name fieldData;
  Returns (set_fieldDict self (fieldDict_set (fieldDict self) name field)).

Definition addFieldIfNew (self : NodeFormat) (name : string) (fieldData : FieldData)
  : outcome NodeFormat :=
  if bool_decide (name ∉ fieldNames self) then addField self name fieldData
  else Returns self.

Definition addFieldList (self : NodeFormat) (nameList : list string)
    (addFirstTitle addToOutput : bool) : outcome NodeFormat :=
  self ←? foldM (λ self name, addFieldIfNew self name noFieldData) nameList self;
  self ←? (if addFirstTitle then
             match nameList with
             | name0 :: _ =>
                 Returns (changeTitleLine self ("{*" +:+ name0 +:+ "*}"))
             | [] => Raises (Exn IndexError)
             end
           else Returns self);
  if addToOutput
  then Returns (changeOutputLines self
                  ((λ name, "{*" +:+ name +:+ "*}") <$> nameList) false)
  else Returns self.

(** [formatTitle(self, node)] *)
Definition titlePart (self : NodeFormat) (node : NodeView) (part : Segment)
  : outcome string :=
  match part with
  | SegField field => outputText field node true (formatHtml self)
  | SegText text => Returns text
  end.

Definition formatTitle (self : NodeFormat) (node : NodeView) : outcome string :=
  parts ←? mapM (titlePart self node) (titleLine self);
  let line := Str.concat parts in
  Returns (first_piece (Str.split_max (String "010" "") 1 (Str.strip line))).

(** [formatOutput(self, node, plainText, keepBlanks)].  The body of the
    inner loop works on [(line, numEmptyFields, numFullFields)]; for a
    text part with HTML off and [plainText] off it calls
    [xml.sax.saxutils.escape], and the module does not import [xml]. *)
Definition outputPart (self : NodeFormat) (node : NodeView) (plainText : bool)
    (acc : string * nat * nat) (part : Segment) : outcome (string * nat * nat) :=
  let '(line, numEmptyFields, numFullFields) := acc in
  match part with
  | SegField field =>
      text ←? outputText field node plainText (formatHtml self);
      if Str.truthy text
      then Returns (line +:+ text, numEmptyFields, numFullFields + 1)
      else Returns (line +:+ text, numEmptyFields + 1, numFullFields)
  | SegText part =>
      part ←? (if negb (formatHtml self) && negb plainText
               then Raises NameError
               else if formatHtml self && plainText
                 then Returns (removeMarkup part)
                 else Returns part);
      Returns (line +:+ part, numEmptyFields, numFullFields)
  end.

Definition outputLine (self : NodeFormat) (node : NodeView)
    (plainText keepBlanks : bool) (result : list string)
    (lineData : list Segment) : outcome (list string) :=
  acc ←? foldM (outputPart self node plainText) lineData (EmptyString, 0, 0);
  let '(line, numEmptyFields, numFullFields) := acc in
  if keepBlanks || (0 <? numFullFields) || (numEmptyFields =? 0)
  then Returns (result ++ [line])
  else if formatHtml self && negb plainText && bool_decide (result ≠ []) then
    endTagMatch ←? lift (py_re_match _endTagRe line);
    match endTagMatch with
    | Some groups =>
        match groups !! 1 with
        | Some text => Returns (add_to_last result text)
        | None => Raises (Exn IndexError)
        end
    | None => Returns result
    end
  else Returns result.

Definition NodeFormat_formatOutput (self : NodeFormat) (node : NodeView)
    (plainText keepBlanks : bool) : outcome (list string) :=
  foldM (outputLine self node plainText keepBlanks) (outputLines self) [].

End OtherFormatMethods.

(** ** treenode.py

    The node as its methods below use it: [spotRefs] and the methods
    about it belong with [treespot], which is outside the sources.
    [nodeDict] maps a uid to a node. *)
#[local] Unset Elimination Schemes.

Inductive TreeNode : Type :=
  mkTreeNode (formatRef : NodeFormat) (uId : string) (data : gmap string string)
    (tmpChildRefs : list string) (childList : list TreeNode).

#[local] Set Elimination Schemes.

Definition formatRef (self : TreeNode) : NodeFormat :=
  let 'mkTreeNode formatRef _ _ _ _ := self in formatRef.

Definition uId (self : TreeNode) : string :=
  let 'mkTreeNode _ uId _ _ _ := self in uId.

Definition data (self : TreeNode) : gmap string string :=
  let 'mkTreeNode _ _ data _ _ := self in data.

Definition tmpChildRefs (self : TreeNode) : list string :=
  let 'mkTreeNode _ _ _ tmpChildRefs _ := self in tmpChildRefs.

Definition childList (self : TreeNode) : list TreeNode :=
  let 'mkTreeNode _ _ _ _ childList := self in childList.

Definition set_data (self : TreeNode) (v : gmap string string) : TreeNode :=
  mkTreeNode (formatRef self) (uId self) v (tmpChildRefs self) (childList self).

(** The file data dictionary of a node *)
Record FileData : Type := mkFileData {
  key_format' : option string;
  key_uid : option string;
  key_data : option (gmap string string);
  key_children : option (list string)
}.

(** [__init__(self, formatRef, fileData)]; [newUid] is the value of
    [uuid.uuid1().hex]. *)
Definition TreeNode_init (newUid : string) (formatRef : NodeFormat)
    (fileData : FileData) : TreeNode :=
  mkTreeNode formatRef (default newUid (key_uid fileData))
    (default ∅ (key_data fileData)) (default [] (key_children fileData)) [].

(** [[nodeDict[uid] for uid in self.tmpChildRefs]] *)
Definition assignRefs (self : TreeNode) (nodeDict : gmap string TreeNode)
  : outcome TreeNode :=
  childList ←? mapM (λ uid, match nodeDict !! uid with
                            | Some node => Returns node
                            | None => Raises KeyError
                            end) (tmpChildRefs self);
  Returns (mkTreeNode (formatRef self) (uId self) (data self) [] childList).

Definition fileData (self : TreeNode) : FileData :=
  let children := uId <$> childList self in
  mkFileData (Some (formatName (formatRef self))) (Some (uId self))
    (Some (data self)) (Some children).

(** What the field methods find on a node of this class: its [data];
    the class has no [modelRef] and no [nodeFormat]. *)
Definition view (self : TreeNode) : NodeView :=
  mkNodeView (data self) None None.

Section TreeNodeMethods.

Context {RE : ReEngine} {LIT : Literals}.

Definition title (self : TreeNode) : outcome string :=
  formatTitle (formatRef self) (view self).

(** [setTitle(self, title)]: the value returned and the node afterwards *)
Definition setTitle (self : TreeNode) (title' : string) : outcome bool * TreeNode :=
  match title self with
  | Raises e => (Raises e, self)
  | Returns current =>
      if bool_decide (title' = current) then (Returns false, self)
      else
        let '(r, data) := extractTitleData (formatRef self) title' (data self) in
        (lift r, set_data self data)
  end.

Definition output (self : TreeNode) (plainText keepBlanks : bool)
  : outcome (list string) :=
  NodeFormat_formatOutput (formatRef self) (view self) plainText keepBlanks.

End TreeNodeMethods.

(** ** Notions for the properties of the other methods *)

(** The text has no ['<']. *)
Fixpoint no_lt (s : string) : bool :=
  match s with
  | EmptyString => true
  | String c s' => negb (Ascii.eqb c "<") && no_lt s'
  end.

(** A field that shows in a title the text that a title gave it: one of
    the plain text classes, without prefix and suffix, reading the data of
    the node itself. *)
Definition titleFaithful (field : Field) : Prop :=
  typeName field ∈ [Text; OneLineText; SpacedText]
  ∧ prefix field = "" ∧ suffix field = "" ∧ useFileInfo field = false.

(** Closes a goal with a hypothesis [t ∈ l] for a class [t] that is not in
    the list [l]. *)
Ltac wrong_class H :=
  exfalso;
  repeat (apply elem_of_cons in H as [H|H]; [discriminate H|]);
  by apply elem_of_nil in H.

(** [s[n:]] *)
Fixpoint str_drop (n : nat) (s : string) : string :=
  match n, s with
  | S n', String _ s' => str_drop n' s'
  | _, _ => s
  end.

(** The text of the placeholder with this modifier and this name *)
Definition placeholder (modifier fieldName : string) : string :=
  "{*" +:+ modifier +:+ fieldName +:+ "*}".

(** A dictionary of fields in which every field is stored under its own
    name and reads the data of the node itself. *)
Definition dict_ok (fieldDict : list (string * Field)) : Prop :=
  ∀ fieldName field,
    fieldDict_get fieldDict fieldName = Some field →
    name field = fieldName ∧ useFileInfo field = false.

(** The text has no white space. *)
Fixpoint no_space (s : string) : bool :=
  match s with
  | EmptyString => true
  | String c s' => negb (Str.isspace c) && no_space s'
  end.

(** The text has no character [c]. *)
Fixpoint lacks (c : ascii) (s : string) : bool :=
  match s with
  | EmptyString => true
  | String a s' => negb (Ascii.eqb a c) && lacks c s'
  end.

(** The text is a field name that a placeholder can hold: one or more
    word characters, [-] or [.]. *)
Fixpoint name_chars (s : string) : bool :=
  match s with
  | EmptyString => true
  | String c s' => is_name_char c && name_chars s'
  end.

Definition valid_name (fieldName : string) : Prop :=
  fieldName ≠ "" ∧ name_chars fieldName = true.


(** * Properties *)

(** ** The library functions on examples *)

Lemma str_examples :
  Str.replace "aa" "b" "aaa" = "ba"
  ∧ Str.split "/" "a/b//c/" = ["a"; "b"; ""; "c"; ""]
  ∧ Str.split_max "<br />" 1 "a<br />b<br />c" = ["a"; "b<br />c"]
  ∧ Str.strip "  a b  " = "a b"
  ∧ Str.words "  {*Name*}:   {*Kind*} " = ["{*Name*}:"; "{*Kind*}"]
  ∧ Str.lower "Trip 9" = "trip 9".
Proof. repeat split. Qed.

Lemma saxutils_examples :
  Sax.escape "a&b<c>" = "a&amp;b&lt;c&gt;"
  ∧ Sax.unescape "&amp;lt;" = "&lt;"
  ∧ removeMarkup "x<b>y</b> &amp; <z" = "xy & <z"
  ∧ stripTag_go 0 ("x<a" +:+ String "010" "b>y<c<d>z<")
    = "x<a" +:+ String "010" "b>yz<".
Proof. repeat split. Qed.

Lemma re_examples :
  re_escape ": " = ":\ "
  ∧ re_escape " (draft)" = "\ \(draft\)"
  ∧ Fragment.match_at_0 "(.*):\ (.*)" "Trip: 2024-01-01"
    = Some ["Trip: 2024-01-01"; "Trip"; "2024-01-01"]
  ∧ Fragment.match_at_0 "a*ab" "aaab" = Some ["aaab"]
  ∧ Fragment.match_at_0 "ab.*" "xab" = None
  ∧ Fragment.compile "a(b" = None
  ∧ fieldSplit "a{*Name*}{**Kind*}{*?x*}b{*x"
    = ["a"; "{*Name*}"; ""; "{**Kind*}"; ""; "{*?x*}"; "b{*x"].
Proof. repeat split. Qed.

(** ** Strings *)

Lemma append_String (c : ascii) (a b : string) :
  String c a +:+ b = String c (a +:+ b).
Proof. reflexivity. Qed.

Lemma append_nil_l (s : string) : "" +:+ s = s.
Proof. reflexivity. Qed.

Lemma append_nil_r (s : string) : s +:+ "" = s.
Proof. induction s as [|c s IH]; [done|]. by rewrite append_String, IH. Qed.

Lemma append_assoc (a b c : string) : (a +:+ b) +:+ c = a +:+ (b +:+ c).
Proof. induction a as [|x a IH]; [done|]. by rewrite !append_String, IH. Qed.

(** Replacing a single character works character by character. *)
Lemma replace_char_cons (a c : ascii) (new s : string) :
  Str.replace (String a "") new (String c s)
  = (if Ascii.eqb a c then new else String c "")
    +:+ Str.replace (String a "") new s.
Proof.
  unfold Str.replace.
  cbn [Str.replace_go Str.startswith String.length Nat.sub].
  by destruct (Ascii.eqb a c).
Qed.

Lemma replace_char_app (a : ascii) (new x y : string) :
  Str.replace (String a "") new (x +:+ y)
  = Str.replace (String a "") new x +:+ Str.replace (String a "") new y.
Proof.
  induction x as [|c x IH]; [done|].
  by rewrite append_String, !replace_char_cons, IH, append_assoc.
Qed.

Lemma escape_app (x y : string) :
  Sax.escape (x +:+ y) = Sax.escape x +:+ Sax.escape y.
Proof. unfold Sax.escape. by rewrite !replace_char_app. Qed.

Lemma escape_cons (c : ascii) (s : string) :
  Sax.escape (String c s) = escape_char c +:+ Sax.escape s.
Proof.
  change (String c s) with (String c "" +:+ s). rewrite escape_app. f_equal.
  unfold escape_char, Sax.escape. rewrite replace_char_cons.
  destruct (Ascii.eqb_spec "&" c) as [<-|?]; [done|].
  change (Str.replace "&" "&amp;" "") with "". rewrite append_nil_r.
  rewrite replace_char_cons.
  destruct (Ascii.eqb_spec ">" c) as [<-|?]; [done|].
  change (Str.replace ">" "&gt;" "") with "". rewrite append_nil_r.
  rewrite replace_char_cons.
  destruct (Ascii.eqb_spec "<" c) as [<-|?]; done.
Qed.

(** Each replacement of [unescape] passes over what [escape] wrote for one
    character. *)
Lemma unescape_escape (s : string) : Sax.unescape (Sax.escape s) = s.
Proof.
  induction s as [|c s IH]; [done|].
  rewrite escape_cons. unfold escape_char.
  destruct (Ascii.eqb_spec "&" c) as [<-|Hamp].
  { transitivity ("&" +:+ Sax.unescape (Sax.escape s)); [reflexivity|by rewrite IH]. }
  destruct (Ascii.eqb_spec ">" c) as [<-|Hgt].
  { transitivity (">" +:+ Sax.unescape (Sax.escape s)); [reflexivity|by rewrite IH]. }
  destruct (Ascii.eqb_spec "<" c) as [<-|Hlt].
  { transitivity ("<" +:+ Sax.unescape (Sax.escape s)); [reflexivity|by rewrite IH]. }
  rewrite append_String, append_nil_l.
  transitivity (String c (Sax.unescape (Sax.escape s))); [|by rewrite IH].
  unfold Sax.unescape, Str.replace.
  cbn [Str.replace_go Str.startswith].
  destruct (Ascii.eqb_spec "&" c) as [?|_]; [done|].
  cbn [Str.replace_go Str.startswith].
  destruct (Ascii.eqb_spec "&" c) as [?|_]; [done|].
  cbn [Str.replace_go Str.startswith].
  destruct (Ascii.eqb_spec "&" c) as [?|_]; done.
Qed.

(** ** splitText *)

Lemma truthy_nonempty (s : string) : Str.truthy s = true ↔ s ≠ "".
Proof. by destruct s. Qed.

Lemma splitText_step_inv (result : list string) (text : string) :
  NoDup result → "" ∉ result →
  NoDup (splitText_step result text) ∧ ("" ∉ splitText_step result text).
Proof.
  intros Hnd Hne. unfold splitText_step.
  set (t := Str.replace nul editSep (Str.strip text)).
  destruct (Str.truthy t) eqn:Ht; [|done]. cbn [andb].
  case_bool_decide as Hin; [done|]. cbn [negb].
  apply truthy_nonempty in Ht. split.
  - apply NoDup_app. repeat split; [done| |apply NoDup_singleton].
    intros x Hx Hx'. apply list_elem_of_singleton in Hx'. by subst.
  - rewrite elem_of_app, list_elem_of_singleton. intros [?|?]; congruence.
Qed.

Lemma splitText_fold_inv (pieces result : list string) :
  NoDup result → "" ∉ result →
  NoDup (foldl splitText_step result pieces)
  ∧ ("" ∉ foldl splitText_step result pieces).
Proof.
  revert result. induction pieces as [|p pieces IH]; intros result Hnd Hne; [done|].
  cbn [foldl]. destruct (splitText_step_inv result p Hnd Hne). by apply IH.
Qed.

Lemma splitText_NoDup (textStr : string) : NoDup (ChoiceField_splitText textStr).
Proof.
  unfold ChoiceField_splitText.
  apply splitText_fold_inv; [constructor|apply not_elem_of_nil].
Qed.

Lemma splitText_nonempty (textStr : string) : "" ∉ ChoiceField_splitText textStr.
Proof.
  unfold ChoiceField_splitText.
  apply splitText_fold_inv; [constructor|apply not_elem_of_nil].
Qed.

(** Every piece kept stands where it was first seen: the result of a
    longer run of pieces extends the result of a shorter one. *)
Lemma splitText_fold_app (pieces1 pieces2 result : list string) :
  foldl splitText_step result (pieces1 ++ pieces2)
  = foldl splitText_step (foldl splitText_step result pieces1) pieces2.
Proof. apply foldl_app. Qed.

Lemma splitText_step_prefix (result : list string) (text : string) :
  result `prefix_of` splitText_step result text.
Proof.
  unfold splitText_step.
  destruct (_ && _); [by apply prefix_app_r|done].
Qed.

Lemma splitText_fold_prefix (pieces result : list string) :
  result `prefix_of` foldl splitText_step result pieces.
Proof.
  revert result. induction pieces as [|p pieces IH]; intros result; [done|].
  cbn [foldl]. etrans; [apply splitText_step_prefix|apply IH].
Qed.

Lemma splitText_fold_elem (pieces result : list string) (x : string) :
  x ∈ foldl splitText_step result pieces
  ↔ x ∈ result ∨ (x ≠ "" ∧ x ∈ splitText_item <$> pieces).
Proof.
  revert result. induction pieces as [|p pieces IH]; intros result.
  { cbn. rewrite elem_of_nil. tauto. }
  cbn [foldl fmap list_fmap]. rewrite IH, elem_of_cons.
  unfold splitText_step. fold (splitText_item p).
  destruct (Str.truthy (splitText_item p)) eqn:Ht; cbn [andb].
  - apply truthy_nonempty in Ht. case_bool_decide as Hin; cbn [negb].
    + intuition (subst; auto).
    + rewrite elem_of_app, list_elem_of_singleton. intuition (subst; auto).
  - assert (splitText_item p = "") as Hp by (by destruct (splitText_item p)).
    intuition (subst; auto; congruence).
Qed.

(** C3 (as amended): with the separator [/], [splitText("a//b/c/a")] is
    [["a/b", "c", "a"]]: the doubled separator stands for one separator
    character inside the first entry, and the last entry ["a"] differs from
    ["a/b"], so it stays; [splitText("a//b/c/a//b")] is [["a/b", "c"]].  For
    every text the result has no duplicates and no empty entry, holds exactly
    the non-empty stripped pieces, and keeps them in first-seen order: what
    an initial run of the pieces yields is an initial part of the result. *)
Theorem splitText_unescapes_and_dedups :
  ChoiceField_splitText "a//b/c/a" = ["a/b"; "c"; "a"]
  ∧ ChoiceField_splitText "a//b/c/a//b" = ["a/b"; "c"]
  ∧ ∀ textStr : string,
      NoDup (ChoiceField_splitText textStr)
      ∧ ("" ∉ ChoiceField_splitText textStr)
      ∧ (∀ x, x ∈ ChoiceField_splitText textStr
              ↔ x ≠ "" ∧ x ∈ splitText_item <$> splitText_pieces textStr)
      ∧ (∀ pieces1 pieces2,
           splitText_pieces textStr = pieces1 ++ pieces2 →
           foldl splitText_step [] pieces1 `prefix_of` ChoiceField_splitText textStr).
Proof.
  split; [reflexivity|]. split; [reflexivity|]. intros textStr.
  split; [apply splitText_NoDup|]. split; [apply splitText_nonempty|]. split.
  - intros x. unfold ChoiceField_splitText. fold (splitText_pieces textStr).
    rewrite splitText_fold_elem, elem_of_nil. tauto.
  - intros pieces1 pieces2 Hsplit. unfold ChoiceField_splitText.
    fold (splitText_pieces textStr). rewrite Hsplit, splitText_fold_app.
    apply splitText_fold_prefix.
Qed.

Lemma splitText_unescapes_and_dedups_witness :
  splitText_pieces "b/a/b" = ["b"; "a"] ++ ["b"]
  ∧ foldl splitText_step [] ["b"; "a"] `prefix_of` ChoiceField_splitText "b/a/b".
Proof.
  split; [reflexivity|].
  destruct splitText_unescapes_and_dedups as (_ & _ & Hall).
  destruct (Hall "b/a/b") as (_ & _ & _ & Hprefix).
  apply (Hprefix ["b"; "a"] ["b"]). reflexivity.
Defined.

(** C3 (as stated): the list [splitText("a//b/c/a")] is not [["a/b", "c"]];
    it has the third entry ["a"]. *)
Lemma splitText_example_counterexample :
  ChoiceField_splitText "a//b/c/a" = ["a/b"; "c"; "a"]
  ∧ ChoiceField_splitText "a//b/c/a" ≠ ["a/b"; "c"].
Proof. split; [reflexivity|]. intros H. vm_compute in H. discriminate H. Qed.

(** ** Combination fields: the declared order *)

Lemma CombinationField_setFormat_choiceList (self : Field) (format' : string) :
  choiceList (CombinationField_setFormat self format')
  = ChoiceField_splitText
      (if evalHtml self then format' else Sax.escape format')
  ∧ choices (CombinationField_setFormat self format')
    = list_to_set (choiceList (CombinationField_setFormat self format'))
  ∧ evalHtml (CombinationField_setFormat self format') = evalHtml self
  ∧ typeName (CombinationField_setFormat self format') = typeName self.
Proof. done. Qed.

Lemma sortedSelections_subset (self : Field) (inText : string) :
  NoDup (choiceList self) →
  (∀ t, t ∈ ChoiceField_splitText inText → t ∈ choiceList self) →
  CombinationField_sortedSelections self inText
  = (filter (λ t, t ∈ (list_to_set (ChoiceField_splitText inText) : gset string))
       (choiceList self), true).
Proof.
  intros Hnd Hsub. unfold CombinationField_sortedSelections. f_equal.
  apply bool_decide_eq_true.
  rewrite size_list_to_set by apply splitText_NoDup.
  apply Permutation_length, NoDup_Permutation.
  - apply splitText_NoDup.
  - by apply NoDup_filter.
  - intros x. rewrite list_elem_of_filter, elem_of_list_to_set.
    split; [intros Hx; split; [done|by apply Hsub]|by intros [? _]].
Qed.

(** The stored text depends on the text entered only through the set of
    its selections. *)
Lemma CombinationField_storedText_set (self : Field) (editorText1 editorText2 : string) :
  let inText e := if negb (evalHtml self) then Sax.escape e else e in
  (∀ t, t ∈ ChoiceField_splitText (inText editorText1)
        ↔ t ∈ ChoiceField_splitText (inText editorText2)) →
  CombinationField_storedText self editorText1
  = CombinationField_storedText self editorText2.
Proof.
  intros inText Hsame. unfold CombinationField_storedText.
  fold (inText editorText1) (inText editorText2).
  unfold CombinationField_sortedSelections.
  assert ((list_to_set (ChoiceField_splitText (inText editorText1)) : gset string)
          = list_to_set (ChoiceField_splitText (inText editorText2))) as ->; [|done].
  apply set_eq. intros x. by rewrite !elem_of_list_to_set.
Qed.

Lemma filter_iff_in {A : Type} (P1 P2 : A → Prop)
    `{!∀ x, Decision (P1 x), !∀ x, Decision (P2 x)} (l : list A) :
  (∀ x, x ∈ l → P1 x ↔ P2 x) → filter P1 l = filter P2 l.
Proof.
  intros Hiff. induction l as [|a l IH]; [done|].
  assert (filter P1 l = filter P2 l) as IH'.
  { apply IH. intros x Hx. apply Hiff. by apply list_elem_of_further. }
  pose proof (Hiff a (list_elem_of_here a l)) as Ha.
  destruct (decide (P1 a)) as [H1|H1].
  - rewrite !filter_cons_True by tauto. by rewrite IH'.
  - rewrite !filter_cons_False by tauto. done.
Qed.

(** A stored text that splits back into the selections it was joined from,
    and whose entities survive unescaping and escaping, is accepted by
    [formatEditorText], and storing the editor text again returns it. *)
Lemma CombinationField_round_trip_gen (field : Field) (editorText stored : string) :
  let selections :=
    (CombinationField_sortedSelections field
       (if negb (evalHtml field) then Sax.escape editorText else editorText)).1 in
  let shown := if evalHtml field then stored else Sax.unescape stored in
  NoDup (choiceList field) →
  choices field = list_to_set (choiceList field) →
  CombinationField_storedText field editorText = Ok stored →
  (∀ t, t ∈ ChoiceField_splitText stored ↔ t ∈ selections) →
  (evalHtml field = false → Sax.escape shown = stored) →
  stored = CombinationField_joinText selections
  ∧ CombinationField_formatEditorText field stored = Ok shown
  ∧ CombinationField_storedText field shown = Ok stored.
Proof.
  intros selections shown Hnd Hchoices Hstore Hsplit Hentities.
  unfold CombinationField_storedText in Hstore.
  unfold selections in *. clear selections.
  set (inText := if negb (evalHtml field) then Sax.escape editorText
                 else editorText) in *.
  unfold CombinationField_sortedSelections in Hstore, Hsplit.
  cbn [fst] in Hsplit.
  set (entered := list_to_set (ChoiceField_splitText inText) : gset string) in *.
  set (sel := filter (λ text, text ∈ entered) (choiceList field)) in *.
  destruct (negb (bool_decide (size entered = length sel))); [done|].
  injection Hstore as <-. split; [done|].
  assert (∀ t, t ∈ ChoiceField_splitText (CombinationField_joinText sel)
               → t ∈ choiceList field) as Hsub.
  { intros t Ht. apply Hsplit in Ht. unfold sel in Ht.
    by apply list_elem_of_filter in Ht as [_ ?]. }
  split.
  - unfold CombinationField_formatEditorText.
    rewrite bool_decide_eq_true_2; [unfold shown; by destruct (evalHtml field)|].
    rewrite Hchoices. intros t. rewrite !elem_of_list_to_set. apply Hsub.
  - unfold CombinationField_storedText.
    replace (if negb (evalHtml field) then Sax.escape shown else shown)
      with (CombinationField_joinText sel).
    2:{ unfold shown in *. destruct (evalHtml field); [done|].
        symmetry. by apply Hentities. }
    rewrite (sortedSelections_subset field _ Hnd Hsub). cbn [negb]. do 2 f_equal.
    unfold sel at 2. apply filter_iff_in. intros t Ht.
    rewrite elem_of_list_to_set, Hsplit. unfold sel.
    rewrite list_elem_of_filter. tauto.
Qed.

(** C2: with the declared choices [x/y/z], storing the editor text [z/x]
    gives [x/z].  For every Combination field (its choice list set by
    [setFormat]) and every editor text whose selections are all declared,
    [storedText] joins a list of selections that holds exactly the
    selections entered and is a sublist of the declared choice list, so
    that they stand in declared order; the result is the same for any two
    editor texts with the same selections, whatever their order. *)
Theorem CombinationField_storedText_declared_order :
  (∀ self : Field,
     CombinationField_storedText (CombinationField_setFormat self "x/y/z") "z/x"
     = Ok "x/z")
  ∧ (∀ (self : Field) (format' editorText : string),
       let field := CombinationField_setFormat self format' in
       let inText := if negb (evalHtml field) then Sax.escape editorText
                     else editorText in
       (∀ t, t ∈ ChoiceField_splitText inText → t ∈ choiceList field) →
       ∃ selections : list string,
         CombinationField_storedText field editorText
         = Ok (CombinationField_joinText selections)
         ∧ selections `sublist_of` choiceList field
         ∧ ∀ t, t ∈ selections ↔ t ∈ ChoiceField_splitText inText)
  ∧ (∀ (field : Field) (editorText1 editorText2 : string),
       let inText e := if negb (evalHtml field) then Sax.escape e else e in
       (∀ t, t ∈ ChoiceField_splitText (inText editorText1)
             ↔ t ∈ ChoiceField_splitText (inText editorText2)) →
       CombinationField_storedText field editorText1
       = CombinationField_storedText field editorText2).
Proof.
  split; [|split].
  - intros self. unfold CombinationField_storedText.
    destruct (CombinationField_setFormat_choiceList self "x/y/z") as (Hl & _ & -> & _).
    assert (choiceList (CombinationField_setFormat self "x/y/z") = ["x"; "y"; "z"])
      as Hlist by (rewrite Hl; by destruct (evalHtml self)).
    assert (CombinationField_sortedSelections
              (CombinationField_setFormat self "x/y/z") "z/x" = (["x"; "z"], true))
      as Hsel.
    { unfold CombinationField_sortedSelections. rewrite Hlist. by vm_compute. }
    destruct (evalHtml self); cbn [negb];
      [|change (Sax.escape "z/x") with "z/x"]; by rewrite Hsel.
  - intros self format' editorText field inText Hsub.
    assert (NoDup (choiceList field)) as Hnd.
    { unfold field. destruct (CombinationField_setFormat_choiceList self format')
        as (-> & _). apply splitText_NoDup. }
    eexists. unfold CombinationField_storedText. fold inText.
    rewrite (sortedSelections_subset field inText Hnd Hsub). cbn [negb].
    split; [done|]. split; [apply sublist_filter|].
    intros t. rewrite list_elem_of_filter, elem_of_list_to_set.
    split; [by intros [? _]|intros Ht; split; [done|by apply Hsub]].
  - apply CombinationField_storedText_set.
Qed.

Lemma CombinationField_storedText_declared_order_witness :
  (∀ t, t ∈ ChoiceField_splitText (Sax.escape "blue/red")
        → t ∈ choiceList Examples.tagsField)
  ∧ (∃ selections : list string,
       CombinationField_storedText Examples.tagsField "blue/red"
       = Ok (CombinationField_joinText selections)
       ∧ selections `sublist_of` choiceList Examples.tagsField
       ∧ ∀ t, t ∈ selections ↔ t ∈ ChoiceField_splitText (Sax.escape "blue/red"))
  ∧ (∀ t, t ∈ ChoiceField_splitText (Sax.escape "blue/red")
          ↔ t ∈ ChoiceField_splitText (Sax.escape "red / blue"))
  ∧ CombinationField_storedText Examples.tagsField "blue/red"
    = CombinationField_storedText Examples.tagsField "red / blue".
Proof.
  assert (∀ t, t ∈ ChoiceField_splitText (Sax.escape "blue/red")
               → t ∈ choiceList Examples.tagsField) as Hsub.
  { intros t Ht. vm_compute in Ht. vm_compute.
    apply elem_of_cons in Ht as [->|Ht]; [by repeat constructor|].
    apply list_elem_of_singleton in Ht as ->. by repeat constructor. }
  assert (∀ t, t ∈ ChoiceField_splitText (Sax.escape "blue/red")
               ↔ t ∈ ChoiceField_splitText (Sax.escape "red / blue")) as Hsame.
  { intros t.
    change (ChoiceField_splitText (Sax.escape "blue/red")) with ["blue"; "red"].
    change (ChoiceField_splitText (Sax.escape "red / blue")) with ["red"; "blue"].
    rewrite !elem_of_cons, elem_of_nil. tauto. }
  destruct CombinationField_storedText_declared_order as (_ & Hgen & Horder).
  split; [exact Hsub|].
  split; [exact (Hgen (set_class (TextField_init "Tags") Combination)
                   "red/green/blue" "blue/red" Hsub)|].
  split; [exact Hsame|].
  exact (Horder Examples.tagsField "blue/red" "red / blue" Hsame).
Defined.

(** ** Field formats *)

Section FieldProperties.

Context {RE : ReEngine} {LIT : Literals}.

Lemma py_re_match_ok (self : Field) (text : string) :
  typeName self = RegularExpression → field_ok self →
  py_re_match (format self) text = Ok (re_match (format self) text).
Proof. intros Ht Hok. unfold py_re_match. by rewrite (Hok Ht). Qed.

Lemma ChoiceField_setFormat_typeName (self : Field) (format' : string) :
  typeName (ChoiceField_setFormat self format') = typeName self.
Proof. unfold ChoiceField_setFormat. by destruct (evalHtml _). Qed.

(** [setFormat] establishes the invariant. *)
Lemma setFormat_ok (self self' : Field) (format' : string) :
  setFormat self format' = Ok self' → field_ok self'.
Proof.
  intros Hset Hre. unfold setFormat, RegularExpressionField_setFormat in Hset.
  destruct (typeName self) eqn:Ht;
    try (injection Hset as <-;
         rewrite ?ChoiceField_setFormat_typeName in Hre; cbn in Hre;
         congruence).
  destruct (re_compiles format') eqn:Hc; [|done]. by injection Hset as <-.
Qed.

Lemma TextField_init_ok (name : string) : field_ok (TextField_init name).
Proof. intros Ht. discriminate Ht. Qed.

Lemma changeType_ok (self self' : Field) (newType : FieldType) :
  changeType self newType = Ok self' → field_ok self'.
Proof.
  unfold changeType.
  destruct (setFormat (set_class self newType)
              (defaultFormat (typeName (set_class self newType))))
    as [field|e] eqn:Hset; cbn [bind]; [|done].
  apply setFormat_ok in Hset.
  destruct (fixEvalHtmlSetting (typeName field)); intros [= <-]; exact Hset.
Qed.

(** *** The empty text *)

Lemma filter_none {A : Type} (P : A → Prop) `{∀ x, Decision (P x)}
    (l : list A) :
  (∀ x, ¬ P x) → filter P l = [].
Proof.
  intros HP. induction l as [|x l IH]; [done|].
  rewrite filter_cons_False; [done|]. apply HP.
Qed.

(** C10: each validating variant (Number, Boolean, Choice, Combination,
    RegularExpression) accepts the empty text: [storedText('')] and
    [formatEditorText('')] return [''] without an error, whatever the
    declared choices and the format are. *)
Theorem empty_text_accepted (self : Field) :
  validating (typeName self) → field_ok self →
  storedText self "" = Ok "" ∧ formatEditorText self "" = Ok "".
Proof.
  intros Hval Hok. unfold storedText, formatEditorText.
  destruct (typeName self) eqn:Ht;
    try (exfalso; revert Hval; unfold validating;
         rewrite !elem_of_cons, elem_of_nil; intuition congruence).
  - done.
  - done.
  - unfold ChoiceField_storedText, ChoiceField_formatEditorText.
    by destruct (evalHtml self).
  - unfold CombinationField_storedText, CombinationField_formatEditorText,
      CombinationField_sortedSelections.
    replace (if negb (evalHtml self) then Sax.escape "" else "") with ""
      by (by destruct (evalHtml self)).
    change (ChoiceField_splitText "") with (@nil string).
    change (list_to_set []) with (∅ : gset string).
    rewrite filter_none by (intros x; apply not_elem_of_empty).
    rewrite size_empty. cbn [length].
    rewrite (bool_decide_eq_true_2 (0 = 0)) by done.
    rewrite (bool_decide_eq_true_2 (∅ ⊆ choices self)) by apply empty_subseteq.
    by destruct (evalHtml self).
  - unfold RegularExpressionField_storedText,
      RegularExpressionField_formatEditorText.
    replace (if negb (evalHtml self) then Sax.unescape "" else "") with ""
      by (by destruct (evalHtml self)).
    rewrite (py_re_match_ok self "" Ht Hok). cbn.
    by destruct (evalHtml self).
Qed.

(** *** Sort keys *)

(** C9: [sortKey] returns the pair of the type rank (['20_num'] for
    Number, ['30_bool'] for Boolean, ['80_text'] for the other variants)
    and the field's [compareValue]; hence the key of a Number field is
    below the key of a text-like field, for all node data and whatever the
    order on the values is, and the key of a Boolean field lies between
    them. *)
Theorem sortKey_type_rank :
  (∀ (self : Field) (nodeData : gmap string string),
     sortKey self nodeData = (typeRank (typeName self), compareValue self nodeData))
  ∧ (∀ (numberField textField : Field) (data1 data2 : gmap string string)
       (value_lt : value → value → bool),
       typeName numberField = Number → textLike (typeName textField) →
       sortKey_lt value_lt (sortKey numberField data1) (sortKey textField data2)
       = true
       ∧ sortKey_lt value_lt (sortKey textField data2) (sortKey numberField data1)
         = false)
  ∧ (∀ (numberField booleanField textField : Field)
       (data1 data2 data3 : gmap string string)
       (value_lt : value → value → bool),
       typeName numberField = Number → typeName booleanField = Boolean →
       textLike (typeName textField) →
       sortKey_lt value_lt (sortKey numberField data1) (sortKey booleanField data2)
       = true
       ∧ sortKey_lt value_lt (sortKey booleanField data2) (sortKey textField data3)
         = true).
Proof.
  assert (∀ self nodeData,
    sortKey self nodeData = (typeRank (typeName self), compareValue self nodeData))
    as Hkey.
  { intros self nodeData. unfold sortKey. by destruct (typeName self). }
  assert (∀ t, textLike t → typeRank t = "80_text") as Htext.
  { intros t Ht. unfold textLike in Ht.
    rewrite !not_elem_of_cons in Ht. destruct t; intuition congruence. }
  split; [exact Hkey|]. split.
  - intros fN fT d1 d2 vlt HN HT. rewrite !Hkey, HN, (Htext _ HT).
    by vm_compute.
  - intros fN fB fT d1 d2 d3 vlt HN HB HT. rewrite !Hkey, HN, HB, (Htext _ HT).
    by vm_compute.
Qed.

(** *** Rendering *)

Lemma TextField_formatOutput_errorStr (self : Field) (titleMode formatHtml : bool) :
  TextField_formatOutput self _errorStr titleMode formatHtml
  = outputAffix (prefix self) titleMode formatHtml +:+ _errorStr
    +:+ outputAffix (suffix self) titleMode formatHtml.
Proof. by destruct titleMode, formatHtml. Qed.

(** C8: [formatOutput] raises no error, for every variant and every
    stored text; where the stored text does not conform to the variant
    (not a number for Number, not a declared choice for Choice, not a
    boolean for Boolean, and likewise an undeclared selection for
    Combination and a text the format does not match for
    RegularExpression), the result is the prefix, the marker ['#####'] in
    place of the value, and the suffix. *)
Theorem formatOutput_never_raises (self : Field) (storedText : string)
    (titleMode formatHtml : bool) :
  field_ok self →
  ∃ text : string,
    formatOutput self storedText titleMode formatHtml = Ok text
    ∧ (nonconforming self storedText →
       text = outputAffix (prefix self) titleMode formatHtml +:+ "#####"
              +:+ outputAffix (suffix self) titleMode formatHtml).
Proof.
  intros Hok. unfold formatOutput, nonconforming.
  destruct (typeName self) eqn:Ht; try (eexists; split; [done|done]).
  - eexists; split; [done|]. intros Hbad.
    unfold NumberField_formatOutput. rewrite Hbad.
    apply TextField_formatOutput_errorStr.
  - eexists; split; [done|]. intros Hbad.
    unfold BooleanField_formatOutput, ChoiceField_formatOutput. rewrite Hbad.
    destruct (negb _); apply TextField_formatOutput_errorStr.
  - eexists; split; [done|]. intros Hbad.
    unfold ChoiceField_formatOutput.
    rewrite (bool_decide_eq_false_2 _ Hbad). cbn [negb].
    apply TextField_formatOutput_errorStr.
  - eexists; split; [done|]. intros Hbad.
    unfold CombinationField_formatOutput.
    destruct (CombinationField_sortedSelections self storedText) as [sel valid].
    cbn in Hbad. subst valid. apply TextField_formatOutput_errorStr.
  - unfold RegularExpressionField_formatOutput.
    rewrite (py_re_match_ok self _ Ht Hok). cbn [bind].
    eexists; split; [done|]. intros [Hne Hbad]. rewrite Hbad.
    destruct storedText; [done|]. cbn [Str.truthy negb orb].
    rewrite bool_decide_eq_false_2 by (by intros [? ?]).
    apply TextField_formatOutput_errorStr.
Qed.

(** *** Regular expression fields *)

Lemma replace_nonempty (old new s : string) :
  new ≠ "" → s ≠ "" → Str.replace old new s ≠ "".
Proof.
  intros Hnew Hs. destruct s as [|c s]; [done|]. unfold Str.replace.
  cbn [Str.replace_go]. destruct (Str.startswith old (String c s)); [|done].
  by destruct new.
Qed.

Lemma unescape_nonempty (s : string) : s ≠ "" → Sax.unescape s ≠ "".
Proof.
  intros Hs. unfold Sax.unescape. by repeat apply replace_nonempty.
Qed.

Lemma RegularExpressionField_storedText_spec (self : Field) (editorText : string) :
  typeName self = RegularExpression → field_ok self → editorText ≠ "" →
  storedText self editorText
  = if bool_decide (is_Some (re_match (format self) editorText))
    then Ok (if evalHtml self then editorText else Sax.escape editorText)
    else Raise ValueError.
Proof.
  intros Ht Hok Hne. unfold storedText. rewrite Ht.
  unfold RegularExpressionField_storedText.
  rewrite (py_re_match_ok self _ Ht Hok). cbn [bind].
  destruct editorText; [done|]. cbn [Str.truthy negb orb].
  case_bool_decide; [|done]. by destruct (evalHtml self).
Qed.

Lemma RegularExpressionField_formatEditorText_spec (self : Field)
    (storedText : string) :
  typeName self = RegularExpression → field_ok self → storedText ≠ "" →
  let text := if evalHtml self then storedText else Sax.unescape storedText in
  formatEditorText self storedText
  = if bool_decide (is_Some (re_match (format self) text))
    then Ok text else Raise ValueError.
Proof.
  intros Ht Hok Hne text. unfold formatEditorText. rewrite Ht.
  unfold RegularExpressionField_formatEditorText.
  replace (if negb (evalHtml self) then Sax.unescape storedText else storedText)
    with text by (unfold text; by destruct (evalHtml self)).
  rewrite (py_re_match_ok self _ Ht Hok). cbn [bind].
  assert (text ≠ "") as Htext.
  { unfold text. destruct (evalHtml self); [done|by apply unescape_nonempty]. }
  destruct text; [done|]. cbn [Str.truthy negb orb]. by case_bool_decide.
Qed.

(** *** Round trips *)

Lemma firstLine_cons (c : ascii) (s : string) :
  firstLine (String c s)
  = if Str.startswith "<br />" (String c s) then "" else String c (firstLine s).
Proof.
  unfold firstLine, Str.split_max. cbn [Str.split_max_go].
  destruct (Str.startswith "<br />" (String c s)); [done|].
  by destruct (Str.split_max_go "<br />" 1 0 s).
Qed.

Lemma startswith_app (p x r : string) :
  Str.startswith p x = true → Str.startswith p (x +:+ r) = true.
Proof.
  revert x. induction p as [|a p IH]; intros x; [done|].
  destruct x as [|b x]; [done|]. rewrite append_String. cbn [Str.startswith].
  destruct (Ascii.eqb a b); [apply IH|done].
Qed.

Lemma firstLine_prefix (s : string) : ∃ r, s = firstLine s +:+ r.
Proof.
  induction s as [|c s [r IH]]; [by exists ""|].
  rewrite firstLine_cons.
  destruct (Str.startswith "<br />" (String c s)); [by eexists|].
  exists r. by rewrite append_String, <- IH.
Qed.

Lemma firstLine_idemp (s : string) : firstLine (firstLine s) = firstLine s.
Proof.
  induction s as [|c s IH]; [done|].
  rewrite firstLine_cons.
  destruct (Str.startswith "<br />" (String c s)) eqn:Hs; [done|].
  rewrite firstLine_cons.
  destruct (Str.startswith "<br />" (String c (firstLine s))) eqn:Hp;
    [|by rewrite IH].
  destruct (firstLine_prefix s) as [r Hr].
  apply (startswith_app _ _ r) in Hp.
  rewrite append_String, <- Hr in Hp. congruence.
Qed.

Lemma exact_round_trip (self : Field) (editorText stored : string) :
  exactRoundTrip (typeName self) → field_ok self →
  storedText self editorText = Ok stored →
  formatEditorText self stored = Ok editorText.
Proof.
  intros Hexact Hok. unfold storedText, formatEditorText.
  destruct (typeName self) eqn:Ht;
    try (exfalso; revert Hexact; unfold exactRoundTrip;
         rewrite !elem_of_cons, elem_of_nil; intuition congruence).
  - by intros [= ->].
  - by intros [= ->].
  - intros [= <-]. unfold SpacedTextField_formatEditorText.
    by rewrite unescape_escape.
  - unfold ChoiceField_storedText, ChoiceField_formatEditorText.
    destruct (evalHtml self); cbn [negb].
    + destruct editorText as [|c e]; [by intros [= <-]|]. cbn [Str.truthy negb orb].
      case_bool_decide; [|done]. intros [= <-]. cbn [Str.truthy andb].
      by rewrite bool_decide_eq_true_2.
    + destruct (Str.truthy (Sax.escape editorText)) eqn:Htruthy; cbn [negb orb].
      * case_bool_decide; [|done]. intros [= <-]. rewrite Htruthy. cbn [andb].
        rewrite bool_decide_eq_true_2 by done. cbn [negb].
        by rewrite unescape_escape.
      * intros [= <-]. rewrite Htruthy. cbn [andb]. by rewrite unescape_escape.
  - unfold RegularExpressionField_storedText,
      RegularExpressionField_formatEditorText.
    rewrite (py_re_match_ok self editorText Ht Hok). cbn [bind].
    destruct (negb (Str.truthy editorText)
              || bool_decide (is_Some (re_match (format self) editorText)))
      eqn:Hacc; [|done].
    destruct (evalHtml self); cbn [negb]; intros [= <-];
      rewrite ?unescape_escape, (py_re_match_ok self editorText Ht Hok);
      cbn [bind]; by rewrite Hacc.
Qed.

(** C7 (as amended): for the variants Text, HtmlText, SpacedText, Choice
    and RegularExpression, [formatEditorText] undoes [storedText]: whenever
    [storedText(e)] returns [s], [formatEditorText(s)] returns [e], and so
    [storedText(formatEditorText(s))] is [s] again.  A OneLineText field
    stores the editor text as it is and shows a stored text up to its first
    line break marker, so that [formatEditorText(storedText(e))] and
    [storedText(formatEditorText(s))] are [e] and [s] cut at the marker;
    cutting twice is cutting once.  A Combination field stores the joined
    selections in declared order; when this stored text splits back into
    the selections it was joined from and its entities survive unescaping
    and escaping, [formatEditorText] accepts it and
    [storedText(formatEditorText(s))] is [s] again. *)
Theorem storedText_formatEditorText_round_trip :
  (∀ (self : Field) (editorText stored : string),
     exactRoundTrip (typeName self) → field_ok self →
     storedText self editorText = Ok stored →
     formatEditorText self stored = Ok editorText
     ∧ (editorText' ←! formatEditorText self stored; storedText self editorText')
       = Ok stored)
  ∧ (∀ (self : Field) (text : string),
       typeName self = OneLineText →
       (stored ←! storedText self text; formatEditorText self stored)
       = Ok (firstLine text)
       ∧ (editorText ←! formatEditorText self text; storedText self editorText)
         = Ok (firstLine text)
       ∧ firstLine (firstLine text) = firstLine text)
  ∧ (∀ (self : Field) (format' editorText stored : string),
       let field := CombinationField_setFormat self format' in
       let selections :=
         (CombinationField_sortedSelections field
            (if negb (evalHtml field) then Sax.escape editorText
             else editorText)).1 in
       let shown := if evalHtml field then stored else Sax.unescape stored in
       CombinationField_storedText field editorText = Ok stored →
       (∀ t, t ∈ ChoiceField_splitText stored ↔ t ∈ selections) →
       (evalHtml field = false → Sax.escape shown = stored) →
       stored = CombinationField_joinText selections
       ∧ CombinationField_formatEditorText field stored = Ok shown
       ∧ CombinationField_storedText field shown = Ok stored).
Proof.
  split; [|split].
  - intros self editorText stored Hexact Hok Hstore.
    rewrite (exact_round_trip self editorText stored Hexact Hok Hstore).
    by cbn [bind].
  - intros self text Ht. unfold storedText, formatEditorText. rewrite Ht.
    repeat split. apply firstLine_idemp.
  - intros self format' editorText stored field.
    apply CombinationField_round_trip_gen.
    + unfold field. destruct (CombinationField_setFormat_choiceList self format')
        as (-> & _). apply splitText_NoDup.
    + apply CombinationField_setFormat_choiceList.
Qed.

End FieldProperties.

(** *** The statements on the example fields *)

Lemma empty_text_accepted_witness :
  validating (typeName Examples.kindField)
  ∧ field_ok (RE := Fragment.engine) Examples.kindField
  ∧ storedText (RE := Fragment.engine) (LIT := no_literals) Examples.kindField ""
    = Ok ""
  ∧ formatEditorText (RE := Fragment.engine) (LIT := no_literals)
      Examples.kindField "" = Ok "".
Proof.
  assert (validating (typeName Examples.kindField)) as Hval
    by (apply (bool_decide_unpack _); exact I).
  assert (field_ok (RE := Fragment.engine) Examples.kindField) as Hok
    by (intros Ht; discriminate Ht).
  split; [exact Hval|]. split; [exact Hok|].
  exact (empty_text_accepted (RE := Fragment.engine) (LIT := no_literals)
           Examples.kindField Hval Hok).
Defined.

Lemma sortKey_type_rank_witness :
  typeName Examples.sizeField = Number
  ∧ typeName Examples.doneField = Boolean
  ∧ textLike (typeName Examples.nameField)
  ∧ (sortKey_lt (LIT := no_literals) (λ _ _, false)
       (sortKey (LIT := no_literals) Examples.sizeField {[ "Size" := "900" ]})
       (sortKey (LIT := no_literals) Examples.nameField {[ "Name" := "100" ]})
     = true
     ∧ sortKey_lt (LIT := no_literals) (λ _ _, false)
         (sortKey (LIT := no_literals) Examples.nameField {[ "Name" := "100" ]})
         (sortKey (LIT := no_literals) Examples.sizeField {[ "Size" := "900" ]})
       = false)
  ∧ (sortKey_lt (LIT := no_literals) (λ _ _, false)
       (sortKey (LIT := no_literals) Examples.sizeField {[ "Size" := "900" ]})
       (sortKey (LIT := no_literals) Examples.doneField {[ "Done" := "true" ]})
     = true
     ∧ sortKey_lt (LIT := no_literals) (λ _ _, false)
         (sortKey (LIT := no_literals) Examples.doneField {[ "Done" := "true" ]})
         (sortKey (LIT := no_literals) Examples.nameField {[ "Name" := "100" ]})
       = true).
Proof.
  assert (textLike (typeName Examples.nameField)) as Htext
    by (apply (bool_decide_unpack _); exact I).
  split; [reflexivity|]. split; [reflexivity|]. split; [exact Htext|].
  destruct (sortKey_type_rank (LIT := no_literals)) as (_ & Hlt & Hbetween).
  split.
  - exact (Hlt Examples.sizeField Examples.nameField {[ "Size" := "900" ]}
             {[ "Name" := "100" ]} (λ _ _, false) eq_refl Htext).
  - exact (Hbetween Examples.sizeField Examples.doneField Examples.nameField
             {[ "Size" := "900" ]} {[ "Done" := "true" ]} {[ "Name" := "100" ]}
             (λ _ _, false) eq_refl eq_refl Htext).
Defined.

Lemma formatOutput_never_raises_witness :
  field_ok (RE := Fragment.engine) Examples.kindField
  ∧ nonconforming (RE := Fragment.engine) (LIT := no_literals)
      Examples.kindField "9"
  ∧ ∃ text : string,
      formatOutput (RE := Fragment.engine) (LIT := no_literals)
        Examples.kindField "9" false false = Ok text
      ∧ (nonconforming (RE := Fragment.engine) (LIT := no_literals)
           Examples.kindField "9" →
         text = outputAffix (prefix Examples.kindField) false false +:+ "#####"
                +:+ outputAffix (suffix Examples.kindField) false false).
Proof.
  assert (field_ok (RE := Fragment.engine) Examples.kindField) as Hok
    by (intros Ht; discriminate Ht).
  split; [exact Hok|]. split; [apply (bool_decide_unpack _); exact I|].
  exact (formatOutput_never_raises (RE := Fragment.engine) (LIT := no_literals)
           Examples.kindField "9" false false Hok).
Defined.

Lemma storedText_formatEditorText_round_trip_witness :
  exactRoundTrip (typeName Examples.kindField)
  ∧ field_ok (RE := Fragment.engine) Examples.kindField
  ∧ storedText (RE := Fragment.engine) (LIT := no_literals) Examples.kindField "3"
    = Ok "3"
  ∧ formatEditorText (RE := Fragment.engine) (LIT := no_literals)
      Examples.kindField "3" = Ok "3"
  ∧ typeName Examples.lineField = OneLineText
  ∧ (stored ←! storedText (RE := Fragment.engine) (LIT := no_literals)
                 Examples.lineField "a<br />b";
     formatEditorText (RE := Fragment.engine) (LIT := no_literals)
       Examples.lineField stored)
    = Ok (firstLine "a<br />b")
  ∧ CombinationField_storedText Examples.tagsField "blue/red" = Ok "red/blue"
  ∧ (∀ t, t ∈ ChoiceField_splitText "red/blue" ↔ t ∈ ["red"; "blue"])
  ∧ Sax.escape (Sax.unescape "red/blue") = "red/blue"
  ∧ CombinationField_formatEditorText Examples.tagsField "red/blue"
    = Ok (Sax.unescape "red/blue")
  ∧ CombinationField_storedText Examples.tagsField (Sax.unescape "red/blue")
    = Ok "red/blue".
Proof.
  assert (exactRoundTrip (typeName Examples.kindField)) as Hexact
    by (apply (bool_decide_unpack _); exact I).
  assert (field_ok (RE := Fragment.engine) Examples.kindField) as Hok
    by (intros Ht; discriminate Ht).
  destruct (storedText_formatEditorText_round_trip (RE := Fragment.engine)
              (LIT := no_literals)) as (Hround & Hline & Hcomb).
  split; [exact Hexact|]. split; [exact Hok|]. split; [reflexivity|].
  split; [exact (proj1 (Hround Examples.kindField "3" "3" Hexact Hok eq_refl))|].
  split; [reflexivity|].
  split; [exact (proj1 (Hline Examples.lineField "a<br />b" eq_refl))|].
  assert (∀ t, t ∈ ChoiceField_splitText "red/blue" ↔ t ∈ ["red"; "blue"])
    as Hsplit by (intros t; split; intros Ht; exact Ht).
  split; [reflexivity|]. split; [exact Hsplit|]. split; [reflexivity|].
  exact (proj2 (Hcomb (set_class (TextField_init "Tags") Combination)
                  "red/green/blue" "blue/red" "red/blue" eq_refl Hsplit
                  (λ _, eq_refl))).
Defined.

(** A Choice field with the prefix [<] and the suffix [>]: a stored value
    that is not a declared choice is rendered as the marker between the
    prefix and the suffix, which are escaped in an output that is not HTML
    and dropped as markup in a title of an HTML format. *)
Lemma formatOutput_marker_example :
  formatOutput (RE := Fragment.engine) (LIT := no_literals)
    Examples.gradeField "D" false false = Ok "&lt;#####&gt;"
  ∧ formatOutput (RE := Fragment.engine) (LIT := no_literals)
      Examples.gradeField "D" false true = Ok "<#####>"
  ∧ formatOutput (RE := Fragment.engine) (LIT := no_literals)
      Examples.gradeField "D" true false = Ok "<#####>"
  ∧ formatOutput (RE := Fragment.engine) (LIT := no_literals)
      Examples.gradeField "B" false true = Ok "<B>"
  ∧ formatOutput (RE := Fragment.engine) (LIT := no_literals)
      Examples.sizeField "abc" false true = Ok "#####".
Proof. repeat split. Qed.

(** C7 (as stated): a OneLineText field stores the editor text [a<br />b]
    as it is; [formatEditorText] of this stored text is [a], and storing [a]
    gives [a], which is not the stored text [a<br />b]. *)
Lemma OneLineText_round_trip_counterexample :
  storedText (RE := Fragment.engine) (LIT := no_literals)
    Examples.lineField "a<br />b" = Ok "a<br />b"
  ∧ formatEditorText (RE := Fragment.engine) (LIT := no_literals)
      Examples.lineField "a<br />b" = Ok "a"
  ∧ storedText (RE := Fragment.engine) (LIT := no_literals)
      Examples.lineField "a" = Ok "a"
  ∧ "a" ≠ "a<br />b".
Proof. repeat split. discriminate. Qed.

(** A Combination field whose second declared choice begins with the
    separator: the text [storedText] writes for both choices is rejected by
    [formatEditorText], because [joinText] puts three separators in a row and
    [splitText] reads the first two of them as the doubled one. *)
Lemma CombinationField_join_split_slip :
  choiceList Examples.pathsField = ["a"; "/b"]
  ∧ storedText (RE := Fragment.engine) (LIT := no_literals)
      Examples.pathsField "a/ //b" = Ok "a///b"
  ∧ ChoiceField_splitText "a///b" = ["a/"; "b"]
  ∧ formatEditorText (RE := Fragment.engine) (LIT := no_literals)
      Examples.pathsField "a///b" = Raise ValueError.
Proof. repeat split. Qed.

(** The example fields are what the constructor, [changeType], [setFormat]
    and the assignment of a prefix and a suffix make. *)
Lemma example_fields_made :
  changeType (RE := Fragment.engine) (TextField_init "Kind") Choice
  = Ok Examples.kindField
  ∧ changeType (RE := Fragment.engine) (TextField_init "Line") OneLineText
    = Ok Examples.lineField
  ∧ changeType (RE := Fragment.engine) (TextField_init "Size") Number
    = Ok Examples.sizeField
  ∧ changeType (RE := Fragment.engine) (TextField_init "Done") Boolean
    = Ok Examples.doneField
  ∧ (field ←! changeType (RE := Fragment.engine) (TextField_init "Tags")
                Combination;
     setFormat (RE := Fragment.engine) field "red/green/blue")
    = Ok Examples.tagsField
  ∧ (field ←! changeType (RE := Fragment.engine) (TextField_init "Paths")
                Combination;
     setFormat (RE := Fragment.engine) field "a/ //b")
    = Ok Examples.pathsField
  ∧ (field ←! changeType (RE := Fragment.engine) (TextField_init "Grade") Choice;
     field ←! setFormat (RE := Fragment.engine) field "A/B/C";
     Ok (set_prefix_suffix field "<" ">"))
    = Ok Examples.gradeField.
Proof. repeat split. Qed.

Lemma codeField_made (format' : string) :
  Fragment.compile format' ≠ None →
  (field ←! changeType (RE := Fragment.engine) (TextField_init "Code")
              RegularExpression;
   setFormat (RE := Fragment.engine) field format')
  = Ok (Examples.codeField format').
Proof.
  intros Hc. unfold changeType. cbn. unfold RegularExpressionField_setFormat. cbn.
  rewrite bool_decide_eq_true_2; [done|].
  destruct (Fragment.compile format'); [eauto|by destruct Hc].
Qed.

Lemma codeField_ok (format' : string) :
  Fragment.compile format' ≠ None →
  field_ok (RE := Fragment.engine) (Examples.codeField format').
Proof.
  intros Hc _. apply bool_decide_eq_true_2. cbn [format Examples.codeField set_format].
  destruct (Fragment.compile format'); [eauto|by destruct Hc].
Qed.

(** C6 (as amended): for a RegularExpression field whose format compiles,
    [storedText] accepts a non-empty editor text exactly when the format
    matches at position 0 of the editor text, and [formatEditorText] accepts
    a non-empty stored text exactly when the format matches at position 0 of
    the text it validates, which is the stored text itself when [evalHtml]
    is set and the stored text with its entities unescaped otherwise; a
    rejected text raises the validation error.  The match need not reach the
    end of the text: with the format [ab.*] the editor text [abXYZextra] is
    stored, and with the format [ab] the editor text [abXYZ] is stored
    although the match ends after [ab]. *)
Theorem RegularExpressionField_prefix_match :
  (∀ (RE : ReEngine) (LIT : Literals) (self : Field) (editorText : string),
     typeName self = RegularExpression → field_ok self → editorText ≠ "" →
     storedText self editorText
     = if bool_decide (is_Some (re_match (format self) editorText))
       then Ok (if evalHtml self then editorText else Sax.escape editorText)
       else Raise ValueError)
  ∧ (∀ (RE : ReEngine) (LIT : Literals) (self : Field) (storedText : string),
       typeName self = RegularExpression → field_ok self → storedText ≠ "" →
       let text := if evalHtml self then storedText else Sax.unescape storedText in
       formatEditorText self storedText
       = if bool_decide (is_Some (re_match (format self) text))
         then Ok text else Raise ValueError)
  ∧ storedText (RE := Fragment.engine) (LIT := no_literals)
      (Examples.codeField "ab.*") "abXYZextra" = Ok "abXYZextra"
  ∧ (storedText (RE := Fragment.engine) (LIT := no_literals)
       (Examples.codeField "ab") "abXYZ" = Ok "abXYZ"
     ∧ Fragment.match_at_0 "ab" "abXYZ" = Some ["ab"]).
Proof.
  split; [intros; by apply RegularExpressionField_storedText_spec|].
  split; [intros; by apply RegularExpressionField_formatEditorText_spec|].
  split; [reflexivity|]. split; reflexivity.
Qed.

Lemma RegularExpressionField_prefix_match_witness :
  typeName (Examples.codeField "ab.*") = RegularExpression
  ∧ field_ok (RE := Fragment.engine) (Examples.codeField "ab.*")
  ∧ "abXYZextra" ≠ ""
  ∧ storedText (RE := Fragment.engine) (LIT := no_literals)
      (Examples.codeField "ab.*") "abXYZextra"
    = Ok "abXYZextra"
  ∧ formatEditorText (RE := Fragment.engine) (LIT := no_literals)
      (Examples.codeField "ab.*") "abXYZextra"
    = Ok "abXYZextra".
Proof.
  assert (field_ok (RE := Fragment.engine) (Examples.codeField "ab.*")) as Hok
    by (intros _; reflexivity).
  assert ("abXYZextra" ≠ "") as Hne by discriminate.
  split; [reflexivity|]. split; [exact Hok|]. split; [exact Hne|].
  destruct RegularExpressionField_prefix_match as (Hstore & Hedit & _).
  split.
  - exact (Hstore Fragment.engine no_literals (Examples.codeField "ab.*")
             "abXYZextra" eq_refl Hok Hne).
  - exact (Hedit Fragment.engine no_literals (Examples.codeField "ab.*")
             "abXYZextra" eq_refl Hok Hne).
Defined.

(** C6 (as stated): with the format [a&b], [formatEditorText] accepts the
    stored text [a&amp;b], which [storedText] wrote for the editor text
    [a&b], although the format does not match at position 0 of that
    input. *)
Lemma RegularExpressionField_input_counterexample :
  storedText (RE := Fragment.engine) (LIT := no_literals)
    (Examples.codeField "a&b") "a&b"
  = Ok "a&amp;b"
  ∧ formatEditorText (RE := Fragment.engine) (LIT := no_literals)
      (Examples.codeField "a&b") "a&amp;b"
    = Ok "a&b"
  ∧ re_match (ReEngine := Fragment.engine) (format (Examples.codeField "a&b"))
      "a&amp;b" = None.
Proof. repeat split. Qed.

(** ** Title extraction *)

Lemma titleScan_fold (segs : list Segment) (fields : list Field)
    (pattern extraText : string) :
  foldl titleScan_step (fields, pattern, extraText) segs
  = (fields ++ segFields segs,
     pattern +:+ Str.concat (segPattern <$> segs),
     extraText +:+ Str.concat (segText <$> segs)).
Proof.
  revert fields pattern extraText.
  induction segs as [|seg segs IH]; intros fields pattern extraText.
  { cbn. by rewrite app_nil_r, !append_nil_r. }
  cbn [foldl]. destruct seg as [field|text]; cbn [titleScan_step]; rewrite IH.
  - cbn. by rewrite <- app_assoc, append_assoc.
  - cbn [segFields omap list_omap fmap list_fmap Str.concat segPattern segText].
    by rewrite !append_assoc.
Qed.

Lemma titleScan_spec (segs : list Segment) :
  titleScan segs
  = (segFields segs, Str.concat (segPattern <$> segs),
     Str.concat (segText <$> segs)).
Proof. unfold titleScan. by rewrite titleScan_fold. Qed.

Section ExtractProperties.

Context {RE : ReEngine} {LIT : Literals}.

Lemma assignGroups_ok (fields : list Field) (conversions : list (string * string)) :
  Forall2 (λ field c, storedTextFromTitle field c.1 = Ok c.2) fields conversions →
  ∀ (before : list string) (num : nat) (data : gmap string string),
    length before = S num →
    assignGroups (before ++ conversions.*1) num fields data
    = (Ok tt, writeAll fields conversions data).
Proof.
  induction 1 as [|field c fields conversions Hc _ IH];
    intros before num data Hlen; [done|].
  cbn [assignGroups fmap list_fmap].
  replace (num + 1) with (length before) by lia.
  rewrite list_lookup_middle by done. rewrite Hc.
  rewrite (cons_middle c.1), app_assoc.
  rewrite IH by (rewrite length_app; cbn; lia). done.
Qed.

(** White space *)

Lemma rstrip_cons_nonspace (c : ascii) (s : string) :
  Str.isspace c = false → Str.rstrip (String c s) ≠ "".
Proof. intros Hc. cbn [Str.rstrip]. rewrite Hc. by destruct (Str.rstrip s). Qed.

Lemma strip_empty_iff (s : string) : Str.strip s = "" ↔ all_space s = true.
Proof.
  unfold Str.strip. induction s as [|c s IH]; [done|].
  cbn [Str.lstrip all_space]. destruct (Str.isspace c) eqn:Hc; [done|].
  split; [|done]. intros Hs. by apply rstrip_cons_nonspace in Hs.
Qed.

Lemma all_space_app (a b : string) :
  all_space (a +:+ b) = all_space a && all_space b.
Proof.
  induction a as [|c a IH]; [done|].
  rewrite append_String. cbn [all_space]. by rewrite IH, andb_assoc.
Qed.

Lemma all_space_concat (l : list string) :
  Forall (λ text, all_space text = true) l → all_space (Str.concat l) = true.
Proof.
  induction 1 as [|x l Hx _ IH]; [done|].
  cbn [Str.concat]. by rewrite all_space_app, Hx, IH.
Qed.

Lemma titleExtraText_whitespace (self : NodeFormat) :
  (∀ text, SegText text ∈ titleLine self → whitespace_only text) →
  Str.strip (titleExtraText self) = "".
Proof.
  intros Hws. unfold titleExtraText. rewrite titleScan_spec. cbn [snd].
  apply strip_empty_iff, all_space_concat, Forall_fmap, Forall_forall.
  intros [field|text] Hin; [done|]. cbn. by apply strip_empty_iff, Hws.
Qed.

Lemma segFields_elem (segs : list Segment) (field : Field) :
  SegField field ∈ segs → field ∈ segFields segs.
Proof. intros Hin. apply list_elem_of_omap. by exists (SegField field). Qed.

Lemma clearFields_lookup (fields : list Field) (data : gmap string string)
    (key : string) :
  clearFields fields data !! key
  = if bool_decide (key ∈ name <$> fields) then Some "" else data !! key.
Proof.
  revert data. induction fields as [|field fields IH]; intros data.
  { cbn. by rewrite bool_decide_eq_false_2 by apply not_elem_of_nil. }
  change (clearFields (field :: fields) data)
    with (clearFields fields (<[name field := ""]> data)).
  rewrite IH, fmap_cons. case_bool_decide as Hin.
  - by rewrite bool_decide_eq_true_2 by (by apply list_elem_of_further).
  - destruct (decide (key = name field)) as [->|Hne].
    + rewrite lookup_insert_eq.
      by rewrite bool_decide_eq_true_2 by apply list_elem_of_here.
    + rewrite lookup_insert_ne by done.
      rewrite bool_decide_eq_false_2; [done|].
      rewrite elem_of_cons. tauto.
Qed.

Lemma extractTitleData_unfold (self : NodeFormat) (titleString : string)
    (data : gmap string string) :
  extractTitleData self titleString data
  = match py_re_match (titlePattern self) titleString with
    | Raise e => (Raise e, data)
    | Ok match_ =>
        let '(r, data) :=
          extractTitleData_try (segFields (titleLine self)) (titleExtraText self)
            match_ titleString data in
        (except_ValueError r (Ok false), data)
    end.
Proof.
  unfold extractTitleData, titlePattern, titleExtraText.
  by rewrite titleScan_spec.
Qed.

(** C5 (as amended): for a node format whose title line has at least one
    field segment and whose literal segments are white space only, if the
    pattern does not match the title string then [extractTitleData] hands
    the whole title string to the first field's [storedTextFromTitle];
    when that accepts it, the result is written under the first field's
    name, the empty text is then written under the name of every later
    field segment, and [True] is returned; when it raises the validation
    error, [False] is returned and the data are as before. *)
Theorem extractTitleData_whitespace_fallback (self : NodeFormat)
    (titleString : string) (data : gmap string string) :
  (∃ field, SegField field ∈ titleLine self) →
  (∀ text, SegText text ∈ titleLine self → whitespace_only text) →
  py_re_match (titlePattern self) titleString = Ok None →
  ∃ (field0 : Field) (fields' : list Field),
    segFields (titleLine self) = field0 :: fields'
    ∧ (∀ text, storedTextFromTitle field0 titleString = Ok text →
         ∃ data', extractTitleData self titleString data = (Ok true, data')
           ∧ ∀ key, data' !! key
               = if bool_decide (key ∈ name <$> fields') then Some ""
                 else if bool_decide (key = name field0) then Some text
                 else data !! key)
    ∧ (storedTextFromTitle field0 titleString = Raise ValueError →
         extractTitleData self titleString data = (Ok false, data)).
Proof.
  intros [field Hfield] Hws Hmatch.
  apply segFields_elem in Hfield.
  destruct (segFields (titleLine self)) as [|field0 fields'] eqn:Hfields;
    [by apply elem_of_nil in Hfield|].
  exists field0, fields'. split; [done|].
  rewrite extractTitleData_unfold, Hmatch, Hfields.
  unfold extractTitleData_try.
  rewrite (titleExtraText_whitespace self Hws). cbn [Str.truthy negb].
  split.
  - intros text ->. eexists. split; [done|]. intros key.
    rewrite clearFields_lookup. case_bool_decide; [done|].
    case_bool_decide as Hkey; [subst; by rewrite lookup_insert_eq|].
    by rewrite lookup_insert_ne.
  - by intros ->.
Qed.

Lemma extractTitleData_matched (self : NodeFormat) (titleString whole : string)
    (conversions : list (string * string)) (data : gmap string string) :
  py_re_match (titlePattern self) titleString
  = Ok (Some (whole :: conversions.*1)) →
  Forall2 (λ field c, storedTextFromTitle field c.1 = Ok c.2)
    (segFields (titleLine self)) conversions →
  extractTitleData self titleString data
  = (Ok true, writeAll (segFields (titleLine self)) conversions data).
Proof.
  intros Hmatch Hconv. rewrite extractTitleData_unfold, Hmatch.
  unfold extractTitleData_try.
  pose proof (assignGroups_ok _ _ Hconv [whole] 0 data eq_refl) as Hassign.
  cbn [app] in Hassign. by rewrite Hassign.
Qed.

Lemma extractTitleData_unmatched (self : NodeFormat) (titleString : string)
    (data : gmap string string) :
  py_re_match (titlePattern self) titleString = Ok None →
  ¬ whitespace_only (titleExtraText self) →
  extractTitleData self titleString data = (Ok false, data).
Proof.
  intros Hmatch Hws. rewrite extractTitleData_unfold, Hmatch.
  unfold extractTitleData_try.
  destruct (Str.strip (titleExtraText self)) eqn:Hs; [by destruct Hws|done].
Qed.

Lemma extractTitleData_unmatched_False (self : NodeFormat) (titleString : string)
    (data data' : gmap string string) :
  py_re_match (titlePattern self) titleString = Ok None →
  extractTitleData self titleString data = (Ok false, data') →
  data' = data.
Proof.
  intros Hmatch. rewrite extractTitleData_unfold, Hmatch.
  unfold extractTitleData_try.
  destruct (negb (Str.truthy (Str.strip (titleExtraText self))));
    [|by intros [= <-]].
  destruct (segFields (titleLine self)) as [|field0 fields']; [done|].
  destruct (storedTextFromTitle field0 titleString) as [text|[]]; cbn;
    by intros [= <-].
Qed.

(** Whatever the outcome, only keys that name a field of the title line
    are written. *)
Lemma assignGroups_frame (groups : list string) (fields : list Field) (key : string) :
  key ∉ name <$> fields →
  ∀ (num : nat) (data : gmap string string),
    (assignGroups groups num fields data).2 !! key = data !! key.
Proof.
  induction fields as [|field fields IH]; intros Hkey num data; [done|].
  rewrite fmap_cons, not_elem_of_cons in Hkey. destruct Hkey as [Hne Hkey].
  cbn [assignGroups]. destruct (groups !! (num + 1)) as [text|]; [|done].
  destruct (storedTextFromTitle field text) as [stored|e]; [|done].
  rewrite IH by done. by rewrite lookup_insert_ne.
Qed.

Lemma extractTitleData_frame (self : NodeFormat) (titleString key : string)
    (data : gmap string string) :
  key ∉ name <$> segFields (titleLine self) →
  (extractTitleData self titleString data).2 !! key = data !! key.
Proof.
  intros Hkey. rewrite extractTitleData_unfold.
  destruct (py_re_match (titlePattern self) titleString) as [[groups|]|e];
    [| |done]; unfold extractTitleData_try.
  - pose proof (assignGroups_frame groups _ key Hkey 0 data) as Hframe.
    by destruct (assignGroups groups 0 (segFields (titleLine self)) data).
  - destruct (negb (Str.truthy (Str.strip (titleExtraText self)))); [|done].
    destruct (segFields (titleLine self)) as [|field0 fields']; [done|].
    rewrite fmap_cons, not_elem_of_cons in Hkey. destruct Hkey as [Hne Hkey].
    destruct (storedTextFromTitle field0 titleString) as [text|e]; [|done].
    cbn [snd]. rewrite clearFields_lookup.
    rewrite bool_decide_eq_false_2 by done. by rewrite lookup_insert_ne.
Qed.

End ExtractProperties.

(** The title lines of the example node formats, as [parseLine] reads
    them. *)
Lemma example_titleLines :
  titleLine Examples.nameKind
  = [SegField Examples.nameField; SegText ": "; SegField Examples.kindField]
  ∧ titleLine Examples.nameDraft = [SegField Examples.nameField; SegText " (draft)"]
  ∧ titleLine Examples.nameTag
    = [SegField Examples.nameField; SegText " "; SegField Examples.tagField]
  ∧ titleLine Examples.kindTag
    = [SegField Examples.kindField; SegText " "; SegField Examples.tagField]
  ∧ titleLine Examples.nameCode
    = [SegField Examples.nameField; SegText ": ";
       SegField (Examples.codeField "ab.*")].
Proof. repeat split. Qed.

Lemma example_titlePatterns :
  titlePattern Examples.nameKind = "(.*):\ (.*)"
  ∧ titlePattern Examples.nameDraft = "(.*)\ \(draft\)"
  ∧ titlePattern Examples.nameTag = "(.*)\ (.*)"
  ∧ titlePattern Examples.kindTag = "(.*)\ (.*)".
Proof. repeat split. Qed.

Lemma extractTitleData_whitespace_fallback_witness :
  (∃ field, SegField field ∈ titleLine Examples.nameTag)
  ∧ (∀ text, SegText text ∈ titleLine Examples.nameTag → whitespace_only text)
  ∧ py_re_match (RE := Fragment.engine) (titlePattern Examples.nameTag) "Hello"
    = Ok None
  ∧ ∃ (field0 : Field) (fields' : list Field),
      segFields (titleLine Examples.nameTag) = field0 :: fields'
      ∧ (∀ text,
           storedTextFromTitle (RE := Fragment.engine) (LIT := no_literals)
             field0 "Hello" = Ok text →
           ∃ data',
             extractTitleData (RE := Fragment.engine) (LIT := no_literals)
               Examples.nameTag "Hello" {[ "Tag" := "old" ]} = (Ok true, data')
             ∧ ∀ key, data' !! key
                 = if bool_decide (key ∈ name <$> fields') then Some ""
                   else if bool_decide (key = name field0) then Some text
                   else ({[ "Tag" := "old" ]} : gmap string string) !! key)
      ∧ (storedTextFromTitle (RE := Fragment.engine) (LIT := no_literals)
           field0 "Hello" = Raise ValueError →
         extractTitleData (RE := Fragment.engine) (LIT := no_literals)
           Examples.nameTag "Hello" {[ "Tag" := "old" ]}
         = (Ok false, {[ "Tag" := "old" ]})).
Proof.
  assert (∃ field, SegField field ∈ titleLine Examples.nameTag) as Hfield.
  { exists Examples.nameField. apply list_elem_of_here. }
  assert (∀ text, SegText text ∈ titleLine Examples.nameTag → whitespace_only text)
    as Hws.
  { intros text Hin. apply list_elem_of_In in Hin.
    destruct Hin as [Hin|[Hin|[Hin|[]]]]; [discriminate Hin| |discriminate Hin].
    injection Hin as <-. reflexivity. }
  split; [exact Hfield|]. split; [exact Hws|]. split; [reflexivity|].
  exact (extractTitleData_whitespace_fallback (RE := Fragment.engine)
           (LIT := no_literals) Examples.nameTag "Hello" {[ "Tag" := "old" ]}
           Hfield Hws eq_refl).
Defined.

(** The fallback on the example: the whole title goes to [Name], and [Tag]
    is cleared. *)
Lemma extractTitleData_fallback_example :
  extractTitleData (RE := Fragment.engine) (LIT := no_literals)
    Examples.nameTag "Hello" {[ "Tag" := "old" ]}
  = (Ok true, {[ "Name" := "Hello"; "Tag" := "" ]})
  ∧ extractTitleData (RE := Fragment.engine) (LIT := no_literals)
      Examples.nameTag "Hello World" {[ "Tag" := "old" ]}
    = (Ok true, {[ "Name" := "Hello"; "Tag" := "World" ]}).
Proof. split; reflexivity. Qed.

(** C5 (as stated): the title line [{*Kind*} {*Tag*}] has a field segment
    and a literal of one space; the title string [9] has no space, so the
    pattern does not match it; [9] is not a declared choice of [Kind], and
    [extractTitleData] returns [False], leaving the data as they were. *)
Lemma extractTitleData_fallback_counterexample :
  titleLine Examples.kindTag
  = [SegField Examples.kindField; SegText " "; SegField Examples.tagField]
  ∧ py_re_match (RE := Fragment.engine) (titlePattern Examples.kindTag) "9"
    = Ok None
  ∧ storedTextFromTitle (RE := Fragment.engine) (LIT := no_literals)
      Examples.kindField "9" = Raise ValueError
  ∧ extractTitleData (RE := Fragment.engine) (LIT := no_literals)
      Examples.kindTag "9" {[ "Kind" := "1" ]}
    = (Ok false, {[ "Kind" := "1" ]}).
Proof. repeat split. Qed.

(** C1 (the code at the failing input): with the title line
    [{*Name*}: {*Kind*}] and the title string [Trip: 9], the pattern matches,
    [Trip] is written under [Name], then [9] is rejected by the Choice field
    [Kind]; [extractTitleData] returns [False] and the data keep the new
    value of [Name].  The same happens with the title line
    [{*Name*}: {*Code*}] and the title string [Trip: zz], where [zz] is
    rejected by the RegularExpression field [Code] of format [ab.*].  The
    other paths to [False] do what the claim says:
    when the pattern does not match, a call that returns [False] leaves the
    data as they were.  In every case the keys that do not name a field of
    the title line keep their values. *)
Theorem extractTitleData_partial_write :
  (extractTitleData (RE := Fragment.engine) (LIT := no_literals)
     Examples.nameKind "Trip: 9" {[ "Name" := "Old"; "Kind" := "1" ]}
   = (Ok false, {[ "Name" := "Trip"; "Kind" := "1" ]})
   ∧ ({[ "Name" := "Trip"; "Kind" := "1" ]} : gmap string string)
     ≠ {[ "Name" := "Old"; "Kind" := "1" ]})
  ∧ extractTitleData (RE := Fragment.engine) (LIT := no_literals)
      Examples.nameCode "Trip: zz" {[ "Name" := "Old"; "Code" := "abc" ]}
    = (Ok false, {[ "Name" := "Trip"; "Code" := "abc" ]})
  ∧ (∀ (RE : ReEngine) (LIT : Literals) (self : NodeFormat)
       (titleString : string) (data data' : gmap string string),
       py_re_match (titlePattern self) titleString = Ok None →
       extractTitleData self titleString data = (Ok false, data') →
       data' = data)
  ∧ (∀ (RE : ReEngine) (LIT : Literals) (self : NodeFormat)
       (titleString key : string) (data : gmap string string),
       key ∉ name <$> segFields (titleLine self) →
       (extractTitleData self titleString data).2 !! key = data !! key).
Proof.
  split; [|split; [reflexivity|split;
    [intros; by eapply extractTitleData_unmatched_False
    |intros; by apply extractTitleData_frame]]].
  split; [reflexivity|]. intros Heq.
  assert (({[ "Name" := "Trip"; "Kind" := "1" ]} : gmap string string) !! "Name"
          = ({[ "Name" := "Old"; "Kind" := "1" ]} : gmap string string) !! "Name")
    as Hname by (by rewrite Heq).
  vm_compute in Hname. discriminate Hname.
Qed.

Lemma extractTitleData_partial_write_witness :
  py_re_match (RE := Fragment.engine) (titlePattern Examples.kindTag) "9" = Ok None
  ∧ extractTitleData (RE := Fragment.engine) (LIT := no_literals)
      Examples.kindTag "9" {[ "Kind" := "1" ]}
    = (Ok false, {[ "Kind" := "1" ]})
  ∧ ({[ "Kind" := "1" ]} : gmap string string) = {[ "Kind" := "1" ]}
  ∧ ("Date" ∉ name <$> segFields (titleLine Examples.nameKind))
  ∧ (extractTitleData (RE := Fragment.engine) (LIT := no_literals)
       Examples.nameKind "Trip: 9" {[ "Date" := "May" ]}).2 !! "Date"
    = ({[ "Date" := "May" ]} : gmap string string) !! "Date".
Proof.
  assert ("Date" ∉ name <$> segFields (titleLine Examples.nameKind)) as Hkey
    by (apply (bool_decide_unpack _); exact I).
  split; [reflexivity|]. split; [reflexivity|].
  destruct extractTitleData_partial_write as (_ & _ & Hsame & Hframe).
  split.
  { exact (Hsame Fragment.engine no_literals Examples.kindTag "9"
             {[ "Kind" := "1" ]} {[ "Kind" := "1" ]} eq_refl eq_refl). }
  split; [exact Hkey|].
  exact (Hframe Fragment.engine no_literals Examples.nameKind "Trip: 9" "Date"
           {[ "Date" := "May" ]} Hkey).
Defined.

(** ** The engine of the examples on title patterns *)

Lemma re_special_lex (c : ascii) :
  if re_special c then Fragment.is_alnum c = false
  else Ascii.eqb c "\" = false ∧ Ascii.eqb c "." = false ∧ Ascii.eqb c "*" = false
       ∧ Ascii.eqb c "(" = false ∧ Ascii.eqb c ")" = false
       ∧ Fragment.unsupported c = false.
Proof. destruct c as [[] [] [] [] [] [] [] []]; vm_compute; tauto. Qed.

Lemma lex_re_escape (text rest : string) :
  Fragment.lex false (re_escape text +:+ rest)
  = (literalTokens text ++.) <$> Fragment.lex false rest.
Proof.
  induction text as [|c text IH].
  { rewrite append_nil_l. by destruct (Fragment.lex false rest). }
  cbn [re_escape literalTokens]. pose proof (re_special_lex c) as Hc.
  destruct (re_special c).
  - rewrite !append_String. cbn [Fragment.lex]. change (Ascii.eqb "\" "\") with true.
    cbn match. rewrite Hc, IH. by destruct (Fragment.lex false rest).
  - destruct Hc as (H1 & H2 & H3 & H4 & H5 & H6).
    rewrite append_String. cbn [Fragment.lex].
    rewrite H1, H2, H3, H4, H5, H6, IH. by destruct (Fragment.lex false rest).
Qed.

Lemma lex_group (rest : string) :
  Fragment.lex false ("(.*)" +:+ rest)
  = (segTokens (SegField Examples.nameField) ++.) <$> Fragment.lex false rest.
Proof.
  rewrite !append_String, append_nil_l. cbn [Fragment.lex].
  change (Ascii.eqb "(" "\") with false.
  cbn. by destruct (Fragment.lex false rest).
Qed.

Lemma lex_titlePattern (segs : list Segment) :
  Fragment.lex false (Str.concat (segPattern <$> segs))
  = Some (mjoin (segTokens <$> segs)).
Proof.
  induction segs as [|seg segs IH]; [done|].
  change (Fragment.lex false (segPattern seg +:+ Str.concat (segPattern <$> segs))
          = Some (segTokens seg ++ mjoin (segTokens <$> segs))).
  destruct seg as [field|text]; cbn [segPattern].
  - by rewrite lex_group, IH.
  - by rewrite lex_re_escape, IH.
Qed.

(** An ordinary character is a piece of its own unless a star follows. *)
Lemma parse_atom_cons (a : Fragment.atom) (ts : list Fragment.token) :
  (∀ ts', ts ≠ Fragment.TStar :: ts') →
  Fragment.parse None (Fragment.TAtom a :: ts)
  = cons (Fragment.IPiece (Fragment.POne a)) <$> Fragment.parse None ts.
Proof.
  intros Hts. cbn [Fragment.parse].
  destruct ts as [|[] ts']; try done. by destruct (Hts ts').
Qed.

Lemma literalTokens_no_star (text : string) (ts : list Fragment.token) :
  (∀ ts', ts ≠ Fragment.TStar :: ts') →
  ∀ ts', literalTokens text ++ ts ≠ Fragment.TStar :: ts'.
Proof. intros Hts ts'. destruct text; [apply Hts|done]. Qed.

Lemma parse_literalTokens (text : string) (ts : list Fragment.token) :
  (∀ ts', ts ≠ Fragment.TStar :: ts') →
  Fragment.parse None (literalTokens text ++ ts)
  = (segItems (SegText text) ++.) <$> Fragment.parse None ts.
Proof.
  intros Hts. induction text as [|c text IH].
  { cbn. by destruct (Fragment.parse None ts). }
  cbn [literalTokens app].
  rewrite parse_atom_cons by (by apply literalTokens_no_star).
  rewrite IH. cbn. by destruct (Fragment.parse None ts).
Qed.

Lemma parse_group (ts : list Fragment.token) :
  Fragment.parse None (segTokens (SegField Examples.nameField) ++ ts)
  = (segItems (SegField Examples.nameField) ++.) <$> Fragment.parse None ts.
Proof. cbn. by destruct (Fragment.parse None ts). Qed.

Lemma segTokens_no_star (segs : list Segment) :
  ∀ ts', mjoin (segTokens <$> segs) ≠ Fragment.TStar :: ts'.
Proof.
  induction segs as [|[field|text] segs IH]; intros ts'; [done|done|].
  change (literalTokens text ++ mjoin (segTokens <$> segs) ≠ Fragment.TStar :: ts').
  by apply literalTokens_no_star.
Qed.

Lemma parse_titlePattern (segs : list Segment) :
  Fragment.parse None (mjoin (segTokens <$> segs))
  = Some (mjoin (segItems <$> segs)).
Proof.
  induction segs as [|seg segs IH]; [done|].
  change (Fragment.parse None (segTokens seg ++ mjoin (segTokens <$> segs))
          = Some (segItems seg ++ mjoin (segItems <$> segs))).
  destruct seg as [field|text].
  - change (segTokens (SegField field)) with (segTokens (SegField Examples.nameField)).
    by rewrite parse_group, IH.
  - cbn [segTokens].
    rewrite parse_literalTokens by apply segTokens_no_star. by rewrite IH.
Qed.

(** The engine compiles the pattern of every title line, to a group of a
    starred dot for each field and the characters of each literal. *)
Lemma Fragment_compiles_titlePattern (self : NodeFormat) :
  Fragment.compile (titlePattern self) = Some (mjoin (segItems <$> titleLine self)).
Proof.
  unfold titlePattern, Fragment.compile. rewrite titleScan_spec. cbn [fst snd].
  rewrite lex_titlePattern. cbn. apply parse_titlePattern.
Qed.


(** The engine finds a match exactly when the title line matches a prefix
    of the text. *)
Lemma match_star_sound {R : Type} (s : string) (k : string → string → option R)
    (r : R) :
  Fragment.match_star Fragment.AAny s k = Some r →
  ∃ m rest, s = m +:+ rest ∧ no_newline m = true ∧ k m rest = Some r.
Proof.
  revert k. induction s as [|c s IH]; intros k Hm.
  { exists "", "". by cbn in Hm. }
  cbn [Fragment.match_star Fragment.atom_matches] in Hm.
  destruct (negb (Ascii.eqb c "010")) eqn:Hc; [|by exists "", (String c s)].
  destruct (Fragment.match_star Fragment.AAny s (λ m rest, k (String c m) rest))
    as [r'|] eqn:Hinner; [|by exists "", (String c s)].
  injection Hm as <-. apply IH in Hinner as (m & rest & -> & Hnl & Hk).
  exists (String c m), rest. cbn [no_newline]. by rewrite Hc, Hnl.
Qed.

Lemma match_star_complete {R : Type} (m rest : string)
    (k : string → string → option R) :
  no_newline m = true → is_Some (k m rest) →
  is_Some (Fragment.match_star Fragment.AAny (m +:+ rest) k).
Proof.
  revert k. induction m as [|c m IH]; intros k Hnl Hk.
  - rewrite append_nil_l. destruct rest as [|c rest]; [done|].
    cbn [Fragment.match_star]. destruct (Fragment.atom_matches _ c); [|done].
    by destruct (Fragment.match_star _ rest _).
  - cbn [no_newline] in Hnl. apply andb_true_iff in Hnl as [Hc Hnl].
    rewrite append_String. cbn [Fragment.match_star Fragment.atom_matches].
    rewrite Hc.
    destruct (IH (λ m rest, k (String c m) rest) Hnl Hk) as [r ->]. by eexists.
Qed.

Lemma match_items_literal (text : string) (its : list Fragment.item)
    {R : Type} (s' : string) (k : string → list string → string → option R) :
  Fragment.match_items (segItems (SegText text) ++ its) (text +:+ s') k
  = Fragment.match_items its s' (λ m groups rest, k (text +:+ m) groups rest).
Proof.
  revert k. induction text as [|c text IH]; intros k; [done|].
  rewrite append_String.
  cbn [segItems list_ascii_of_string fmap list_fmap app Fragment.match_items
       Fragment.match_piece Fragment.atom_matches].
  rewrite Ascii.eqb_refl. apply IH.
Qed.

Lemma match_items_literal_sound (text : string) (its : list Fragment.item)
    {R : Type} (s : string) (k : string → list string → string → option R) (r : R) :
  Fragment.match_items (segItems (SegText text) ++ its) s k = Some r →
  ∃ s', s = text +:+ s'.
Proof.
  revert s k. induction text as [|c text IH]; intros s k Hm; [by exists s|].
  cbn [segItems list_ascii_of_string fmap list_fmap app Fragment.match_items
       Fragment.match_piece Fragment.atom_matches] in Hm.
  destruct s as [|c' s]; [done|].
  destruct (Ascii.eqb_spec c c') as [<-|]; [|done].
  apply IH in Hm as [s' ->]. by exists s'.
Qed.

Lemma match_items_field (field : Field) (its : list Fragment.item)
    {R : Type} (s : string) (k : string → list string → string → option R) :
  Fragment.match_items (segItems (SegField field) ++ its) s k
  = Fragment.match_star Fragment.AAny s (λ m1 rest1,
      Fragment.match_items its rest1 (λ m2 groups rest2,
        k ((m1 +:+ "") +:+ m2) ((m1 +:+ "") :: groups) rest2)).
Proof. reflexivity. Qed.

Lemma title_match_sound (segs : list Segment) {R : Type} (s : string)
    (k : string → list string → string → option R) (r : R) :
  Fragment.match_items (mjoin (segItems <$> segs)) s k = Some r →
  ∃ whole groups rest,
    s = whole +:+ rest ∧ TitleMatch segs whole groups
    ∧ k whole groups rest = Some r.
Proof.
  revert s k. induction segs as [|seg segs IH]; intros s k Hm.
  { exists "", [], s. split; [done|]. split; [constructor|done]. }
  change (mjoin (segItems <$> seg :: segs))
    with (segItems seg ++ mjoin (segItems <$> segs)) in Hm.
  destruct seg as [field|text].
  - rewrite match_items_field in Hm.
    apply match_star_sound in Hm as (g & rest1 & -> & Hnl & Hm).
    apply IH in Hm as (m & groups & rest & -> & Hmatch & Hk).
    rewrite append_nil_r in Hk.
    exists (g +:+ m), (g :: groups), rest.
    split; [by rewrite append_assoc|]. split; [by constructor|done].
  - destruct (match_items_literal_sound _ _ _ _ _ Hm) as [s' ->].
    rewrite match_items_literal in Hm.
    apply IH in Hm as (m & groups & rest & -> & Hmatch & Hk).
    exists (text +:+ m), groups, rest.
    split; [by rewrite append_assoc|]. split; [by constructor|done].
Qed.

Lemma title_match_complete (segs : list Segment) (whole : string)
    (groups : list string) :
  TitleMatch segs whole groups →
  ∀ {R : Type} (rest : string) (k : string → list string → string → option R),
    is_Some (k whole groups rest) →
    is_Some (Fragment.match_items (mjoin (segItems <$> segs)) (whole +:+ rest) k).
Proof.
  induction 1 as [|field segs g m groups Hnl _ IH|text segs m groups _ IH];
    intros R rest k Hk; [done| |].
  - change (mjoin (segItems <$> SegField field :: segs))
      with (segItems (SegField field) ++ mjoin (segItems <$> segs)).
    rewrite match_items_field, append_assoc.
    apply match_star_complete; [done|]. apply IH. by rewrite append_nil_r.
  - change (mjoin (segItems <$> SegText text :: segs))
      with (segItems (SegText text) ++ mjoin (segItems <$> segs)).
    rewrite append_assoc, match_items_literal. by apply IH.
Qed.

(** On the pattern of a title line the engine answers a match exactly when
    the title line matches a prefix of the text, and the groups it answers
    are those of such a match. *)
Lemma Fragment_title_match (self : NodeFormat) (titleString : string) :
  (∀ whole groups,
     Fragment.match_at_0 (titlePattern self) titleString = Some (whole :: groups) →
     TitleMatch (titleLine self) whole groups
     ∧ ∃ rest, titleString = whole +:+ rest)
  ∧ (is_Some (Fragment.match_at_0 (titlePattern self) titleString)
     ↔ ∃ whole groups rest,
         titleString = whole +:+ rest ∧ TitleMatch (titleLine self) whole groups).
Proof.
  unfold Fragment.match_at_0. rewrite Fragment_compiles_titlePattern. cbn [mbind option_bind].
  split.
  - intros whole groups Hm.
    apply title_match_sound in Hm as (w & gs & rest & -> & Hmatch & [= <- <-]).
    split; [done|by exists rest].
  - split.
    + intros [r Hm].
      apply title_match_sound in Hm as (w & gs & rest & -> & Hmatch & _).
      by exists w, gs, rest.
    + intros (w & gs & rest & -> & Hmatch).
      by apply (title_match_complete _ _ _ Hmatch).
Qed.

(** C4 (as amended): the pattern of [extractTitleData] is the concatenation,
    over the segments of the title line, of the capturing group of a starred
    dot for a field segment and of the escaped text for a literal segment.
    Field values are extracted from the groups when [re.match] finds the
    pattern at position 0 of the
    title string, whether or not the match reaches the end of the title
    string: with the title line [{*Name*} (draft)], the title string
    [Report (draft) v2] is matched up to [Report (draft)] only, and [Report]
    is stored under [Name].  When the pattern does not match and the literal
    text is not white space only, nothing is extracted and [False] is
    returned.  For the engine of the examples, the pattern is found exactly
    when the title line matches some prefix of the title string, each field
    taking characters other than the line feed. *)
Theorem extractTitleData_match_at_start :
  (∀ self : NodeFormat,
     titlePattern self = Str.concat (segPattern <$> titleLine self))
  ∧ (∀ (RE : ReEngine) (LIT : Literals) (self : NodeFormat)
       (titleString whole : string) (conversions : list (string * string))
       (data : gmap string string),
       py_re_match (titlePattern self) titleString
       = Ok (Some (whole :: conversions.*1)) →
       Forall2 (λ field c, storedTextFromTitle field c.1 = Ok c.2)
         (segFields (titleLine self)) conversions →
       extractTitleData self titleString data
       = (Ok true, writeAll (segFields (titleLine self)) conversions data))
  ∧ (∀ (RE : ReEngine) (LIT : Literals) (self : NodeFormat)
       (titleString : string) (data : gmap string string),
       py_re_match (titlePattern self) titleString = Ok None →
       ¬ whitespace_only (titleExtraText self) →
       extractTitleData self titleString data = (Ok false, data))
  ∧ (py_re_match (RE := Fragment.engine) (titlePattern Examples.nameDraft)
       "Report (draft) v2"
     = Ok (Some ["Report (draft)"; "Report"])
     ∧ extractTitleData (RE := Fragment.engine) (LIT := no_literals)
         Examples.nameDraft "Report (draft) v2" ∅
       = (Ok true, {[ "Name" := "Report" ]}))
  ∧ (∀ (self : NodeFormat) (titleString : string),
       is_Some (re_match (ReEngine := Fragment.engine) (titlePattern self)
                  titleString)
       ↔ ∃ whole groups rest,
           titleString = whole +:+ rest
           ∧ TitleMatch (titleLine self) whole groups).
Proof.
  split.
  { intros self. unfold titlePattern. by rewrite titleScan_spec. }
  split; [intros; by eapply extractTitleData_matched|].
  split; [intros; by apply extractTitleData_unmatched|].
  split; [split; reflexivity|].
  intros self titleString. apply Fragment_title_match.
Qed.

Lemma extractTitleData_match_at_start_witness :
  py_re_match (RE := Fragment.engine) (titlePattern Examples.nameKind) "Trip: 3"
  = Ok (Some ("Trip: 3" :: [("Trip", "Trip"); ("3", "3")].*1))
  ∧ Forall2 (λ field c,
       storedTextFromTitle (RE := Fragment.engine) (LIT := no_literals) field c.1
       = Ok c.2)
      (segFields (titleLine Examples.nameKind)) [("Trip", "Trip"); ("3", "3")]
  ∧ extractTitleData (RE := Fragment.engine) (LIT := no_literals)
      Examples.nameKind "Trip: 3" ∅
    = (Ok true,
       writeAll (segFields (titleLine Examples.nameKind))
         [("Trip", "Trip"); ("3", "3")] ∅)
  ∧ py_re_match (RE := Fragment.engine) (titlePattern Examples.nameKind) "Trip"
    = Ok None
  ∧ ¬ whitespace_only (titleExtraText Examples.nameKind)
  ∧ extractTitleData (RE := Fragment.engine) (LIT := no_literals)
      Examples.nameKind "Trip" {[ "Name" := "Old" ]}
    = (Ok false, {[ "Name" := "Old" ]}).
Proof.
  assert (Forall2 (λ field c,
       storedTextFromTitle (RE := Fragment.engine) (LIT := no_literals) field c.1
       = Ok c.2)
      (segFields (titleLine Examples.nameKind)) [("Trip", "Trip"); ("3", "3")])
    as Hconv by (repeat constructor).
  assert (¬ whitespace_only (titleExtraText Examples.nameKind)) as Hws
    by (intros Hws; discriminate Hws).
  split; [reflexivity|]. split; [exact Hconv|].
  destruct extractTitleData_match_at_start as (_ & Hmatched & Hunmatched & _).
  split.
  { exact (Hmatched Fragment.engine no_literals Examples.nameKind "Trip: 3"
             "Trip: 3" [("Trip", "Trip"); ("3", "3")] ∅ eq_refl Hconv). }
  split; [reflexivity|]. split; [exact Hws|].
  exact (Hunmatched Fragment.engine no_literals Examples.nameKind "Trip"
           {[ "Name" := "Old" ]} eq_refl Hws).
Defined.

(** C4 (as stated): with the title line [{*Name*} (draft)] and the title
    string [Report (draft) v2], the pattern matches the proper prefix
    [Report (draft)] only, and yet [Report] is extracted and stored. *)
Lemma extractTitleData_full_match_counterexample :
  titlePattern Examples.nameDraft = "(.*)\ \(draft\)"
  ∧ re_match (ReEngine := Fragment.engine) "(.*)\ \(draft\)" "Report (draft) v2"
    = Some ["Report (draft)"; "Report"]
  ∧ "Report (draft)" ≠ "Report (draft) v2"
  ∧ extractTitleData (RE := Fragment.engine) (LIT := no_literals)
      Examples.nameDraft "Report (draft) v2" ∅
    = (Ok true, {[ "Name" := "Report" ]}).
Proof. repeat split. discriminate. Qed.

(** * Properties of the other methods *)

(** ** Markup and escaped text *)

Lemma no_lt_app (x y : string) : no_lt (x +:+ y) = no_lt x && no_lt y.
Proof.
  induction x as [|c x IH]; [done|].
  rewrite append_String. cbn [no_lt]. by rewrite IH, andb_assoc.
Qed.

Lemma escape_no_lt (s : string) : no_lt (Sax.escape s) = true.
Proof.
  induction s as [|c s IH]; [done|].
  rewrite escape_cons, no_lt_app, IH, andb_true_r. unfold escape_char.
  destruct (Ascii.eqb "&" c); [done|]. destruct (Ascii.eqb ">" c); [done|].
  destruct (Ascii.eqb_spec "<" c) as [<-|Hne]; [done|].
  cbn [no_lt]. rewrite andb_true_r. apply negb_true_iff.
  by destruct (Ascii.eqb_spec c "<") as [->|].
Qed.

Lemma stripTag_no_lt (x y : string) :
  no_lt x = true → stripTag_go 0 (x +:+ y) = x +:+ stripTag_go 0 y.
Proof.
  induction x as [|c x IH]; [done|]. cbn [no_lt]. intros [Hc Hx]%andb_true_iff.
  rewrite !append_String. cbn [stripTag_go].
  apply negb_true_iff in Hc. rewrite Hc. by rewrite IH.
Qed.

(** Text that was escaped has no tags: removing the markup gives the text
    back. *)
Lemma removeMarkup_escape (s : string) : removeMarkup (Sax.escape s) = s.
Proof.
  unfold removeMarkup.
  rewrite <- (append_nil_r (Sax.escape s)) at 1.
  rewrite stripTag_no_lt by apply escape_no_lt.
  cbn [stripTag_go]. rewrite append_nil_r. apply unescape_escape.
Qed.

Lemma removeMarkup_pre_escape (s : string) :
  removeMarkup ("<pre>" +:+ Sax.escape s +:+ "</pre>") = s.
Proof.
  unfold removeMarkup.
  change (stripTag_go 0 ("<pre>" +:+ Sax.escape s +:+ "</pre>"))
    with (stripTag_go 0 (Sax.escape s +:+ "</pre>")).
  rewrite stripTag_no_lt by apply escape_no_lt.
  change (stripTag_go 0 "</pre>") with "".
  rewrite append_nil_r. apply unescape_escape.
Qed.

Lemma firstLine_no_lt (s : string) : no_lt s = true → firstLine s = s.
Proof.
  induction s as [|c s IH]; [done|]. cbn [no_lt]. intros [Hc Hs]%andb_true_iff.
  rewrite firstLine_cons. apply negb_true_iff in Hc.
  cbn [Str.startswith]. rewrite Ascii.eqb_sym, Hc. by rewrite IH.
Qed.

Lemma escape_empty (s : string) : Sax.escape s = "" → s = "".
Proof. intros Hs. by rewrite <- (unescape_escape s), Hs. Qed.

(** ** Titles *)

Section TitleProperties.

Context {RE : ReEngine} {LIT : Literals}.

Lemma storedTextFromTitle_faithful (field : Field) (text : string) :
  typeName field ∈ [Text; OneLineText; SpacedText] →
  storedTextFromTitle field text = Ok (Sax.escape text).
Proof.
  intros Ht. unfold storedTextFromTitle, TextField_storedTextFromTitle,
    SpacedTextField_storedTextFromTitle, storedText.
  destruct (typeName field); try done; by wrong_class Ht.
Qed.

Lemma formatOutput_faithful (field : Field) (text : string) (formatHtml : bool) :
  titleFaithful field →
  formatOutput field (Sax.escape text) true formatHtml = Ok text.
Proof.
  intros (Ht & Hp & Hs & _).
  assert (TextField_formatOutput field (Sax.escape text) true formatHtml = text)
    as Htext.
  { unfold TextField_formatOutput. rewrite Hp, Hs, removeMarkup_escape.
    destruct formatHtml; cbn; by rewrite append_nil_r. }
  unfold formatOutput.
  destruct (typeName field) eqn:Hty; try (by wrong_class Ht).
  - by rewrite Htext.
  - unfold OneLineTextField_formatOutput.
    pose proof (firstLine_no_lt _ (escape_no_lt text)) as Hfirst.
    unfold firstLine in Hfirst. rewrite Hfirst. by rewrite Htext.
  - unfold SpacedTextField_formatOutput, TextField_formatOutput.
    rewrite Hp, Hs.
    destruct (Str.truthy (Sax.escape text)) eqn:Hne.
    + rewrite removeMarkup_pre_escape.
      destruct formatHtml; cbn; by rewrite append_nil_r.
    + rewrite removeMarkup_escape.
      destruct formatHtml; cbn; by rewrite append_nil_r.
Qed.

End TitleProperties.

Section TitleRoundTrip.

Context {RE : ReEngine} {LIT : Literals}.

Lemma outputText_faithful (field : Field) (node : NodeView) (text : string)
    (formatHtml : bool) :
  titleFaithful field →
  view_data node !! name field = Some (Sax.escape text) →
  outputText field node true formatHtml = Returns text.
Proof.
  intros Hf Hdata. pose proof Hf as (Ht & _ & _ & Hinfo).
  assert (outputText field node true formatHtml
          = TextField_outputText field node true formatHtml) as ->.
  { unfold outputText. destruct (typeName field); try done. by wrong_class Ht. }
  unfold TextField_outputText. rewrite Hinfo. cbn [obind].
  unfold data_get. rewrite Hdata.
  change (default "" (Some (Sax.escape text))) with (Sax.escape text).
  destruct (Str.truthy (Sax.escape text)) eqn:Hne.
  - by rewrite formatOutput_faithful.
  - destruct (Sax.escape text) eqn:He; [|done].
    by apply escape_empty in He as ->.
Qed.

Lemma writeAll_lookup_ne (fields : list Field) (conversions : list (string * string))
    (data : gmap string string) (key : string) :
  key ∉ name <$> fields →
  writeAll fields conversions data !! key = data !! key.
Proof.
  revert conversions data.
  induction fields as [|field fields IH]; intros conversions data Hkey; [done|].
  destruct conversions as [|c conversions]; [done|].
  change (writeAll (field :: fields) (c :: conversions) data)
    with (writeAll fields conversions (<[name field := c.2]> data)).
  rewrite fmap_cons in Hkey. apply not_elem_of_cons in Hkey as [Hne Hkey].
  rewrite IH by done. by rewrite lookup_insert_ne.
Qed.

Lemma TitleMatch_length (segs : list Segment) (m : string) (groups : list string) :
  TitleMatch segs m groups → length groups = length (segFields segs).
Proof. induction 1; cbn; by f_equal. Qed.

(** The fields of a title line show the groups that a match of the line
    gave them. *)
Lemma titleParts_written (self : NodeFormat) (segs : list Segment) (m : string)
    (groups : list string) (fi : option (gmap string string)) (sep : option string) :
  TitleMatch segs m groups →
  Forall titleFaithful (segFields segs) →
  NoDup (name <$> segFields segs) →
  ∀ (all : gmap string string) (data : gmap string string),
    (∀ key, key ∈ name <$> segFields segs →
       all !! key
       = writeAll (segFields segs) ((λ g, (g, Sax.escape g)) <$> groups) data !! key) →
    ∃ parts, mapM (titlePart self (mkNodeView all fi sep)) segs = Returns parts
             ∧ Str.concat parts = m.
Proof.
  induction 1 as [|field segs g m groups Hg Hmatch IH|text segs m groups Hmatch IH];
    intros Hfaithful Hnames all data Hall.
  - by exists [].
  - change (segFields (SegField field :: segs)) with (field :: segFields segs)
      in Hfaithful, Hnames, Hall.
    apply Forall_cons in Hfaithful as [Hfield Hfaithful].
    rewrite fmap_cons in Hnames. apply NoDup_cons in Hnames as [Hfresh Hnames].
    destruct (IH Hfaithful Hnames all (<[name field := Sax.escape g]> data))
      as (parts & Hparts & Hconcat).
    { intros key Hkey. rewrite Hall by (rewrite fmap_cons; by apply list_elem_of_further).
      done. }
    exists (g :: parts). cbn [mapM titlePart].
    rewrite (outputText_faithful field _ g); [|done|].
    + cbn [obind]. rewrite Hparts. cbn [obind Str.concat]. by rewrite Hconcat.
    + cbn [view_data]. rewrite Hall by (rewrite fmap_cons; apply list_elem_of_here).
      rewrite fmap_cons.
      change (writeAll (field :: segFields segs)
                ((g, Sax.escape g) :: ((λ g, (g, Sax.escape g)) <$> groups)) data)
        with (writeAll (segFields segs) ((λ g, (g, Sax.escape g)) <$> groups)
                (<[name field := Sax.escape g]> data)).
      rewrite writeAll_lookup_ne by done. by rewrite lookup_insert_eq.
  - change (segFields (SegText text :: segs)) with (segFields segs)
      in Hfaithful, Hnames, Hall.
    destruct (IH Hfaithful Hnames all data Hall) as (parts & Hparts & Hconcat).
    exists (text :: parts). cbn [mapM titlePart obind].
    rewrite Hparts. cbn [obind Str.concat]. by rewrite Hconcat.
Qed.

End TitleRoundTrip.

(** The first line of a text *)
Lemma first_line_cons (c : ascii) (s : string) :
  first_piece (Str.split_max (String "010" "") 1 (String c s))
  = if Ascii.eqb "010" c then ""
    else String c (first_piece (Str.split_max (String "010" "") 1 s)).
Proof.
  unfold Str.split_max. cbn [Str.split_max_go Str.startswith].
  destruct (Ascii.eqb "010" c).
  - by destruct s.
  - by destruct (Str.split_max_go (String "010" "") 1 0 s).
Qed.

Lemma first_line_no_newline (s : string) :
  no_newline (first_piece (Str.split_max (String "010" "") 1 s)) = true.
Proof.
  induction s as [|c s IH]; [done|]. rewrite first_line_cons.
  destruct (Ascii.eqb "010" c) eqn:Hc; [done|].
  cbn [no_newline]. by rewrite Ascii.eqb_sym, Hc, IH.
Qed.

Lemma first_line_whole (s : string) :
  no_newline s = true → first_piece (Str.split_max (String "010" "") 1 s) = s.
Proof.
  induction s as [|c s IH]; [done|]. cbn [no_newline].
  intros [Hc Hs]%andb_true_iff. rewrite first_line_cons.
  apply negb_true_iff in Hc. by rewrite Ascii.eqb_sym, Hc, IH.
Qed.

Lemma lstrip_first_line (s : string) :
  Str.lstrip s = s →
  Str.lstrip (first_piece (Str.split_max (String "010" "") 1 s))
  = first_piece (Str.split_max (String "010" "") 1 s).
Proof.
  destruct s as [|c s]; [done|]. rewrite first_line_cons.
  destruct (Ascii.eqb "010" c); [done|].
  cbn [Str.lstrip]. destruct (Str.isspace c) eqn:Hc; [|done].
  intros Hs. exfalso.
  assert (∀ t, String.length (Str.lstrip t) ≤ String.length t) as Hlen.
  { induction t as [|a t IHt]; [done|]. cbn [Str.lstrip].
    destruct (Str.isspace a); cbn [String.length]; lia. }
  specialize (Hlen s). rewrite Hs in Hlen. cbn [String.length] in Hlen. lia.
Qed.

Lemma lstrip_idemp (s : string) : Str.lstrip (Str.lstrip s) = Str.lstrip s.
Proof.
  induction s as [|c s IH]; [done|]. cbn [Str.lstrip].
  destruct (Str.isspace c) eqn:Hc; [done|]. cbn [Str.lstrip]. by rewrite Hc.
Qed.

Lemma rstrip_keeps_head (c : ascii) (s : string) :
  Str.isspace c = false → ∃ r, Str.rstrip (String c s) = String c r.
Proof. intros Hc. cbn [Str.rstrip]. rewrite Hc. destruct (Str.rstrip s); by eexists. Qed.

Lemma lstrip_strip (s : string) : Str.lstrip (Str.strip s) = Str.strip s.
Proof.
  unfold Str.strip. induction s as [|c s IH]; [done|]. cbn [Str.lstrip].
  destruct (Str.isspace c) eqn:Hc; [done|].
  destruct (rstrip_keeps_head c s Hc) as [r ->]. cbn [Str.lstrip]. by rewrite Hc.
Qed.

Section TitleTheorems.

Context {RE : ReEngine} {LIT : Literals}.

Lemma outputText_text_returns (field : Field) (node : NodeView)
    (titleMode formatHtml : bool) :
  typeName field ∈ [Text; HtmlText; OneLineText; SpacedText] →
  useFileInfo field = false →
  ∃ text, outputText field node titleMode formatHtml = Returns text.
Proof.
  intros Ht Hinfo. unfold outputText, TextField_outputText. rewrite Hinfo.
  destruct (typeName field) eqn:Hty; try (by wrong_class Ht);
    cbn [obind]; destruct (Str.truthy _); try (by eexists);
    unfold formatOutput; rewrite Hty; by eexists.
Qed.

Lemma formatTitle_text_returns (self : NodeFormat) (node : NodeView) :
  Forall (λ field, typeName field ∈ [Text; HtmlText; OneLineText; SpacedText]
                   ∧ useFileInfo field = false)
    (segFields (titleLine self)) →
  ∃ text, formatTitle self node = Returns text.
Proof.
  intros Hfields. unfold formatTitle.
  assert (∃ parts, mapM (titlePart self node) (titleLine self) = Returns parts)
    as [parts ->]; [|by eexists].
  induction (titleLine self) as [|[field|text] segs IH].
  - by exists [].
  - change (segFields (SegField field :: segs)) with (field :: segFields segs)
      in Hfields.
    apply Forall_cons in Hfields as [[Ht Hinfo] Hfields].
    destruct (IH Hfields) as [parts Hparts].
    destruct (outputText_text_returns field node true (formatHtml self) Ht Hinfo)
      as [part Hpart].
    exists (part :: parts). cbn [mapM titlePart]. by rewrite Hpart, Hparts.
  - destruct (IH Hfields) as [parts Hparts].
    exists (text :: parts). cbn [mapM titlePart obind]. by rewrite Hparts.
Qed.

(** X1: a title that the title line of a node matches as a whole, set with
    [setTitle], is the title that [title] answers afterwards; the fields
    of the title line are plain text fields without prefix and suffix and
    with distinct names, the title has no line feed and no white space
    at its ends. *)
Theorem setTitle_title (self : TreeNode) (title' : string) (groups : list string) :
  Forall titleFaithful (segFields (titleLine (formatRef self))) →
  NoDup (name <$> segFields (titleLine (formatRef self))) →
  py_re_match (titlePattern (formatRef self)) title' = Ok (Some (title' :: groups)) →
  TitleMatch (titleLine (formatRef self)) title' groups →
  Str.strip title' = title' →
  no_newline title' = true →
  ∃ changed, (setTitle self title').1 = Returns changed
             ∧ title (setTitle self title').2 = Returns title'.
Proof.
  intros Hfaithful Hnames Hre Hmatch Hstrip Hnl.
  destruct (formatTitle_text_returns (formatRef self) (view self))
    as [current Hcurrent].
  { eapply Forall_impl; [exact Hfaithful|]. intros field (Ht & _ & _ & Hinfo).
    split; [|done]. destruct (typeName field); try (by wrong_class Ht); repeat constructor. }
  destruct (setTitle self title') as [r self'] eqn:Hset. cbn [fst snd].
  unfold setTitle in Hset. unfold title in Hset. rewrite Hcurrent in Hset.
  case_bool_decide as Hsame.
  { injection Hset as <- <-. exists false. split; [done|].
    unfold title. by rewrite Hcurrent, Hsame. }
  set (conversions := (λ g, (g, Sax.escape g)) <$> groups).
  assert (conversions.*1 = groups) as Hfst.
  { unfold conversions. rewrite <- list_fmap_compose. apply list_fmap_id. }
  assert (Forall2 (λ field c, storedTextFromTitle field c.1 = Ok c.2)
            (segFields (titleLine (formatRef self))) conversions) as Hconv.
  { apply Forall2_same_length_lookup_2.
    - unfold conversions. rewrite length_fmap.
      symmetry. by eapply TitleMatch_length.
    - intros i field c Hfield Hc. unfold conversions in Hc.
      apply list_lookup_fmap_Some in Hc as (g & -> & _). cbn [fst snd].
      apply storedTextFromTitle_faithful.
      eapply Forall_lookup_1 in Hfaithful as (Ht & _); [exact Ht|exact Hfield]. }
  rewrite <- Hfst in Hre.
  rewrite (extractTitleData_matched _ _ _ _ (data self) Hre Hconv) in Hset.
  injection Hset as <- <-.
  exists true. split; [done|]. unfold title, formatTitle.
  destruct self as [fmt uid dat refs children]. cbn [formatRef set_data view data] in *.
  destruct (titleParts_written fmt (titleLine fmt) title' groups None None
              Hmatch Hfaithful Hnames
              (writeAll (segFields (titleLine fmt)) conversions dat) dat)
    as (parts & Hparts & Hconcat); [done|].
  change (view (set_data (mkTreeNode fmt uid dat refs children)
                  (writeAll (segFields (titleLine fmt)) conversions dat)))
    with (mkNodeView (writeAll (segFields (titleLine fmt)) conversions dat)
            None None).
  rewrite Hparts. cbn [obind]. rewrite Hconcat, Hstrip.
  by rewrite first_line_whole.
Qed.

(** X2: the title of a node has no line feed and does not begin with white
    space. *)
Theorem formatTitle_one_line (self : NodeFormat) (node : NodeView) (text : string) :
  formatTitle self node = Returns text →
  no_newline text = true ∧ Str.lstrip text = text.
Proof.
  unfold formatTitle.
  destruct (mapM (titlePart self node) (titleLine self)) as [parts|e]; [|done].
  cbn [obind]. intros [= <-]. split.
  - apply first_line_no_newline.
  - apply lstrip_first_line, lstrip_strip.
Qed.

End TitleTheorems.

Lemma setTitle_title_witness :
  ∃ changed,
    (setTitle (RE := Fragment.engine) (LIT := no_literals)
       (mkTreeNode Examples.nameTag "n1" {[ "Name" := "Old" ]} [] []) "Trip 3").1
    = Returns changed
    ∧ title (RE := Fragment.engine) (LIT := no_literals)
        (setTitle (RE := Fragment.engine) (LIT := no_literals)
           (mkTreeNode Examples.nameTag "n1" {[ "Name" := "Old" ]} [] []) "Trip 3").2
      = Returns "Trip 3".
Proof.
  apply (setTitle_title (RE := Fragment.engine) (LIT := no_literals)
           (mkTreeNode Examples.nameTag "n1" {[ "Name" := "Old" ]} [] [])
           "Trip 3" ["Trip"; "3"]).
  - repeat constructor.
  - apply (bool_decide_unpack _). vm_compute. exact I.
  - reflexivity.
  - exact (TitleMatch_field Examples.nameField _ "Trip" _ _ eq_refl
             (TitleMatch_text " " _ _ _
                (TitleMatch_field Examples.tagField _ "3" _ _ eq_refl TitleMatch_nil))).
  - reflexivity.
  - reflexivity.
Defined.

Lemma formatTitle_one_line_witness :
  formatTitle (RE := Fragment.engine) (LIT := no_literals) Examples.nameTag
    (mkNodeView {[ "Name" := " Trip" +:+ String "010" "two" ]} None None)
  = Returns "Trip"
  ∧ no_newline "Trip" = true
  ∧ Str.lstrip "Trip" = "Trip".
Proof.
  split; [reflexivity|].
  exact (formatTitle_one_line (RE := Fragment.engine) (LIT := no_literals)
           Examples.nameTag
           (mkNodeView {[ "Name" := " Trip" +:+ String "010" "two" ]} None None)
           "Trip" eq_refl).
Defined.

(** ** Format lines *)

Lemma take_stars_app (s t stars r : string) :
  take_stars s = (stars, r) → r ≠ "" → take_stars (s +:+ t) = (stars, r +:+ t).
Proof.
  revert stars. induction s as [|c s IH]; intros stars Hs Hr.
  { cbn in Hs. by injection Hs as <- <-. }
  rewrite append_String. cbn [take_stars] in *.
  destruct (Ascii.eqb c "*").
  - destruct (take_stars s) as [m r'] eqn:Hm. injection Hs as <- <-.
    by rewrite (IH m eq_refl Hr).
  - injection Hs as <- <-. by rewrite append_String.
Qed.

Lemma take_name_app (s t fieldName r : string) :
  take_name s = (fieldName, r) → r ≠ "" →
  take_name (s +:+ t) = (fieldName, r +:+ t).
Proof.
  revert fieldName. induction s as [|c s IH]; intros fieldName Hs Hr.
  { cbn in Hs. by injection Hs as <- <-. }
  rewrite append_String. cbn [take_name] in *.
  destruct (is_name_char c).
  - destruct (take_name s) as [m r'] eqn:Hm. injection Hs as <- <-.
    by rewrite (IH m eq_refl Hr).
  - injection Hs as <- <-. by rewrite append_String.
Qed.

Lemma take_stars_spec (s stars r : string) :
  take_stars s = (stars, r) → s = stars +:+ r.
Proof.
  revert stars. induction s as [|c s IH]; intros stars Hs.
  { cbn in Hs. by injection Hs as <- <-. }
  cbn [take_stars] in Hs. destruct (Ascii.eqb c "*").
  - destruct (take_stars s) as [m r'] eqn:Hm. injection Hs as <- <-.
    by rewrite append_String, <- (IH m).
  - by injection Hs as <- <-.
Qed.

Lemma take_name_spec (s fieldName r : string) :
  take_name s = (fieldName, r) → s = fieldName +:+ r.
Proof.
  revert fieldName. induction s as [|c s IH]; intros fieldName Hs.
  { cbn in Hs. by injection Hs as <- <-. }
  cbn [take_name] in Hs. destruct (is_name_char c).
  - destruct (take_name s) as [m r'] eqn:Hm. injection Hs as <- <-.
    by rewrite append_String, <- (IH m).
  - by injection Hs as <- <-.
Qed.

Lemma length_append (a b : string) :
  String.length (a +:+ b) = String.length a + String.length b.
Proof. induction a as [|c a IH]; [done|]. rewrite append_String. cbn. by rewrite IH. Qed.

Lemma startswith_spec (p s : string) :
  Str.startswith p s = true ↔ ∃ rest, s = p +:+ rest.
Proof.
  revert s. induction p as [|a p IH]; intros s.
  { split; [by exists s|done]. }
  destruct s as [|b s]; cbn [Str.startswith].
  { split; [done|]. by intros [rest Hrest]. }
  destruct (Ascii.eqb_spec a b) as [<-|Hne].
  - rewrite IH. split; intros [rest Hrest]; exists rest.
    + by rewrite append_String, <- Hrest.
    + rewrite append_String in Hrest. by injection Hrest.
  - split; [done|]. intros [rest Hrest]. rewrite append_String in Hrest.
    injection Hrest as ? ?. by destruct Hne.
Qed.

(** The modifier that [placeholder_at] reads, and the text after it *)
Lemma placeholder_at_unfold (s : string) :
  placeholder_at s
  = if Str.startswith "{*" s then
      let s1 := str_drop 2 s in
      let '(modifier, s2) :=
        match take_stars s1 with
        | (EmptyString, _) =>
            match s1 with
            | String c s2 =>
                if bool_decide (nat_of_ascii c ∈ [63; 33; 38; 35])
                then (String c EmptyString, s2)
                else (EmptyString, s1)
            | EmptyString => (EmptyString, s1)
            end
        | stars => stars
        end in
      let '(fieldName, r) := take_name s2 in
      if Str.truthy fieldName && Str.startswith "*}" r
      then Some (modifier, fieldName,
                 4 + String.length modifier + String.length fieldName)
      else None
    else None.
Proof.
  destruct s as [|c0 s]; [done|].
  destruct s as [|c1 s1].
  { by destruct c0 as [[] [] [] [] [] [] [] []]. }
  destruct c0 as [[] [] [] [] [] [] [] []]; try reflexivity.
  destruct c1 as [[] [] [] [] [] [] [] []]; try reflexivity.
  cbn [Str.startswith Ascii.eqb Bool.eqb str_drop placeholder_at].
  cbv zeta.
  match goal with
  | |- (let '(_, _) := ?m in _) = _ => destruct m as [modifier s2]
  end.
  destruct (take_name s2) as [fieldName r].
  destruct fieldName as [|n0 fieldName]; [done|].
  cbn [Str.truthy negb andb].
  destruct r as [|d0 r]; [done|].
  destruct r as [|d1 r].
  { by destruct d0 as [[] [] [] [] [] [] [] []]. }
  destruct d0 as [[] [] [] [] [] [] [] []]; try reflexivity.
  destruct d1 as [[] [] [] [] [] [] [] []]; reflexivity.
Qed.

Lemma placeholder_at_spec (s modifier fieldName : string) (n : nat) :
  placeholder_at s = Some (modifier, fieldName, n) →
  n = String.length (placeholder modifier fieldName)
  ∧ ∃ rest, s = placeholder modifier fieldName +:+ rest.
Proof.
  rewrite placeholder_at_unfold.
  destruct (Str.startswith "{*" s) eqn:Hhead; [|done].
  apply startswith_spec in Hhead as [s1 ->].
  change (str_drop 2 ("{*" +:+ s1)) with s1. cbv zeta.
  assert (∀ m s2,
    match take_stars s1 with
    | (EmptyString, _) =>
        match s1 with
        | String c s2 =>
            if bool_decide (nat_of_ascii c ∈ [63; 33; 38; 35])
            then (String c EmptyString, s2)
            else (EmptyString, s1)
        | EmptyString => (EmptyString, s1)
        end
    | stars => stars
    end = (m, s2) → s1 = m +:+ s2) as Hmod.
  { intros m s2. destruct (take_stars s1) as [stars r0] eqn:Hstars.
    destruct stars as [|a stars].
    - destruct s1 as [|c s1']; [by intros [= <- <-]|].
      case_bool_decide; by intros [= <- <-].
    - intros [= <- <-]. by apply take_stars_spec. }
  match goal with
  | |- (let '(_, _) := ?scrut in _) = _ → _ =>
      destruct scrut as [m s2]
  end.
  rewrite (Hmod m s2 eq_refl). clear Hmod.
  destruct (take_name s2) as [nm r] eqn:Hname.
  apply take_name_spec in Hname as ->.
  destruct (Str.truthy nm && Str.startswith "*}" r) eqn:Hend; [|done].
  apply andb_true_iff in Hend as [_ [rest ->]%startswith_spec].
  intros [= <- <- <-]. unfold placeholder. split.
  - rewrite !length_append. cbn [String.length]. lia.
  - exists rest. by rewrite !append_assoc.
Qed.

Lemma placeholder_at_app (s t : string) (found : string * string * nat) :
  placeholder_at s = Some found → placeholder_at (s +:+ t) = Some found.
Proof.
  rewrite !placeholder_at_unfold.
  destruct (Str.startswith "{*" s) eqn:Hhead; [|done].
  rewrite (startswith_app _ _ t Hhead).
  apply startswith_spec in Hhead as [s1 ->].
  change (str_drop 2 ("{*" +:+ s1)) with s1.
  change (str_drop 2 (("{*" +:+ s1) +:+ t)) with (s1 +:+ t). cbv zeta.
  destruct (take_stars s1) as [stars r0] eqn:Hstars.
  destruct stars as [|a stars].
  - destruct s1 as [|c s1']; [done|].
    assert (take_stars (String c s1' +:+ t) = ("", String c s1' +:+ t)) as ->.
    { rewrite append_String. cbn [take_stars] in *.
      destruct (Ascii.eqb c "*"); [|done].
      by destruct (take_stars s1'). }
    rewrite append_String.
    case_bool_decide.
    + destruct (take_name s1') as [nm r] eqn:Hname.
      destruct (Str.truthy nm && Str.startswith "*}" r) eqn:Hend; [|done].
      apply andb_true_iff in Hend as [Hnm Hend].
      rewrite (take_name_app _ t _ _ Hname) by (by destruct r).
      by rewrite Hnm, (startswith_app _ _ t Hend).
    + destruct (take_name (String c s1')) as [nm r] eqn:Hname.
      destruct (Str.truthy nm && Str.startswith "*}" r) eqn:Hend; [|done].
      apply andb_true_iff in Hend as [Hnm Hend].
      rewrite <- append_String.
      rewrite (take_name_app _ t _ _ Hname) by (by destruct r).
      by rewrite Hnm, (startswith_app _ _ t Hend).
  - destruct (take_name r0) as [nm r] eqn:Hname.
    destruct (Str.truthy nm && Str.startswith "*}" r) eqn:Hend; [|done].
    apply andb_true_iff in Hend as [Hnm Hend].
    assert (r0 ≠ "") as Hr0.
    { intros ->. cbn in Hname. injection Hname as <- <-. done. }
    rewrite (take_stars_app _ t _ _ Hstars Hr0).
    rewrite (take_name_app _ t _ _ Hname) by (by destruct r).
    by rewrite Hnm, (startswith_app _ _ t Hend).
Qed.

Lemma str_take_app_length (a b : string) : str_take (String.length a) (a +:+ b) = a.
Proof. induction a as [|c a IH]; [by destruct b|]. rewrite append_String. cbn. by rewrite IH. Qed.

Lemma str_drop_app_length (a b : string) : str_drop (String.length a) (a +:+ b) = b.
Proof. induction a as [|c a IH]; [by destruct b|]. by rewrite append_String. Qed.

(** Every piece that [_fieldSplitRe.split] answers is a placeholder or has
    no placeholder at its start, and the pieces make up the text. *)
Lemma fieldSplit_go_spec (text : string) (skip : nat) :
  (fieldSplit_go skip text).1 +:+ Str.concat (fieldSplit_go skip text).2
  = str_drop skip text
  ∧ placeholder_at (fieldSplit_go skip text).1 = None
  ∧ Forall (λ piece, ∀ modifier fieldName n,
              placeholder_at piece = Some (modifier, fieldName, n) →
              piece = placeholder modifier fieldName)
      (fieldSplit_go skip text).2.
Proof.
  revert skip. induction text as [|c text IH]; intros skip.
  { by destruct skip. }
  destruct skip as [|k]; [|apply IH].
  cbn [fieldSplit_go str_drop].
  destruct (placeholder_at (String c text)) as [[[modifier fieldName] n]|] eqn:Hat.
  - destruct (placeholder_at_spec _ _ _ _ Hat) as (Hn & rest & Htext).
    destruct (IH (n - 1)) as (Hconcat & Hnone & Hpieces).
    destruct (fieldSplit_go (n - 1) text) as [p ps]. cbn [fst snd] in *.
    assert (str_take n (String c text) = placeholder modifier fieldName) as Htake.
    { by rewrite Htext, Hn, str_take_app_length. }
    assert (str_drop (n - 1) text = rest) as Hdrop.
    { transitivity (str_drop n (String c text)).
      - rewrite Hn. unfold placeholder. by rewrite append_String.
      - by rewrite Htext, Hn, str_drop_app_length. }
    split; [|split; [done|]].
    + cbn [Str.concat]. rewrite Hconcat, Hdrop, Htake. by rewrite append_nil_l.
    + apply Forall_cons. split.
      * intros modifier' fieldName' n' Hat'. rewrite Htake in Hat' |- *.
        apply (placeholder_at_app _ rest) in Hat'.
        rewrite <- Htext, Hat in Hat'. by injection Hat' as <- <- <-.
      * apply Forall_cons. split; [|done].
        intros modifier' fieldName' n' Hat'. by rewrite Hnone in Hat'.
  - destruct (IH 0) as (Hconcat & Hnone & Hpieces).
    destruct (fieldSplit_go 0 text) as [p ps]. cbn [fst snd] in *.
    split; [by rewrite append_String, Hconcat|]. split; [|done].
    destruct (placeholder_at (String c p)) as [found|] eqn:Hat'; [|done].
    apply (placeholder_at_app _ (Str.concat ps)) in Hat'.
    rewrite append_String, Hconcat in Hat'. cbn [str_drop] in Hat'.
    destruct text; by rewrite Hat in Hat'.
Qed.

Lemma concat_truthy (l : list string) :
  Str.concat (filter (λ part, Str.truthy part = true) l) = Str.concat l.
Proof.
  induction l as [|x l IH]; [done|].
  rewrite filter_cons. destruct (decide (Str.truthy x = true)) as [Hx|Hx].
  - cbn [Str.concat]. by rewrite IH.
  - destruct x; [|done]. by rewrite IH.
Qed.

Lemma segName_parseField (fieldDict : list (string * Field)) (piece : string) :
  dict_ok fieldDict →
  (∀ modifier fieldName n,
     placeholder_at piece = Some (modifier, fieldName, n) →
     piece = placeholder modifier fieldName) →
  segName (parseField fieldDict piece) = piece.
Proof.
  intros Hdict Hpiece. unfold parseField.
  destruct (placeholder_at piece) as [[[modifier fieldName] n]|] eqn:Hat; [|done].
  destruct modifier; [|done]. cbn [Str.truthy negb].
  destruct (fieldDict_get fieldDict fieldName) as [field|] eqn:Hget; [|done].
  destruct (Hdict _ _ Hget) as [Hname Hinfo].
  cbn [segName]. unfold sepName. rewrite Hinfo, Hname.
  by rewrite (Hpiece _ _ _ eq_refl).
Qed.

(** The text of a parsed line is the line, its runs of white space made
    single spaces. *)
Lemma lineText_parseLine (fieldDict : list (string * Field)) (text : string) :
  dict_ok fieldDict →
  lineText (parseLine fieldDict text) = Str.join " " (Str.words text).
Proof.
  intros Hdict. unfold lineText, parseLine.
  set (line := Str.join " " (Str.words text)).
  destruct (fieldSplit_go_spec line 0) as (Hconcat & Hnone & Hpieces).
  unfold fieldSplit. destruct (fieldSplit_go 0 line) as [p ps].
  cbn [fst snd str_drop] in *.
  transitivity (Str.concat (filter (λ part, Str.truthy part = true) (p :: ps)));
    [|by rewrite concat_truthy].
  f_equal. rewrite <- list_fmap_compose.
  etransitivity; [|apply list_fmap_id].
  apply Forall_fmap_ext_1, Forall_forall. intros piece Hin.
  apply list_elem_of_filter in Hin as [_ Hin]. cbn.
  apply segName_parseField; [done|].
  apply elem_of_cons in Hin as [->|Hin].
  - intros modifier fieldName n Hat. by rewrite Hnone in Hat.
  - by eapply Forall_forall in Hpieces.
Qed.

Lemma parseLine_nil (fieldDict : list (string * Field)) (text : string) :
  parseLine fieldDict text = [] ↔ Str.join " " (Str.words text) = "".
Proof.
  unfold parseLine. set (line := Str.join " " (Str.words text)). split.
  - intros Hnil. apply fmap_nil_inv in Hnil.
    destruct (fieldSplit_go_spec line 0) as (Hconcat & _ & _).
    pose proof (concat_truthy (fieldSplit line)) as Hc. rewrite Hnil in Hc.
    unfold fieldSplit in Hc. destruct (fieldSplit_go 0 line) as [p ps].
    cbn [fst snd Str.concat str_drop] in *. by rewrite <- Hconcat, <- Hc.
  - by intros ->.
Qed.

(** X3: the title format line that a node format answers after
    [changeTitleLine] is the line given, its runs of white space made
    single spaces; the fields are stored under their names. *)
Theorem changeTitleLine_getTitleLine (self : NodeFormat) (text : string) :
  dict_ok (fieldDict self) →
  getTitleLine (changeTitleLine self text) = Str.join " " (Str.words text).
Proof.
  intros Hdict. unfold getTitleLine, changeTitleLine. cbn [titleLine].
  destruct (parseLine (fieldDict self) text) as [|seg segs] eqn:Hparse.
  - apply parseLine_nil in Hparse. by rewrite Hparse.
  - rewrite <- Hparse. by apply lineText_parseLine.
Qed.

Lemma changeOutputLines_fold (fieldDict : list (string * Field)) (keepBlanks : bool)
    (lines : list string) (outputLines : list (list Segment)) :
  foldl (λ outputLines line,
           let newLine := parseLine fieldDict line in
           if keepBlanks || bool_decide (newLine ≠ [])
           then outputLines ++ [newLine] else outputLines)
    outputLines lines
  = outputLines
    ++ (parseLine fieldDict
          <$> filter (λ line, keepBlanks || Str.truthy (Str.join " " (Str.words line))
                              = true) lines).
Proof.
  revert outputLines. induction lines as [|line lines IH]; intros outputLines.
  { by rewrite app_nil_r. }
  cbn [foldl]. rewrite IH, filter_cons.
  assert (bool_decide (parseLine fieldDict line ≠ [])
          = Str.truthy (Str.join " " (Str.words line))) as ->.
  { case_bool_decide as Hnil; rewrite parseLine_nil in Hnil.
    - by destruct (Str.join " " (Str.words line)).
    - by rewrite Hnil. }
  destruct (decide _) as [Hkeep|Hkeep].
  - rewrite Hkeep, fmap_cons. by rewrite <- app_assoc.
  - apply not_true_is_false in Hkeep. by rewrite Hkeep.
Qed.

(** X4: the output format lines that a node format answers after
    [changeOutputLines] are the lines given, their runs of white space made
    single spaces, without the lines that are blank unless [keepBlanks] is
    set; when no line is left, the answer is one empty line. *)
Theorem changeOutputLines_getOutputLines (self : NodeFormat) (lines : list string)
    (keepBlanks : bool) :
  dict_ok (fieldDict self) →
  getOutputLines (changeOutputLines self lines keepBlanks)
  = match filter (λ line, keepBlanks || Str.truthy line = true)
            ((λ line, Str.join " " (Str.words line)) <$> lines) with
    | [] => [""]
    | kept => kept
    end.
Proof.
  intros Hdict. unfold getOutputLines, changeOutputLines, set_outputLines.
  cbn [outputLines].
  rewrite changeOutputLines_fold, app_nil_l, <- list_fmap_compose.
  assert (lineText ∘ parseLine (fieldDict self)
          <$> filter (λ line, keepBlanks || Str.truthy (Str.join " " (Str.words line))
                              = true) lines
          = filter (λ line, keepBlanks || Str.truthy line = true)
              ((λ line, Str.join " " (Str.words line)) <$> lines)) as Hkept.
  { induction lines as [|line lines IH]; [done|].
    rewrite fmap_cons, !filter_cons.
    destruct (decide _) as [Hkeep|Hkeep].
    - rewrite fmap_cons, IH. cbn [compose].
      by rewrite lineText_parseLine.
    - apply IH. }
  rewrite Hkept. by case_match.
Qed.

Lemma changeTitleLine_getTitleLine_witness :
  getTitleLine (changeTitleLine Examples.blank "  {*Name*}   ({*Kind*}) {*?x*} ")
  = "{*Name*} ({*Kind*}) {*?x*}".
Proof.
  apply (changeTitleLine_getTitleLine Examples.blank
           "  {*Name*}   ({*Kind*}) {*?x*} ").
  intros fieldName field. cbn [Examples.blank fieldDict Examples.fieldDict fieldDict_get].
  repeat (case_bool_decide; [intros [= <-]; by subst|]). done.
Defined.

Lemma changeOutputLines_getOutputLines_witness :
  getOutputLines
    (changeOutputLines Examples.blank ["{*Name*}  x"; "   "; "{*Tag*}"] false)
  = ["{*Name*} x"; "{*Tag*}"].
Proof.
  apply (changeOutputLines_getOutputLines Examples.blank
           ["{*Name*}  x"; "   "; "{*Tag*}"] false).
  intros fieldName field. cbn [Examples.blank fieldDict Examples.fieldDict fieldDict_get].
  repeat (case_bool_decide; [intros [= <-]; by subst|]). done.
Defined.

(** ** The dictionary of fields *)

Lemma fieldDict_get_set (fieldDict : list (string * Field)) (key fieldName : string)
    (field : Field) :
  fieldDict_get (fieldDict_set fieldDict fieldName field) key
  = if bool_decide (key = fieldName) then Some field
    else fieldDict_get fieldDict key.
Proof.
  induction fieldDict as [|[k old] fieldDict IH]; cbn [fieldDict_set fieldDict_get].
  { repeat case_bool_decide; by subst. }
  destruct (decide (k = fieldName)) as [->|Hk].
  - rewrite (bool_decide_eq_true_2 (fieldName = fieldName)) by done.
    cbn [fieldDict_get]. repeat case_bool_decide; congruence.
  - rewrite (bool_decide_eq_false_2 (k = fieldName)) by done.
    cbn [fieldDict_get]. rewrite IH. repeat case_bool_decide; congruence.
Qed.

Lemma fieldDict_set_names (fieldDict : list (string * Field)) (fieldName : string)
    (field : Field) :
  (fieldDict_set fieldDict fieldName field).*1
  = if bool_decide (fieldName ∈ fieldDict.*1) then fieldDict.*1
    else fieldDict.*1 ++ [fieldName].
Proof.
  induction fieldDict as [|[k old] fieldDict IH]; cbn [fieldDict_set].
  { by rewrite bool_decide_eq_false_2 by apply not_elem_of_nil. }
  rewrite (fmap_cons _ _ fieldDict). cbn [fst].
  destruct (decide (k = fieldName)) as [->|Hk].
  - rewrite (bool_decide_eq_true_2 (fieldName = fieldName)) by done.
    by rewrite bool_decide_eq_true_2 by apply list_elem_of_here.
  - rewrite (bool_decide_eq_false_2 (k = fieldName)) by done.
    rewrite fmap_cons, IH. cbn [fst].
    destruct (decide (fieldName ∈ fieldDict.*1)) as [Hin|Hin].
    + rewrite (bool_decide_eq_true_2 _ Hin).
      by rewrite bool_decide_eq_true_2 by (by apply list_elem_of_further).
    + rewrite (bool_decide_eq_false_2 _ Hin).
      rewrite bool_decide_eq_false_2; [done|].
      intros [?|?]%elem_of_cons; by subst.
Qed.

Lemma fieldDict_get_Some (fieldDict : list (string * Field)) (fieldName : string) :
  is_Some (fieldDict_get fieldDict fieldName) ↔ fieldName ∈ fieldDict.*1.
Proof.
  induction fieldDict as [|[k field] fieldDict IH]; cbn [fieldDict_get].
  { split; [by intros [? ?]|by intros ?%elem_of_nil]. }
  rewrite fmap_cons. cbn [fst]. case_bool_decide as Hk.
  - subst k. split; [intros _; apply list_elem_of_here|by eexists].
  - rewrite IH. split; [by apply list_elem_of_further|].
    intros [?|?]%elem_of_cons; by subst.
Qed.

Section DictProperties.

Context {RE : ReEngine}.

Lemma Field_init_name (cls : FieldType) (fieldName : string) (fieldData : FieldData)
    (field : Field) :
  Field_init cls fieldName fieldData = Returns field →
  typeName field = cls ∧ name field = fieldName ∧ useFileInfo field = false.
Proof.
  unfold Field_init.
  match goal with
  | |- obind ?made _ = _ → _ => destruct made as [self|e]; [|done]
  end.
  cbn [obind]. by intros [= <-].
Qed.

Lemma addField_dict (self self' : NodeFormat) (fieldName : string)
    (fieldData : FieldData) :
  addField self fieldName fieldData = Returns self' →
  ∃ field, fieldDict self' = fieldDict_set (fieldDict self) fieldName field
           ∧ name field = fieldName ∧ useFileInfo field = false
           ∧ titleLine self' = titleLine self
           ∧ outputLines self' = outputLines self.
Proof.
  unfold addField.
  destruct (Field_init _ fieldName fieldData) as [field|e] eqn:Hinit; [|done].
  apply Field_init_name in Hinit as (_ & Hname & Hinfo).
  cbn [obind]. intros [= <-]. by exists field.
Qed.

Lemma addField_ok (self self' : NodeFormat) (fieldName : string)
    (fieldData : FieldData) :
  dict_ok (fieldDict self) →
  addField self fieldName fieldData = Returns self' →
  dict_ok (fieldDict self').
Proof.
  intros Hdict (field & -> & Hname & Hinfo & _)%addField_dict key found.
  rewrite fieldDict_get_set. case_bool_decide as Hkey.
  - intros [= <-]. by subst.
  - apply Hdict.
Qed.

Lemma addFieldIfNew_ok (self self' : NodeFormat) (fieldName : string)
    (fieldData : FieldData) :
  dict_ok (fieldDict self) →
  addFieldIfNew self fieldName fieldData = Returns self' →
  dict_ok (fieldDict self').
Proof.
  intros Hdict. unfold addFieldIfNew. case_bool_decide.
  - by apply addField_ok.
  - by intros [= <-].
Qed.

Lemma addFieldIfNew_fold_ok (nameList : list string) (self self' : NodeFormat) :
  dict_ok (fieldDict self) →
  foldM (λ self fieldName, addFieldIfNew self fieldName noFieldData) nameList self
  = Returns self' →
  dict_ok (fieldDict self').
Proof.
  revert self. induction nameList as [|fieldName nameList IH]; intros self Hdict.
  { by intros [= <-]. }
  cbn [foldM].
  destruct (addFieldIfNew self fieldName noFieldData) as [self1|e] eqn:Hadd; [|done].
  cbn [obind]. apply IH. by eapply addFieldIfNew_ok.
Qed.

Lemma reorderFields_go_ok (fieldDict newFieldDict result : list (string * Field))
    (fieldNameList : list string) :
  dict_ok fieldDict → dict_ok newFieldDict →
  reorderFields_go fieldDict newFieldDict fieldNameList = Returns result →
  dict_ok result.
Proof.
  intros Hdict. revert newFieldDict.
  induction fieldNameList as [|fieldName fieldNameList IH]; intros newFieldDict Hnew.
  { by intros [= <-]. }
  cbn [reorderFields_go].
  destruct (fieldDict_get fieldDict fieldName) as [field|] eqn:Hget; [|done].
  apply IH. intros key found. rewrite fieldDict_get_set.
  case_bool_decide as Hkey.
  - intros [= <-]. subst key. by apply Hdict.
  - apply Hnew.
Qed.

(** X5: the methods that change the dictionary of fields keep every field
    under its own name: [addField], [addFieldIfNew], [addFieldList] and
    [reorderFields] answer a dictionary of this kind when they are given
    one. *)
Theorem fieldDict_kept_ok (self self' : NodeFormat) :
  dict_ok (fieldDict self) →
  (∃ fieldName fieldData, addField self fieldName fieldData = Returns self')
  ∨ (∃ fieldName fieldData, addFieldIfNew self fieldName fieldData = Returns self')
  ∨ (∃ nameList addFirstTitle addToOutput,
       addFieldList self nameList addFirstTitle addToOutput = Returns self')
  ∨ (∃ fieldNameList, reorderFields self fieldNameList = Returns self') →
  dict_ok (fieldDict self').
Proof.
  intros Hdict [(fieldName & fieldData & Hadd)|[(fieldName & fieldData & Hadd)|
    [(nameList & addFirstTitle & addToOutput & Hadd)|(fieldNameList & Hre)]]].
  - by eapply addField_ok.
  - by eapply addFieldIfNew_ok.
  - unfold addFieldList in Hadd.
    destruct (foldM _ nameList self) as [self1|e] eqn:Hfold; [|done].
    apply addFieldIfNew_fold_ok in Hfold; [|done]. cbn [obind] in Hadd.
    destruct addFirstTitle.
    + destruct nameList as [|name0 nameList]; [done|]. cbn [obind] in Hadd.
      destruct addToOutput; by injection Hadd as <-.
    + cbn [obind] in Hadd. destruct addToOutput; by injection Hadd as <-.
  - unfold reorderFields in Hre.
    destruct (reorderFields_go (fieldDict self) [] fieldNameList)
      as [newFieldDict|e] eqn:Hgo; [|done].
    cbn [obind] in Hre. injection Hre as <-. cbn [fieldDict set_fieldDict].
    eapply reorderFields_go_ok; [exact Hdict| |exact Hgo].
    by intros key found.
Qed.

End DictProperties.

Lemma Examples_dict_ok : dict_ok Examples.fieldDict.
Proof.
  intros fieldName field. cbn [Examples.fieldDict fieldDict_get].
  repeat (case_bool_decide; [intros [= <-]; by subst|]). done.
Qed.

Lemma reorderFields_go_spec (fieldDict : list (string * Field))
    (fieldNameList : list string) (newFieldDict : list (string * Field)) :
  (∀ fieldName, fieldName ∈ fieldNameList → fieldName ∈ fieldDict.*1) →
  NoDup fieldNameList →
  (∀ fieldName, fieldName ∈ fieldNameList → fieldName ∉ newFieldDict.*1) →
  ∃ result,
    reorderFields_go fieldDict newFieldDict fieldNameList = Returns result
    ∧ result.*1 = newFieldDict.*1 ++ fieldNameList
    ∧ ∀ fieldName,
        fieldDict_get result fieldName
        = if bool_decide (fieldName ∈ fieldNameList)
          then fieldDict_get fieldDict fieldName
          else fieldDict_get newFieldDict fieldName.
Proof.
  revert newFieldDict.
  induction fieldNameList as [|fieldName fieldNameList IH];
    intros newFieldDict Hin Hnodup Hfresh.
  { exists newFieldDict. split; [done|]. split; [by rewrite app_nil_r|].
    intros fieldName. by rewrite bool_decide_eq_false_2 by apply not_elem_of_nil. }
  apply NoDup_cons in Hnodup as [Hhead Hnodup].
  destruct (proj2 (fieldDict_get_Some fieldDict fieldName)) as [field Hget].
  { apply Hin, list_elem_of_here. }
  cbn [reorderFields_go]. rewrite Hget.
  destruct (IH (fieldDict_set newFieldDict fieldName field))
    as (result & Hgo & Hnames & Hlookup).
  - intros other Hother. by apply Hin, list_elem_of_further.
  - done.
  - intros other Hother. rewrite fieldDict_set_names.
    rewrite bool_decide_eq_false_2 by apply Hfresh, list_elem_of_here.
    intros [Hnew|Hsame%list_elem_of_singleton]%elem_of_app.
    + by apply (Hfresh other); [apply list_elem_of_further|].
    + by subst.
  - exists result. split; [done|]. split.
    + rewrite Hnames, fieldDict_set_names.
      rewrite bool_decide_eq_false_2 by apply Hfresh, list_elem_of_here.
      by rewrite <- app_assoc.
    + intros other. rewrite Hlookup, fieldDict_get_set.
      destruct (decide (other = fieldName)) as [->|Hne].
      * rewrite (bool_decide_eq_false_2 _ Hhead).
        rewrite (bool_decide_eq_true_2 (fieldName = fieldName)) by done.
        by rewrite bool_decide_eq_true_2 by apply list_elem_of_here.
      * rewrite (bool_decide_eq_false_2 (other = fieldName)) by done.
        destruct (decide (other ∈ fieldNameList)) as [Hother|Hother].
        -- rewrite (bool_decide_eq_true_2 _ Hother).
           by rewrite bool_decide_eq_true_2 by (by apply list_elem_of_further).
        -- rewrite (bool_decide_eq_false_2 _ Hother).
           rewrite bool_decide_eq_false_2; [done|].
           intros [?|?]%elem_of_cons; by subst.
Qed.

Lemma reorderFields_go_KeyError (fieldDict : list (string * Field))
    (fieldNameList : list string) (newFieldDict : list (string * Field)) :
  (∃ fieldName, fieldName ∈ fieldNameList ∧ fieldName ∉ fieldDict.*1) →
  reorderFields_go fieldDict newFieldDict fieldNameList = Raises KeyError.
Proof.
  revert newFieldDict.
  induction fieldNameList as [|fieldName fieldNameList IH];
    intros newFieldDict (missing & Hin & Hmissing).
  { by apply elem_of_nil in Hin. }
  cbn [reorderFields_go].
  destruct (fieldDict_get fieldDict fieldName) as [field|] eqn:Hget; [|done].
  apply IH. exists missing. split; [|done].
  apply elem_of_cons in Hin as [->|Hin]; [|done].
  destruct Hmissing. apply fieldDict_get_Some. by eexists.
Qed.

Section DictTheorems.

Context {RE : ReEngine}.

(** X6: [addField] stores a field of the class asked for under the name
    given: a new name goes to the end of the dictionary, a name that is
    there keeps its place and gets the new field; the other fields, the
    title line and the output lines are as they were. *)
Theorem addField_stores (self self' : NodeFormat) (fieldName : string)
    (fieldData : FieldData) :
  addField self fieldName fieldData = Returns self' →
  fieldNames self'
  = (if bool_decide (fieldName ∈ fieldNames self) then fieldNames self
     else fieldNames self ++ [fieldName])
  ∧ (∃ field,
       fieldDict_get (fieldDict self') fieldName = Some field
       ∧ name field = fieldName
       ∧ typeName field
         = fieldClass (default "Text" (key_fieldtype fieldData) +:+ "Field"))
  ∧ (∀ other, other ≠ fieldName →
       fieldDict_get (fieldDict self') other = fieldDict_get (fieldDict self) other)
  ∧ titleLine self' = titleLine self
  ∧ outputLines self' = outputLines self.
Proof.
  unfold addField.
  destruct (Field_init _ fieldName fieldData) as [field|e] eqn:Hinit; [|done].
  apply Field_init_name in Hinit as (Hclass & Hname & _).
  cbn [obind]. intros [= <-]. unfold fieldNames, set_fieldDict.
  cbn [fieldDict titleLine outputLines].
  split; [apply fieldDict_set_names|].
  split.
  { exists field. rewrite fieldDict_get_set.
    by rewrite bool_decide_eq_true_2 by done. }
  split; [|done].
  intros other Hother. rewrite fieldDict_get_set.
  by rewrite bool_decide_eq_false_2 by done.
Qed.

End DictTheorems.

(** X7: [reorderFields] with a list of distinct names of the dictionary
    answers the dictionary in the order of the list, every name with the
    field it had; with a name that is not in the dictionary it raises
    [KeyError]. *)
Theorem reorderFields_order (self : NodeFormat) (fieldNameList : list string) :
  NoDup fieldNameList →
  ((∀ fieldName, fieldName ∈ fieldNameList → fieldName ∈ fieldNames self) →
   ∃ self', reorderFields self fieldNameList = Returns self'
            ∧ fieldNames self' = fieldNameList
            ∧ (∀ fieldName, fieldName ∈ fieldNameList →
                 fieldDict_get (fieldDict self') fieldName
                 = fieldDict_get (fieldDict self) fieldName)
            ∧ titleLine self' = titleLine self)
  ∧ ((∃ fieldName, fieldName ∈ fieldNameList ∧ fieldName ∉ fieldNames self) →
     reorderFields self fieldNameList = Raises KeyError).
Proof.
  intros Hnodup. unfold reorderFields, fieldNames. split.
  - intros Hin.
    destruct (reorderFields_go_spec (fieldDict self) fieldNameList [] Hin Hnodup)
      as (result & Hgo & Hnames & Hlookup).
    { intros fieldName _. apply not_elem_of_nil. }
    rewrite Hgo. cbn [obind]. eexists. split; [done|].
    cbn [fieldDict set_fieldDict titleLine]. split; [done|]. split; [|done].
    intros fieldName Hname. by rewrite Hlookup, bool_decide_eq_true_2.
  - intros Hmissing. by rewrite reorderFields_go_KeyError.
Qed.

Lemma fieldDict_kept_ok_witness :
  ∃ self',
    addFieldList (RE := Fragment.engine) Examples.blank
      ["Size"; "Name"] true true = Returns self'
    ∧ fieldNames self' = ["Name"; "Tag"; "Kind"; "Code"; "Size"]
    ∧ dict_ok (fieldDict self').
Proof.
  eexists. split; [reflexivity|]. split; [reflexivity|].
  apply (fieldDict_kept_ok (RE := Fragment.engine)
           Examples.blank _ Examples_dict_ok).
  right. right. left. by exists ["Size"; "Name"], true, true.
Defined.

Lemma addField_stores_witness :
  ∃ self',
    addField (RE := Fragment.engine) Examples.blank "Tag"
      (mkFieldData (Some "Tag") (Some "OneLineText") None (Some "[") (Some "]")
         None None None None None)
    = Returns self'
    ∧ fieldNames self' = ["Name"; "Tag"; "Kind"; "Code"]
    ∧ (typeName <$> fieldDict_get (fieldDict self') "Tag") = Some OneLineText.
Proof.
  eexists. split; [reflexivity|].
  destruct (addField_stores (RE := Fragment.engine)
              Examples.blank _ "Tag"
              (mkFieldData (Some "Tag") (Some "OneLineText") None (Some "[")
                 (Some "]") None None None None None) eq_refl)
    as (Hnames & (field & Hget & _ & Hclass) & _).
  split; [exact Hnames|]. rewrite Hget. cbn [fmap option_fmap option_map].
  by rewrite Hclass.
Defined.

Lemma reorderFields_order_witness :
  (∃ self', reorderFields Examples.blank ["Code"; "Name"] = Returns self'
            ∧ fieldNames self' = ["Code"; "Name"])
  ∧ reorderFields Examples.blank ["Code"; "Size"] = Raises KeyError.
Proof.
  split.
  - destruct (reorderFields_order Examples.blank ["Code"; "Name"])
      as [Hsome _].
    { apply (bool_decide_unpack _). vm_compute. exact I. }
    destruct Hsome as (self' & Hre & Hnames & _).
    { intros fieldName Hin. apply (bool_decide_unpack _).
      repeat (apply elem_of_cons in Hin as [->|Hin]; [vm_compute; exact I|]).
      by apply elem_of_nil in Hin. }
    by exists self'.
  - reflexivity.
Defined.

(** ** Format data of a field *)


Section FieldDataProperties.

Context {RE : ReEngine}.


End FieldDataProperties.


(** ** Output lines *)

Lemma length_add_to_last (result : list string) (text : string) :
  length (add_to_last result text) = length result.
Proof.
  induction result as [|line result IH]; [done|].
  destruct result as [|line' result]; [done|].
  change (add_to_last (line :: line' :: result) text)
    with (line :: add_to_last (line' :: result) text).
  cbn [length]. by rewrite IH.
Qed.

Section OutputProperties.

Context {RE : ReEngine} {LIT : Literals}.

Lemma outputLine_length (self : NodeFormat) (node : NodeView)
    (plainText keepBlanks : bool) (result result' : list string)
    (lineData : list Segment) :
  outputLine self node plainText keepBlanks result lineData = Returns result' →
  length result ≤ length result' ≤ S (length result)
  ∧ (keepBlanks = true → length result' = S (length result)).
Proof.
  unfold outputLine.
  destruct (foldM _ lineData _) as [[[line numEmptyFields] numFullFields]|e];
    [|done].
  cbn [obind].
  destruct (keepBlanks || (0 <? numFullFields) || (numEmptyFields =? 0)) eqn:Hkeep.
  { intros [= <-]. rewrite length_app. cbn [length]. split; lia. }
  assert (keepBlanks = false) as -> by (by destruct keepBlanks).
  destruct (formatHtml self && negb plainText && bool_decide (result ≠ [])).
  - destruct (py_re_match _endTagRe line) as [[groups|]|e]; cbn [lift obind];
      try done.
    + destruct (groups !! 1); [|done]. intros [= <-].
      rewrite length_add_to_last. split; [lia|done].
    + intros [= <-]. split; [lia|done].
  - intros [= <-]. split; [lia|done].
Qed.

(** X9: [formatOutput] of a node format answers at most one line for each
    output format line, and one for each when [keepBlanks] is set. *)
Theorem formatOutput_lines (self : NodeFormat) (node : NodeView)
    (plainText keepBlanks : bool) (result : list string) :
  NodeFormat_formatOutput self node plainText keepBlanks = Returns result →
  length result ≤ length (outputLines self)
  ∧ (keepBlanks = true → length result = length (outputLines self)).
Proof.
  unfold NodeFormat_formatOutput.
  assert (∀ lines acc,
    foldM (outputLine self node plainText keepBlanks) lines acc = Returns result →
    length acc ≤ length result ≤ length acc + length lines
    ∧ (keepBlanks = true → length result = length acc + length lines)) as Hfold.
  { induction lines as [|lineData lines IH]; intros acc.
    { intros [= <-]. cbn [length]. split; lia. }
    cbn [foldM].
    destruct (outputLine self node plainText keepBlanks acc lineData)
      as [acc'|e] eqn:Hline; [|done].
    cbn [obind]. intros Hrest.
    apply outputLine_length in Hline as [Hle Heq].
    apply IH in Hrest as [Hle' Heq']. cbn [length]. split; [lia|].
    intros Hkeep. rewrite (Heq' Hkeep), (Heq Hkeep). lia. }
  intros Hresult. apply Hfold in Hresult as [Hle Heq]. cbn [length] in *.
  split; [lia|]. intros Hkeep. by rewrite (Heq Hkeep).
Qed.

End OutputProperties.

Lemma formatOutput_lines_witness :
  NodeFormat_formatOutput (RE := Fragment.engine) (LIT := no_literals)
    (changeOutputLines Examples.blank ["{*Name*}"; "Tag: {*Tag*}"; "-"] false)
    (mkNodeView {[ "Name" := "Trip" ]} None None) true false
  = Returns ["Trip"; "-"]
  ∧ length ["Trip"; "-"] ≤ 3.
Proof.
  split; [reflexivity|].
  exact (proj1 (formatOutput_lines (RE := Fragment.engine) (LIT := no_literals)
                  (changeOutputLines Examples.blank
                     ["{*Name*}"; "Tag: {*Tag*}"; "-"] false)
                  (mkNodeView {[ "Name" := "Trip" ]} None None) true false
                  ["Trip"; "-"] eq_refl)).
Defined.

(** ** Nodes and their file data *)

Lemma mapM_lookup {A B : Type} (f : A → outcome B) (l : list A) (l' : list B) :
  Forall2 (λ x y, f x = Returns y) l l' → mapM f l = Returns l'.
Proof.
  induction 1 as [|x y l l' Hx _ IH]; [done|].
  cbn [mapM]. by rewrite Hx, IH.
Qed.

(** X10: a node made from the file data of a node, its references
    assigned from a dictionary that holds the children of the node under
    their uids, is the node; the node has no references left to assign. *)
Theorem fileData_assignRefs (self : TreeNode) (nodeDict : gmap string TreeNode)
    (newUid : string) :
  tmpChildRefs self = [] →
  (∀ child, child ∈ childList self → nodeDict !! uId child = Some child) →
  assignRefs (TreeNode_init newUid (formatRef self) (fileData self)) nodeDict
  = Returns self.
Proof.
  destruct self as [fmt uid dat refs children].
  cbn [tmpChildRefs childList formatRef]. intros -> Hdict.
  unfold assignRefs, TreeNode_init, fileData.
  cbn [key_uid key_data key_children default from_option id tmpChildRefs
       formatRef uId data childList].
  rewrite (mapM_lookup _ _ children); [done|].
  apply Forall2_fmap_l, Forall_Forall2_diag, Forall_forall.
  intros child Hin. unfold compose. by rewrite (Hdict child Hin).
Qed.

Lemma fileData_assignRefs_witness :
  assignRefs
    (TreeNode_init "new" Examples.blank
       (fileData
          (mkTreeNode Examples.blank "n1" {[ "Name" := "Trip" ]} []
             [mkTreeNode Examples.nameTag "n2" ∅ [] []])))
    {[ "n2" := mkTreeNode Examples.nameTag "n2" ∅ [] [] ]}
  = Returns
      (mkTreeNode Examples.blank "n1" {[ "Name" := "Trip" ]} []
         [mkTreeNode Examples.nameTag "n2" ∅ [] []]).
Proof.
  apply (fileData_assignRefs
           (mkTreeNode Examples.blank "n1" {[ "Name" := "Trip" ]} []
              [mkTreeNode Examples.nameTag "n2" ∅ [] []])
           {[ "n2" := mkTreeNode Examples.nameTag "n2" ∅ [] [] ]} "new").
  - reflexivity.
  - intros child Hin. cbn [childList] in Hin.
    apply list_elem_of_singleton in Hin as ->. cbn [uId].
    apply lookup_singleton_eq.
Defined.

(** ** Values of fields *)

Section ValueProperties.

Context {RE : ReEngine} {LIT : Literals} {BP : BooleanParse}.

(** X11: a text that [storedText] of a choice field or of a regular
    expression field (with escaped HTML) has accepted is shown by
    [outputText] as a plain text field shows it, never replaced by the
    error marker. *)
Theorem storedText_outputText (field : Field) (node : NodeView)
    (editorText stored : string) (titleMode formatHtml : bool) :
  typeName field = Choice
  ∨ (typeName field = RegularExpression ∧ evalHtml field = false
     ∧ field_ok field) →
  useFileInfo field = false →
  storedText field editorText = Ok stored →
  view_data node !! name field = Some stored →
  outputText field node titleMode formatHtml
  = Returns (if Str.truthy stored
             then TextField_formatOutput field stored titleMode formatHtml
             else "").
Proof.
  intros Hclass Hinfo Hstored Hdata.
  assert (outputText field node titleMode formatHtml
          = TextField_outputText field node titleMode formatHtml) as ->.
  { unfold outputText. by destruct Hclass as [->|(-> & _)]. }
  unfold TextField_outputText. rewrite Hinfo. cbn [obind].
  unfold data_get. rewrite Hdata.
  change (default "" (Some stored)) with stored.
  destruct (Str.truthy stored) eqn:Htruthy; [|done].
  unfold formatOutput, storedText in *.
  destruct Hclass as [Ht|(Ht & Hhtml & Hok)]; rewrite Ht in *.
  - unfold ChoiceField_storedText in Hstored.
    unfold ChoiceField_formatOutput.
    destruct (negb (Str.truthy _) || bool_decide _) eqn:Hacc; [|done].
    injection Hstored as Hstored. rewrite Hstored in Hacc.
    rewrite Htruthy in Hacc. cbn [negb orb] in Hacc. by rewrite Hacc.
  - unfold RegularExpressionField_storedText in Hstored.
    unfold RegularExpressionField_formatOutput.
    rewrite (py_re_match_ok field editorText Ht Hok) in Hstored.
    cbn [bind] in Hstored. rewrite Hhtml in Hstored.
    destruct (negb (Str.truthy editorText) || bool_decide _) eqn:Hacc; [|done].
    injection Hstored as <-.
    rewrite unescape_escape, (py_re_match_ok field editorText Ht Hok).
    cbn [bind]. destruct editorText as [|c editorText]; [done|].
    cbn [Str.truthy negb orb] in Hacc. by rewrite Hacc, orb_true_r.
Qed.

(** The value that a field of a class other than [BooleanField] compares
    a node by is the adjusted value of the text that the node stores for
    the field. *)
Lemma compareValue_adjusted (field : Field) (nodeData : gmap string string) :
  typeName field ≠ Boolean →
  compareValue field nodeData
  = adjustedCompareValue field (data_get nodeData (name field)).
Proof.
  intros Hclass. unfold compareValue, adjustedCompareValue.
  by destruct (typeName field).
Qed.

(** X12: the choices of a combination field that are active in an editor
    text are choices of its combo box, in the order of the combo box. *)
Theorem comboActiveChoices_sublist (self : Field) (editorText : string) :
  sublist (CombinationField_comboActiveChoices self editorText)
    (CombinationField_comboChoices self).
Proof.
  unfold CombinationField_comboActiveChoices, CombinationField_comboChoices,
    CombinationField_sortedSelections.
  destruct (evalHtml self).
  - apply sublist_filter.
  - apply fmap_sublist, sublist_filter.
Qed.

Lemma formatEditorText_set_initDefault (self : Field) (v text : string) :
  formatEditorText (set_initDefault self v) text = formatEditorText self text.
Proof. by destruct self. Qed.

(** X13: the editor text that [setInitDefault] has accepted is the one that
    [getEditorInitDefault] answers afterwards, for the classes whose stored
    text gives the editor text back. *)
Theorem setInitDefault_getEditorInitDefault (self self' : Field)
    (editorText : string) :
  exactRoundTrip (typeName self) → field_ok self →
  setInitDefault self editorText = Ok self' →
  getEditorInitDefault self' = Ok editorText
  ∧ storedText self editorText = Ok (getInitDefault self').
Proof.
  intros Hexact Hok. unfold setInitDefault, getEditorInitDefault, getInitDefault.
  destruct (storedText self editorText) as [stored|e] eqn:Hstored; [|done].
  cbn [bind]. intros [= <-]. split; [|done].
  rewrite formatEditorText_set_initDefault. cbn [initDefault set_initDefault].
  by apply exact_round_trip.
Qed.

(** X14: [mathValue] answers [None] for a blank value when [zeroBlanks] is
    off and never when it is on; a value is blank when its text is empty,
    for a text class once the markup is removed. *)
Theorem mathValue_None (self : Field) (node : NodeView) (zeroBlanks : bool) :
  let storedText := data_get (view_data node) (name self) in
  let blank :=
    if bool_decide (typeName self ∈ [Number; Boolean]) then storedText
    else removeMarkup storedText in
  mathValue self node zeroBlanks = Ok None ↔ zeroBlanks = false ∧ blank = "".
Proof.
  intros storedText blank. unfold blank, storedText, mathValue,
    TextField_mathValue, NumberField_mathValue, BooleanField_mathValue.
  destruct (typeName self) eqn:Ht;
    first [ rewrite bool_decide_eq_false_2 by (intros Hin; by wrong_class Hin)
          | rewrite bool_decide_eq_true_2 by (repeat constructor) ].
  all: try (destruct (removeMarkup (data_get (view_data node) (name self)));
            destruct zeroBlanks; cbn [Str.truthy negb orb]; by intuition).
  - destruct (data_get (view_data node) (name self)) as [|c s];
      cbn [Str.truthy negb].
    + destruct zeroBlanks; by intuition.
    + destruct (GenNumber_num (String c s)); cbn [orValueError bind];
        by intuition.
  - destruct (data_get (view_data node) (name self)) as [|c s];
      cbn [Str.truthy negb].
    + destruct zeroBlanks; by intuition.
    + destruct (GenBoolean_value (String c s)); cbn [orValueError bind];
        by intuition.
Qed.

End ValueProperties.

Lemma storedText_outputText_witness :
  storedText (RE := Fragment.engine) (LIT := no_literals)
    (Examples.codeField "ab.*") "ab<1>" = Ok "ab&lt;1&gt;"
  ∧ outputText (RE := Fragment.engine) (LIT := no_literals)
      (Examples.codeField "ab.*")
      (mkNodeView {[ "Code" := "ab&lt;1&gt;" ]} None None) false true
    = Returns "ab&lt;1&gt;".
Proof.
  split; [reflexivity|].
  apply (storedText_outputText (RE := Fragment.engine) (LIT := no_literals)
           (Examples.codeField "ab.*")
           (mkNodeView {[ "Code" := "ab&lt;1&gt;" ]} None None)
           "ab<1>" "ab&lt;1&gt;" false true).
  - right. split; [reflexivity|]. split; [reflexivity|]. intros _. reflexivity.
  - reflexivity.
  - reflexivity.
  - reflexivity.
Defined.

Lemma setInitDefault_getEditorInitDefault_witness :
  ∃ self',
    setInitDefault (RE := Fragment.engine) (LIT := no_literals)
      Examples.kindField "2" = Ok self'
    ∧ getEditorInitDefault (RE := Fragment.engine) (LIT := no_literals) self'
      = Ok "2".
Proof.
  exists (set_initDefault Examples.kindField "2").
  assert (setInitDefault (RE := Fragment.engine) (LIT := no_literals)
            Examples.kindField "2"
          = Ok (set_initDefault Examples.kindField "2")) as Hset
    by (vm_compute; reflexivity).
  split; [exact Hset|].
  apply (setInitDefault_getEditorInitDefault (RE := Fragment.engine)
           (LIT := no_literals) Examples.kindField _ "2").
  - unfold exactRoundTrip. cbn. repeat constructor.
  - intros Ht. discriminate Ht.
  - exact Hset.
Defined.

(** ** Titles on parsed title lines *)





Section ParsedTitleProperties.

Context {LIT : Literals}.





End ParsedTitleProperties.


(** ** Titles and output of nodes *)

Section NodeOutputProperties.

Context {RE : ReEngine} {LIT : Literals}.

Lemma formatOutput_returns (field : Field) (storedText : string)
    (titleMode formatHtml : bool) :
  field_ok field →
  ∃ text, formatOutput field storedText titleMode formatHtml = Ok text.
Proof.
  intros Hok. unfold formatOutput.
  destruct (typeName field) eqn:Ht; try (by eexists).
  unfold RegularExpressionField_formatOutput.
  rewrite (py_re_match_ok field _ Ht Hok). by eexists.
Qed.

Lemma outputText_returns (field : Field) (self : TreeNode)
    (titleMode formatHtml : bool) :
  typeName field ≠ Combination → useFileInfo field = false → field_ok field →
  ∃ text, outputText field (view self) titleMode formatHtml = Returns text.
Proof.
  intros Hclass Hinfo Hok.
  assert (outputText field (view self) titleMode formatHtml
          = TextField_outputText field (view self) titleMode formatHtml) as ->.
  { unfold outputText. by destruct (typeName field). }
  unfold TextField_outputText. rewrite Hinfo. cbn [obind].
  destruct (Str.truthy _); [|by eexists].
  destruct (formatOutput_returns field (data_get (view_data (view self)) (name field))
              titleMode formatHtml Hok) as [text ->].
  by eexists.
Qed.

Lemma outputLine_returns (self : TreeNode) (nf : NodeFormat) (keepBlanks : bool)
    (result : list string) (lineData : list Segment) :
  Forall (λ field, typeName field ≠ Combination ∧ useFileInfo field = false
                   ∧ field_ok field) (segFields lineData) →
  ∃ result', outputLine nf (view self) true keepBlanks result lineData
             = Returns result'.
Proof.
  intros Hfields. unfold outputLine.
  assert (∀ acc, ∃ acc',
            foldM (outputPart nf (view self) true) lineData acc = Returns acc')
    as Hparts.
  { induction lineData as [|[field|text] lineData IH]; intros [[line e] f].
    - by eexists.
    - change (segFields (SegField field :: lineData))
        with (field :: segFields lineData) in Hfields.
      apply Forall_cons in Hfields as [(Hclass & Hinfo & Hok) Hfields].
      cbn [foldM outputPart].
      destruct (outputText_returns field self true (formatHtml nf) Hclass Hinfo Hok)
        as [part ->].
      cbn [obind]. destruct (Str.truthy part); cbn [obind]; by apply IH.
    - cbn [foldM outputPart]. rewrite andb_false_r.
      destruct (formatHtml nf && true); cbn [obind]; by apply IH. }
  destruct (Hparts ("", 0, 0)) as [[[line e] f] ->]. cbn [obind].
  rewrite andb_false_r. cbn [negb andb].
  destruct (keepBlanks || (0 <? f) || (e =? 0)); by eexists.
Qed.

(** X16: for a node whose format has no combination field, [title] and the
    plain text [output] answer and raise no exception; the fields of the
    format lines read the data of the node itself and their regular
    expressions compile. *)
Theorem title_output_return (self : TreeNode) (keepBlanks : bool) :
  Forall (λ field, typeName field ≠ Combination ∧ useFileInfo field = false
                   ∧ field_ok field)
    (segFields (titleLine (formatRef self))
     ++ mjoin (segFields <$> outputLines (formatRef self))) →
  (∃ text, title self = Returns text)
  ∧ ∃ lines, output self true keepBlanks = Returns lines.
Proof.
  intros [Htitle Houtput]%Forall_app. split.
  - unfold title, formatTitle.
    assert (∃ parts, mapM (titlePart (formatRef self) (view self))
                       (titleLine (formatRef self)) = Returns parts)
      as [parts ->]; [|by eexists].
    induction (titleLine (formatRef self)) as [|[field|text] segs IH].
    + by exists [].
    + change (segFields (SegField field :: segs)) with (field :: segFields segs)
        in Htitle.
      apply Forall_cons in Htitle as [(Hclass & Hinfo & Hok) Htitle].
      destruct (IH Htitle) as [parts Hparts].
      destruct (outputText_returns field self true (formatHtml (formatRef self))
                  Hclass Hinfo Hok) as [part Hpart].
      exists (part :: parts). cbn [mapM titlePart]. by rewrite Hpart, Hparts.
    + destruct (IH Htitle) as [parts Hparts].
      exists (text :: parts). cbn [mapM titlePart obind]. by rewrite Hparts.
  - unfold output, NodeFormat_formatOutput.
    generalize (@nil string).
    induction (outputLines (formatRef self)) as [|lineData lines IH]; intros acc.
    + by eexists.
    + change (mjoin (segFields <$> lineData :: lines))
        with (segFields lineData ++ mjoin (segFields <$> lines)) in Houtput.
      apply Forall_app in Houtput as [Hline Houtput].
      cbn [foldM].
      destruct (outputLine_returns self (formatRef self) keepBlanks acc lineData
                  Hline) as [acc' ->].
      cbn [obind]. by apply IH.
Qed.

End NodeOutputProperties.

Lemma title_output_return_witness :
  (∃ text,
     title (RE := Fragment.engine) (LIT := no_literals)
       (mkTreeNode
          (changeOutputLines Examples.nameKind ["{*Name*}"; "Code {*Code*}"] false)
          "n1" {[ "Name" := "Trip"; "Code" := "zz" ]} [] [])
     = Returns text)
  ∧ ∃ lines,
      output (RE := Fragment.engine) (LIT := no_literals)
        (mkTreeNode
           (changeOutputLines Examples.nameKind ["{*Name*}"; "Code {*Code*}"] false)
           "n1" {[ "Name" := "Trip"; "Code" := "zz" ]} [] []) true false
      = Returns lines.
Proof.
  apply (title_output_return (RE := Fragment.engine) (LIT := no_literals)
           (mkTreeNode
              (changeOutputLines Examples.nameKind ["{*Name*}"; "Code {*Code*}"] false)
              "n1" {[ "Name" := "Trip"; "Code" := "zz" ]} [] []) false).
  change (Forall (λ field, typeName field ≠ Combination ∧ useFileInfo field = false
                           ∧ field_ok (RE := Fragment.engine) field)
            [Examples.nameField; Examples.kindField; Examples.nameField;
             Examples.codeField "ab.*"]).
  repeat (apply Forall_cons; split;
          [split; [discriminate|split; [reflexivity|intros Ht; by vm_compute]]|]).
  apply Forall_nil_2.
Defined.

(** ** Parsing a format line again *)

Lemma words_go_word (s : string) :
  no_space (Str.words_go s).1 = true
  ∧ Forall (λ word, word ≠ "" ∧ no_space word = true) (Str.words_go s).2.
Proof.
  induction s as [|c s [Hw Hws]]; [by split|].
  cbn [Str.words_go]. destruct (Str.words_go s) as [w ws]. cbn [fst snd] in *.
  destruct (Str.isspace c) eqn:Hc; cbn [fst snd no_space].
  - split; [done|]. destruct w; [done|]. by apply Forall_cons.
  - by rewrite Hc, Hw.
Qed.

Lemma words_word (s : string) :
  Forall (λ word, word ≠ "" ∧ no_space word = true) (Str.words s).
Proof.
  unfold Str.words. destruct (words_go_word s) as [Hw Hws].
  destruct (Str.words_go s) as [w ws]. cbn [fst snd] in *.
  destruct w; [done|]. by apply Forall_cons.
Qed.

Lemma words_go_app (word s : string) :
  no_space word = true →
  Str.words_go (word +:+ s) = (word +:+ (Str.words_go s).1, (Str.words_go s).2).
Proof.
  induction word as [|c word IH].
  { intros _. rewrite !append_nil_l. by destruct (Str.words_go s). }
  cbn [no_space]. intros [Hc Hword]%andb_true_iff. apply negb_true_iff in Hc.
  rewrite append_String. cbn [Str.words_go]. rewrite (IH Hword), Hc.
  by rewrite append_String.
Qed.

Lemma words_join (words : list string) :
  Forall (λ word, word ≠ "" ∧ no_space word = true) words →
  Str.words (Str.join " " words) = words.
Proof.
  induction 1 as [|word words [Hne Hword] Hwords IH]; [done|].
  destruct words as [|word' words].
  - cbn [Str.join]. unfold Str.words.
    rewrite <- (append_nil_r word) at 1. rewrite (words_go_app _ _ Hword).
    cbn [Str.words_go fst snd]. rewrite append_nil_r. by destruct word.
  - change (Str.join " " (word :: word' :: words))
      with (word +:+ String " " (Str.join " " (word' :: words))).
    unfold Str.words at 1. rewrite (words_go_app _ _ Hword).
    cbn [Str.words_go]. unfold Str.words in IH.
    destruct (Str.words_go (Str.join " " (word' :: words))) as [w ws].
    change (Str.isspace " ") with true. cbn [fst snd].
    rewrite append_nil_r, IH. by destruct word.
Qed.

(** Making the runs of white space single spaces a second time changes
    nothing. *)
Lemma normalize_idemp (text : string) :
  Str.join " " (Str.words (Str.join " " (Str.words text)))
  = Str.join " " (Str.words text).
Proof. by rewrite words_join by apply words_word. Qed.

Lemma parseLine_normalized (fieldDict : list (string * Field)) (text : string) :
  parseLine fieldDict (Str.join " " (Str.words text)) = parseLine fieldDict text.
Proof. unfold parseLine. by rewrite normalize_idemp. Qed.

Lemma updateLineParsing_unfold (self : NodeFormat) :
  updateLineParsing self
  = mkNodeFormat (formatName self) (fieldDict self)
      (parseLine (fieldDict self) (getTitleLine self))
      (parseLine (fieldDict self) <$> getOutputLines self)
      (spaceBetween self) (formatHtml self) (childType self) (iconName self).
Proof. reflexivity. Qed.

(** X17: [updateLineParsing] keeps the text of the format lines, their runs
    of white space made single spaces, and parsing the lines a second
    time changes nothing. *)
Theorem updateLineParsing_idemp (self : NodeFormat) :
  dict_ok (fieldDict self) →
  getTitleLine (updateLineParsing self)
  = Str.join " " (Str.words (getTitleLine self))
  ∧ getOutputLines (updateLineParsing self)
    = (λ line, Str.join " " (Str.words line)) <$> getOutputLines self
  ∧ updateLineParsing (updateLineParsing self) = updateLineParsing self.
Proof.
  intros Hdict.
  assert (getTitleLine (updateLineParsing self)
          = Str.join " " (Str.words (getTitleLine self))) as Htitle.
  { unfold getTitleLine at 1, updateLineParsing, set_outputLines, set_titleLine.
    cbn [titleLine fieldDict]. by apply lineText_parseLine. }
  assert (getOutputLines (updateLineParsing self)
          = (λ line, Str.join " " (Str.words line)) <$> getOutputLines self)
    as Hlines.
  { unfold getOutputLines at 1.
    change (outputLines (updateLineParsing self))
      with (parseLine (fieldDict self) <$> getOutputLines self).
    assert (lineText <$> (parseLine (fieldDict self) <$> getOutputLines self)
            = (λ line, Str.join " " (Str.words line)) <$> getOutputLines self)
      as ->.
    { rewrite <- list_fmap_compose.
      apply Forall_fmap_ext_1, Forall_forall. intros line _.
      by apply lineText_parseLine. }
    assert (getOutputLines self ≠ []) as Hne.
    { unfold getOutputLines. by destruct (lineText <$> outputLines self). }
    by destruct (getOutputLines self). }
  split; [done|]. split; [done|].
  rewrite (updateLineParsing_unfold (updateLineParsing self)), Htitle, Hlines.
  rewrite (updateLineParsing_unfold self).
  cbn [formatName fieldDict spaceBetween formatHtml childType iconName].
  f_equal.
  - apply parseLine_normalized.
  - rewrite <- list_fmap_compose. apply Forall_fmap_ext_1, Forall_forall.
    intros line _. apply parseLine_normalized.
Qed.

Lemma updateLineParsing_idemp_witness :
  titleLine (updateLineParsing
               (mkNodeFormat "DEFAULT" Examples.fieldDict
                  [SegText "{*Name*}  ({*Kind*})"] [] true false "" ""))
  = [SegField Examples.nameField; SegText " ("; SegField Examples.kindField;
     SegText ")"]
  ∧ updateLineParsing
      (updateLineParsing
         (mkNodeFormat "DEFAULT" Examples.fieldDict
            [SegText "{*Name*}  ({*Kind*})"] [] true false "" ""))
    = updateLineParsing
        (mkNodeFormat "DEFAULT" Examples.fieldDict
           [SegText "{*Name*}  ({*Kind*})"] [] true false "" "").
Proof.
  split; [reflexivity|].
  exact (proj2 (proj2 (updateLineParsing_idemp
                         (mkNodeFormat "DEFAULT" Examples.fieldDict
                            [SegText "{*Name*}  ({*Kind*})"] [] true false "" "")
                         Examples_dict_ok))).
Defined.


(** ** Markup *)

Lemma tag_end_app (tag rest : string) :
  lacks ">" tag = true → no_newline tag = true →
  tag_end (tag +:+ String ">" rest) = Some (String.length tag).
Proof.
  induction tag as [|c tag IH]; [done|]. cbn [lacks no_newline].
  intros [Hc Htag]%andb_true_iff [Hnl Hline]%andb_true_iff.
  apply negb_true_iff in Hc, Hnl.
  rewrite append_String. cbn [tag_end]. rewrite Hc, Hnl, (IH Htag Hline). done.
Qed.

Lemma stripTag_skip (passed rest : string) :
  stripTag_go (String.length passed) (passed +:+ rest) = stripTag_go 0 rest.
Proof. induction passed as [|c passed IH]; [done|]. by rewrite append_String. Qed.

(** X18: [removeMarkup] gives back a text that [xml.sax.saxutils.escape]
    has escaped, also within a [pre] element, and it removes a tag after
    a text that has no ['<']. *)
Theorem removeMarkup_escaped (text tag rest : string) :
  removeMarkup (Sax.escape text) = text
  ∧ removeMarkup ("<pre>" +:+ Sax.escape text +:+ "</pre>") = text
  ∧ (no_lt text = true → lacks ">" tag = true → no_newline tag = true →
     removeMarkup (text +:+ "<" +:+ tag +:+ ">" +:+ rest)
     = removeMarkup (text +:+ rest)).
Proof.
  split; [apply removeMarkup_escape|]. split; [apply removeMarkup_pre_escape|].
  intros Htext Htag Hline. unfold removeMarkup. f_equal.
  rewrite (stripTag_no_lt text rest Htext).
  rewrite (stripTag_no_lt text ("<" +:+ tag +:+ ">" +:+ rest) Htext). f_equal.
  change ("<" +:+ tag +:+ ">" +:+ rest) with (String "<" (tag +:+ String ">" rest)).
  cbn [stripTag_go Ascii.eqb Bool.eqb]. rewrite (tag_end_app _ _ Htag Hline).
  change (tag +:+ String ">" rest) with (tag +:+ (">" +:+ rest)).
  rewrite <- append_assoc.
  replace (S (String.length tag)) with (String.length (tag +:+ ">"))
    by (rewrite length_append; cbn; lia).
  apply stripTag_skip.
Qed.

Lemma removeMarkup_escaped_witness :
  removeMarkup "a &amp; b<br />c" = removeMarkup "a &amp; bc"
  ∧ removeMarkup "a &amp; bc" = "a & bc".
Proof.
  split; [|reflexivity].
  destruct (removeMarkup_escaped "a &amp; b" "br /" "c") as (_ & _ & Htag).
  exact (Htag eq_refl eq_refl eq_refl).
Defined.

(** ** Joining and splitting selections *)

Lemma replace_lacks (a : ascii) (new s : string) :
  lacks a s = true → Str.replace (String a "") new s = s.
Proof.
  induction s as [|c s IH]; [done|]. cbn [lacks].
  intros [Hc Hs]%andb_true_iff. apply negb_true_iff in Hc.
  rewrite replace_char_cons, Ascii.eqb_sym, Hc, (IH Hs). done.
Qed.

Lemma replace_char_lacks (a b : ascii) (s : string) :
  a ≠ b → lacks a (Str.replace (String a "") (String b "") s) = true.
Proof.
  intros Hab. induction s as [|c s IH]; [done|].
  rewrite replace_char_cons.
  destruct (Ascii.eqb_spec a c) as [<-|Hne]; rewrite append_String, append_nil_l;
    cbn [lacks]; rewrite IH, andb_true_r; apply negb_true_iff, Ascii.eqb_neq;
    congruence.
Qed.

Lemma replace_char_back (a b : ascii) (s : string) :
  lacks b s = true →
  Str.replace (String b "") (String a "") (Str.replace (String a "") (String b "") s)
  = s.
Proof.
  induction s as [|c s IH]; [done|]. cbn [lacks].
  intros [Hc Hs]%andb_true_iff. apply negb_true_iff, Ascii.eqb_neq in Hc.
  rewrite replace_char_cons.
  destruct (Ascii.eqb_spec a c) as [<-|Hne]; rewrite append_String, append_nil_l,
    replace_char_cons.
  - by rewrite Ascii.eqb_refl, (IH Hs).
  - destruct (Ascii.eqb_spec b c) as [->|_]; [done|]. by rewrite (IH Hs).
Qed.

(** Replacing the doubled separator passes over a text whose separators
    are doubled, pair by pair. *)
Lemma replace_doubled (text rest : string) :
  Str.replace "//" nul (Str.replace "/" "//" text +:+ rest)
  = Str.replace "/" nul text +:+ Str.replace "//" nul rest.
Proof.
  induction text as [|c text IH]; [done|].
  rewrite !replace_char_cons.
  destruct (Ascii.eqb_spec "/" c) as [<-|Hne].
  - transitivity
      (nul +:+ Str.replace "//" nul (Str.replace "/" "//" text +:+ rest));
      [reflexivity|]. by rewrite IH, append_assoc.
  - rewrite !append_String, !append_nil_l. unfold Str.replace in *.
    cbn [Str.replace_go Str.startswith].
    apply Ascii.eqb_neq in Hne. rewrite Hne. by rewrite IH.
Qed.

Lemma replace_separator (rest : string) :
  Str.startswith "/" rest = false →
  Str.replace "//" nul ("/" +:+ rest) = "/" +:+ Str.replace "//" nul rest.
Proof.
  intros Hrest. unfold Str.replace.
  change ("/" +:+ rest) with (String "/" rest). cbn [Str.replace_go].
  change (Str.startswith "//" (String "/" rest)) with (Str.startswith "/" rest).
  by rewrite Hrest.
Qed.

Lemma startswith_doubled (text rest : string) :
  text ≠ "" → Str.startswith "/" text = false →
  Str.startswith "/" (Str.replace "/" "//" text +:+ rest) = false.
Proof.
  destruct text as [|c text]; [done|]. intros _ Hstart.
  cbn [Str.startswith] in Hstart.
  destruct (Ascii.eqb "/" c) eqn:Hc; [by destruct text|].
  rewrite replace_char_cons, Hc, !append_String. cbn [Str.startswith].
  by rewrite Hc.
Qed.

Lemma joinText_cons (text : string) (textList : list string) :
  CombinationField_joinText (text :: textList)
  = Str.replace "/" "//" text
    +:+ match textList with
        | [] => ""
        | _ => "/" +:+ CombinationField_joinText textList
        end.
Proof.
  unfold CombinationField_joinText. rewrite fmap_cons.
  destruct textList; [by rewrite append_nil_r|done].
Qed.

Lemma replace_joinText (textList : list string) :
  Forall (λ text, text ≠ "") textList →
  Forall (λ text, Str.startswith "/" text = false) (tail textList) →
  Str.replace "//" nul (CombinationField_joinText textList)
  = Str.join "/" (Str.replace "/" nul <$> textList).
Proof.
  induction 1 as [|text textList Hne Hnes IH]; [done|]. intros Hstart.
  rewrite joinText_cons, replace_doubled. cbn [tail] in Hstart.
  destruct textList as [|text' textList].
  { change (Str.replace "//" nul "") with "". rewrite append_nil_r. reflexivity. }
  apply Forall_cons in Hstart as [Hstart' Hstart].
  apply Forall_cons in Hnes as [Hne' Hnes].
  rewrite replace_separator.
  - rewrite IH by exact Hstart. reflexivity.
  - rewrite joinText_cons. by apply startswith_doubled.
Qed.

Lemma split_go_lacks (text rest : string) :
  lacks "/" text = true →
  Str.split_go "/" 0 (text +:+ rest)
  = (text +:+ (Str.split_go "/" 0 rest).1, (Str.split_go "/" 0 rest).2).
Proof.
  induction text as [|c text IH].
  { intros _. rewrite !append_nil_l. by destruct (Str.split_go "/" 0 rest). }
  cbn [lacks]. intros [Hc Htext]%andb_true_iff. apply negb_true_iff in Hc.
  rewrite !append_String. cbn [Str.split_go Str.startswith].
  rewrite Ascii.eqb_sym, Hc, (IH Htext). done.
Qed.

Lemma split_join (pieces : list string) :
  Forall (λ piece, lacks "/" piece = true) pieces →
  Str.split "/" (Str.join "/" pieces)
  = match pieces with [] => [""] | _ => pieces end.
Proof.
  induction 1 as [|piece pieces Hpiece Hpieces IH]; [done|].
  destruct pieces as [|piece' pieces].
  - cbn [Str.join]. unfold Str.split.
    rewrite <- (append_nil_r piece) at 1. rewrite (split_go_lacks _ _ Hpiece).
    cbn [Str.split_go fst snd]. by rewrite append_nil_r.
  - change (Str.join "/" (piece :: piece' :: pieces))
      with (piece +:+ String "/" (Str.join "/" (piece' :: pieces))).
    unfold Str.split at 1. rewrite (split_go_lacks _ _ Hpiece).
    cbn [Str.split_go Str.startswith Ascii.eqb Bool.eqb String.length Nat.sub].
    unfold Str.split in IH.
    destruct (Str.split_go "/" 0 (Str.join "/" (piece' :: pieces))) as [p ps].
    cbn [fst snd]. by rewrite append_nil_r, IH.
Qed.

Lemma replace_char_nil (a b : ascii) (s : string) :
  Str.replace (String a "") (String b "") s = "" → s = "".
Proof.
  destruct s as [|c s]; [done|]. rewrite replace_char_cons.
  by destruct (Ascii.eqb a c).
Qed.

Lemma lstrip_replace_char (a b : ascii) (s : string) :
  Str.isspace a = false → Str.isspace b = false →
  Str.lstrip (Str.replace (String a "") (String b "") s)
  = Str.replace (String a "") (String b "") (Str.lstrip s).
Proof.
  intros Ha Hb. induction s as [|c s IH]; [done|].
  rewrite replace_char_cons. cbn [Str.lstrip].
  destruct (Ascii.eqb_spec a c) as [<-|Hne]; rewrite append_String, append_nil_l;
    cbn [Str.lstrip].
  - by rewrite Hb, Ha, replace_char_cons, Ascii.eqb_refl.
  - destruct (Str.isspace c); [done|].
    rewrite replace_char_cons. by destruct (Ascii.eqb_spec a c).
Qed.

Lemma rstrip_replace_char (a b : ascii) (s : string) :
  Str.isspace a = false → Str.isspace b = false →
  Str.rstrip (Str.replace (String a "") (String b "") s)
  = Str.replace (String a "") (String b "") (Str.rstrip s).
Proof.
  intros Ha Hb. induction s as [|c s IH]; [done|].
  rewrite replace_char_cons.
  assert (∀ x, (if Ascii.eqb a c then String b "" else String c "") +:+ x
               = String (if Ascii.eqb a c then b else c) x) as ->
    by (intros x; by destruct (Ascii.eqb a c)).
  cbn [Str.rstrip]. rewrite IH.
  assert (Str.isspace (if Ascii.eqb a c then b else c) = Str.isspace c) as ->
    by (destruct (Ascii.eqb_spec a c) as [<-|]; congruence).
  destruct (Str.rstrip s) as [|d r].
  - change (Str.replace (String a "") (String b "") "") with "".
    destruct (Str.isspace c); [done|].
    rewrite replace_char_cons. by destruct (Ascii.eqb a c).
  - rewrite (replace_char_cons a c), (replace_char_cons a d).
    by destruct (Ascii.eqb a c), (Ascii.eqb a d).
Qed.

Lemma splitText_step_kept (result : list string) (text : string) :
  text ≠ "" → Str.strip text = text → lacks "000" text = true →
  text ∉ result →
  splitText_step result (Str.replace "/" nul text) = result ++ [text].
Proof.
  intros Hne Hstrip Hnul Hnew. unfold splitText_step.
  assert (Str.replace nul editSep (Str.strip (Str.replace "/" nul text)) = text)
    as ->.
  { unfold Str.strip. unfold nul at 2.
    rewrite lstrip_replace_char, rstrip_replace_char by done.
    fold (Str.strip text). rewrite Hstrip. by apply (replace_char_back "/" "000"). }
  destruct text; [done|]. cbn [Str.truthy negb andb].
  by rewrite bool_decide_eq_false_2.
Qed.

Lemma splitText_fold_kept (textList result : list string) :
  Forall (λ text, text ≠ "" ∧ Str.strip text = text ∧ lacks "000" text = true)
    textList →
  NoDup (result ++ textList) →
  foldl splitText_step result (Str.replace "/" nul <$> textList)
  = result ++ textList.
Proof.
  intros Hitems. revert result.
  induction Hitems as [|text textList (Hne & Hstrip & Hnul) _ IH]; intros result Hnd.
  { by rewrite app_nil_r. }
  rewrite fmap_cons. cbn [foldl].
  rewrite splitText_step_kept; [|done..|].
  - rewrite IH; [by rewrite <- app_assoc|]. by rewrite <- app_assoc.
  - apply NoDup_app in Hnd as (_ & Hdisj & _). intros Hin.
    apply (Hdisj _ Hin), list_elem_of_here.
Qed.

(** X19: [splitText] gives back the selections that [joinText] has joined:
    distinct texts that are not empty, have no white space at their ends
    and no NUL character, and of which only the first may begin with the
    separator. *)
Theorem joinText_splitText (textList : list string) :
  NoDup textList →
  Forall (λ text, text ≠ "" ∧ Str.strip text = text ∧ lacks "000" text = true)
    textList →
  Forall (λ text, Str.startswith "/" text = false) (tail textList) →
  ChoiceField_splitText (CombinationField_joinText textList) = textList.
Proof.
  intros Hnd Hitems Hstart. unfold ChoiceField_splitText.
  change (Str.twice editSep) with "//". change editSep with "/".
  rewrite replace_joinText; [|by eapply Forall_impl; [exact Hitems|intros ? []]|done].
  rewrite split_join.
  - destruct textList as [|text textList]; [done|].
    change (match Str.replace "/" nul <$> text :: textList with
            | [] => [""]
            | _ => Str.replace "/" nul <$> text :: textList
            end) with (Str.replace "/" nul <$> text :: textList).
    by rewrite splitText_fold_kept.
  - apply Forall_fmap, Forall_forall. intros text _.
    by apply (replace_char_lacks "/" "000").
Qed.

Lemma joinText_splitText_witness :
  CombinationField_joinText ["/a"; "b/c"; "d/"; "e"] = "//a/b//c/d///e"
  ∧ ChoiceField_splitText "//a/b//c/d///e" = ["/a"; "b/c"; "d/"; "e"].
Proof.
  split; [reflexivity|].
  apply (joinText_splitText ["/a"; "b/c"; "d/"; "e"]).
  - apply (bool_decide_unpack _). vm_compute. exact I.
  - repeat (apply Forall_cons; split; [by repeat split|]). apply Forall_nil_2.
  - repeat (apply Forall_cons; split; [reflexivity|]). apply Forall_nil_2.
Defined.

(** ** Placeholders of fields *)

Lemma is_name_char_plain (c : ascii) :
  is_name_char c = true →
  Str.isspace c = false ∧ Ascii.eqb c "*" = false
  ∧ bool_decide (nat_of_ascii c ∈ [63; 33; 38; 35]) = false.
Proof. destruct c as [[] [] [] [] [] [] [] []]; by vm_compute. Qed.

Lemma take_name_valid (fieldName : string) :
  name_chars fieldName = true →
  take_name (fieldName +:+ "*}") = (fieldName, "*}").
Proof.
  induction fieldName as [|c fieldName IH]; [done|]. cbn [name_chars].
  intros [Hc Hname]%andb_true_iff.
  rewrite append_String. cbn [take_name]. by rewrite Hc, (IH Hname).
Qed.

Lemma no_space_valid (fieldName : string) :
  name_chars fieldName = true → no_space (fieldName +:+ "*}") = true.
Proof.
  induction fieldName as [|c fieldName IH]; [done|]. cbn [name_chars].
  intros [Hc Hname]%andb_true_iff.
  rewrite append_String. cbn [no_space].
  destruct (is_name_char_plain c Hc) as (-> & _). by rewrite (IH Hname).
Qed.

Lemma placeholder_at_valid (fieldName : string) :
  valid_name fieldName →
  placeholder_at (placeholder "" fieldName)
  = Some ("", fieldName, String.length (placeholder "" fieldName)).
Proof.
  intros [Hne Hname]. rewrite placeholder_at_unfold.
  change (Str.startswith "{*" (placeholder "" fieldName)) with true.
  change (str_drop 2 (placeholder "" fieldName)) with (fieldName +:+ "*}").
  cbv zeta.
  destruct fieldName as [|c fieldName]; [done|].
  cbn [name_chars] in Hname. apply andb_true_iff in Hname as [Hc Hname'].
  destruct (is_name_char_plain c Hc) as (_ & Hstar & Hmod).
  rewrite append_String. cbn [take_stars]. rewrite Hstar, Hmod.
  rewrite <- append_String, take_name_valid
    by (cbn [name_chars]; by rewrite Hc, Hname').
  cbn [Str.truthy negb andb Str.startswith Ascii.eqb Bool.eqb].
  unfold placeholder. rewrite !length_append. cbn [String.length].
  replace (2 + (0 + (S (String.length fieldName) + 2)))
    with (4 + 0 + S (String.length fieldName)) by lia.
  done.
Qed.

Lemma fieldSplit_go_passed (text : string) (skip : nat) :
  String.length text ≤ skip → fieldSplit_go skip text = ("", []).
Proof.
  revert skip. induction text as [|c text IH]; intros skip Hlen; [by destruct skip|].
  cbn [String.length] in Hlen. destruct skip as [|skip]; [lia|].
  cbn [fieldSplit_go]. apply IH. lia.
Qed.

Lemma fieldSplit_go_found (text modifier fieldName : string) (n : nat) :
  placeholder_at text = Some (modifier, fieldName, n) →
  fieldSplit_go 0 text
  = ("", str_take n text
         :: (fieldSplit_go (n - 1) (str_drop 1 text)).1
         :: (fieldSplit_go (n - 1) (str_drop 1 text)).2).
Proof.
  intros Hat. destruct text as [|c text]; [done|].
  cbn [fieldSplit_go str_drop]. rewrite Hat.
  by destruct (fieldSplit_go (n - 1) text).
Qed.

Lemma str_take_all (s : string) : str_take (String.length s) s = s.
Proof. induction s as [|c s IH]; [done|]. cbn. by rewrite IH. Qed.

(** The placeholder of a field of the dictionary parses to the field. *)
Lemma parseLine_placeholder (fieldDict : list (string * Field))
    (fieldName : string) (field : Field) :
  valid_name fieldName →
  fieldDict_get fieldDict fieldName = Some field →
  parseLine fieldDict (placeholder "" fieldName) = [SegField field].
Proof.
  intros Hvalid Hget. unfold parseLine.
  assert (Str.join " " (Str.words (placeholder "" fieldName))
          = placeholder "" fieldName) as ->.
  { assert (Str.words (Str.join " " [placeholder "" fieldName])
            = [placeholder "" fieldName]) as Hwords.
    2: { change (Str.join " " [placeholder "" fieldName])
           with (placeholder "" fieldName) in Hwords. by rewrite Hwords. }
    apply words_join, Forall_cons. split; [|done]. split; [done|].
    destruct Hvalid as [_ Hname]. exact (no_space_valid _ Hname). }
  unfold fieldSplit.
  assert (fieldSplit_go 0 (placeholder "" fieldName)
          = ("", [placeholder "" fieldName; ""])) as ->.
  { rewrite (fieldSplit_go_found _ _ _ _ (placeholder_at_valid _ Hvalid)).
    rewrite str_take_all, fieldSplit_go_passed; [done|].
    change (placeholder "" fieldName)
      with (String "{" (String "*" (fieldName +:+ "*}"))).
    cbn [String.length str_drop]. lia. }
  rewrite !filter_cons, filter_nil.
  destruct (decide (Str.truthy "" = true)) as [?|_]; [done|].
  destruct (decide (Str.truthy (placeholder "" fieldName) = true)) as [_|Hno];
    [|by destruct Hno].
  cbn [fmap list_fmap]. unfold parseField.
  by rewrite (placeholder_at_valid _ Hvalid), Hget.
Qed.

Section FieldListProperties.

Context {RE : ReEngine}.

Lemma addFieldIfNew_text (self : NodeFormat) (fieldName : string) :
  addFieldIfNew self fieldName noFieldData
  = Returns
      (if bool_decide (fieldName ∈ fieldNames self) then self
       else set_fieldDict self
              (fieldDict_set (fieldDict self) fieldName (TextField_init fieldName))).
Proof.
  unfold addFieldIfNew. case_bool_decide as Hnew.
  - by rewrite bool_decide_eq_false_2.
  - by rewrite bool_decide_eq_true_2.
Qed.

Lemma addFieldIfNew_fold (nameList : list string) (self : NodeFormat) :
  ∃ self',
    foldM (λ self fieldName, addFieldIfNew self fieldName noFieldData) nameList self
    = Returns self'
    ∧ (∀ fieldName, fieldName ∈ nameList ∨ fieldName ∈ fieldNames self →
         is_Some (fieldDict_get (fieldDict self') fieldName)).
Proof.
  revert self. induction nameList as [|fieldName nameList IH]; intros self.
  { exists self. split; [done|]. intros fieldName [Hin|Hin].
    - by apply elem_of_nil in Hin.
    - by apply fieldDict_get_Some. }
  cbn [foldM]. rewrite addFieldIfNew_text. cbn [obind].
  set (self1 := if bool_decide (fieldName ∈ fieldNames self) then self else _).
  destruct (IH self1) as (self' & Hfold & Hkeys).
  exists self'. split; [done|]. intros other Hother. apply Hkeys.
  assert (fieldName ∈ fieldNames self1 ∧ (other ∈ fieldNames self → other ∈ fieldNames self1))
    as [Hhead Hold].
  { unfold self1. case_bool_decide as Hin; [done|].
    unfold fieldNames, set_fieldDict. cbn [fieldDict].
    rewrite fieldDict_set_names, bool_decide_eq_false_2 by done.
    split; [apply elem_of_app; right; apply list_elem_of_here|].
    intros ?. apply elem_of_app. by left. }
  destruct Hother as [[->|Hin]%elem_of_cons|Hin]; [by right|by left|right; by apply Hold].
Qed.

Lemma changeOutputLines_fields (self : NodeFormat) (nameList : list string)
    (fields : list Field) :
  Forall valid_name nameList →
  Forall2 (λ fieldName field, fieldDict_get (fieldDict self) fieldName = Some field)
    nameList fields →
  outputLines (changeOutputLines self (placeholder "" <$> nameList) false)
  = (λ field, [SegField field]) <$> fields.
Proof.
  intros Hvalid Hfields. unfold changeOutputLines, set_outputLines.
  cbn [outputLines].
  assert (∀ acc,
    foldl (λ outputLines line,
             let newLine := parseLine (fieldDict self) line in
             if false || bool_decide (newLine ≠ [])
             then outputLines ++ [newLine] else outputLines)
      acc (placeholder "" <$> nameList)
    = acc ++ ((λ field, [SegField field]) <$> fields)) as Hfold; [|apply Hfold].
  revert Hvalid.
  induction Hfields as [|fieldName field nameList fields Hget _ IH];
    intros Hvalid acc.
  { by rewrite app_nil_r. }
  apply Forall_cons in Hvalid as [Hname Hvalid].
  rewrite !fmap_cons. cbn [foldl]. cbv zeta.
  rewrite (parseLine_placeholder _ _ _ Hname Hget).
  rewrite bool_decide_eq_true_2 by done. cbn [orb].
  rewrite (IH Hvalid). by rewrite <- app_assoc.
Qed.

(** X20: [addFieldList] with the title and the output asked for makes the
    first name the title line and every name an output line of its own,
    as the field that the dictionary holds for the name; the names are
    field names that a placeholder can hold. *)
Theorem addFieldList_lines (self : NodeFormat) (nameList : list string) :
  Forall valid_name nameList → nameList ≠ [] →
  ∃ self' fields,
    addFieldList self nameList true true = Returns self'
    ∧ Forall2 (λ fieldName field,
                 fieldDict_get (fieldDict self') fieldName = Some field)
        nameList fields
    ∧ titleLine self' = SegField <$> take 1 fields
    ∧ outputLines self' = (λ field, [SegField field]) <$> fields.
Proof.
  intros Hvalid Hne. unfold addFieldList.
  destruct (addFieldIfNew_fold nameList self) as (self1 & -> & Hkeys).
  cbn [obind].
  destruct nameList as [|name0 nameList]; [done|]. cbn [obind].
  set (self2 := changeTitleLine self1 _).
  assert (∃ fields,
            Forall2 (λ fieldName field,
                       fieldDict_get (fieldDict self1) fieldName = Some field)
              (name0 :: nameList) fields) as [fields Hfields].
  { assert (∀ fieldName, fieldName ∈ name0 :: nameList →
              is_Some (fieldDict_get (fieldDict self1) fieldName)) as Hall
      by (intros ? ?; apply Hkeys; by left).
    clear -Hall. induction (name0 :: nameList) as [|fieldName names IH].
    { by exists []. }
    destruct IH as [fields Hfields].
    { intros other Hin. by apply Hall, list_elem_of_further. }
    destruct (Hall fieldName) as [field Hget]; [apply list_elem_of_here|].
    exists (field :: fields). by apply Forall2_cons. }
  exists (changeOutputLines self2
            ((λ fieldName, "{*" +:+ fieldName +:+ "*}") <$> name0 :: nameList) false),
    fields.
  split; [done|]. split; [exact Hfields|].
  destruct fields as [|field0 fields]; [by apply Forall2_cons_nil_inv in Hfields|].
  pose proof Hfields as [Hget0 _]%Forall2_cons.
  pose proof Hvalid as [Hname0 _]%Forall_cons.
  assert (titleLine self2 = [SegField field0]) as Htitle.
  { unfold self2, changeTitleLine. cbn [titleLine].
    change ("{*" +:+ name0 +:+ "*}") with (placeholder "" name0).
    by rewrite (parseLine_placeholder _ _ _ Hname0 Hget0). }
  split; [exact Htitle|].
  exact (changeOutputLines_fields self2 (name0 :: nameList) (field0 :: fields)
           Hvalid Hfields).
Qed.

End FieldListProperties.

Lemma addFieldList_lines_witness :
  ∃ self' fields,
    addFieldList (RE := Fragment.engine) Examples.blank ["Size"; "Name"] true true
    = Returns self'
    ∧ Forall2 (λ fieldName field,
                 fieldDict_get (fieldDict self') fieldName = Some field)
        ["Size"; "Name"] fields
    ∧ titleLine self' = SegField <$> take 1 fields
    ∧ outputLines self' = (λ field, [SegField field]) <$> fields.
Proof.
  apply (addFieldList_lines (RE := Fragment.engine) Examples.blank ["Size"; "Name"]).
  - repeat (apply Forall_cons; split; [by split|]). apply Forall_nil_2.
  - discriminate.
Defined.

Section BlankOutput.

Context {RE : ReEngine} {LIT : Literals}.

Lemma outputText_blank (field : Field) (node : NodeView)
    (titleMode formatHtml : bool) :
  typeName field ≠ Combination → useFileInfo field = false →
  data_get (view_data node) (name field) = "" →
  outputText field node titleMode formatHtml = Returns "".
Proof.
  intros Hclass Hinfo Hblank.
  assert (outputText field node titleMode formatHtml
          = TextField_outputText field node titleMode formatHtml) as ->.
  { unfold outputText. by destruct (typeName field). }
  unfold TextField_outputText. rewrite Hinfo. cbn [obind]. by rewrite Hblank.
Qed.

Lemma outputPart_blank (self : NodeFormat) (node : NodeView) (plainText : bool)
    (lineData : list Segment) (line : string) (numEmptyFields : nat) :
  plainText = true ∨ formatHtml self = true →
  Forall (λ field, typeName field ≠ Combination ∧ useFileInfo field = false
                   ∧ data_get (view_data node) (name field) = "")
    (segFields lineData) →
  ∃ line',
    foldM (outputPart self node plainText) lineData (line, numEmptyFields, 0)
    = Returns (line', numEmptyFields + length (segFields lineData), 0).
Proof.
  intros Hmode. revert line numEmptyFields.
  induction lineData as [|[field|text] lineData IH];
    intros line numEmptyFields Hblank.
  - exists line. cbn [foldM segFields omap length]. by rewrite Nat.add_0_r.
  - change (segFields (SegField field :: lineData))
      with (field :: segFields lineData) in Hblank |- *.
    apply Forall_cons in Hblank as [(Hclass & Hinfo & Hdata) Hblank].
    cbn [foldM outputPart].
    rewrite (outputText_blank field node plainText (formatHtml self) Hclass Hinfo Hdata).
    cbn [obind Str.truthy].
    destruct (IH (line +:+ "") (numEmptyFields + 1) Hblank) as [line' ->].
    exists line'. cbn [length]. do 2 f_equal. f_equal. lia.
  - change (segFields (SegText text :: lineData)) with (segFields lineData)
      in Hblank |- *.
    cbn [foldM outputPart].
    assert (negb (formatHtml self) && negb plainText = false) as ->.
    { destruct Hmode as [-> | ->]; [apply andb_false_r|done]. }
    destruct (formatHtml self && plainText); cbn [obind]; by apply IH.
Qed.

(** X21: a node that has no text for any field of the output format lines
    has no output, when every line has a field and [keepBlanks] is off;
    the output is plain text or the format is HTML, and no field is a
    combination field. *)
Theorem formatOutput_blank (self : NodeFormat) (node : NodeView) (plainText : bool) :
  plainText = true ∨ formatHtml self = true →
  Forall (λ lineData,
            segFields lineData ≠ []
            ∧ Forall (λ field, typeName field ≠ Combination
                               ∧ useFileInfo field = false
                               ∧ data_get (view_data node) (name field) = "")
                (segFields lineData))
    (outputLines self) →
  NodeFormat_formatOutput self node plainText false = Returns [].
Proof.
  intros Hmode Hlines. unfold NodeFormat_formatOutput.
  induction Hlines as [|lineData lines [Hfields Hblank] _ IH]; [done|].
  cbn [foldM]. unfold outputLine at 1.
  destruct (outputPart_blank self node plainText lineData "" 0 Hmode Hblank)
    as [line ->].
  cbn [obind orb Nat.add].
  destruct (segFields lineData) as [|field fields]; [done|].
  cbn [length Nat.ltb Nat.leb Nat.eqb orb].
  rewrite bool_decide_eq_false_2 by (by intros ?).
  rewrite andb_false_r. cbn [obind]. exact IH.
Qed.

End BlankOutput.

Lemma formatOutput_blank_witness :
  NodeFormat_formatOutput (RE := Fragment.engine) (LIT := no_literals)
    (changeOutputLines Examples.blank ["{*Name*}"; "Tag: {*Tag*}"] false)
    (mkNodeView {[ "Kind" := "2" ]} None None) true false
  = Returns [].
Proof.
  apply (formatOutput_blank (RE := Fragment.engine) (LIT := no_literals)
           (changeOutputLines Examples.blank ["{*Name*}"; "Tag: {*Tag*}"] false)
           (mkNodeView {[ "Kind" := "2" ]} None None) true).
  - by left.
  - change (outputLines
              (changeOutputLines Examples.blank ["{*Name*}"; "Tag: {*Tag*}"] false))
      with [[SegField Examples.nameField];
            [SegText "Tag: "; SegField Examples.tagField]].
    repeat (apply Forall_cons; split;
            [split; [discriminate|];
             apply Forall_cons; split; [by repeat split|apply Forall_nil_2]|]).
    apply Forall_nil_2.
Defined.
